(** * kvisor image-scan scheduling: delta state, node fit, retry policy

    A shallow embedding of [imagescan/delta.go] (the delta state), of the
    image-scan controller (scheduling pass, placement, status reporting) and
    of the owner resolution of the kube controller, with the properties the
    design document states about them.

    Go maps are stdpp [gmap]s, Go sets ([map[string]struct{}]) are [gset]s,
    slices are lists, [time.Time] and [time.Duration] are integers counting
    nanoseconds, [*inf.Dec] is an unscaled integer with a decimal scale. *)

From Stdlib Require Import ZArith String Ascii List Bool Lia.
From stdpp Require Import base option list gmap sets strings sorting.

Local Open Scope string_scope.
Local Open Scope Z_scope.

(** ** Exact decimals ([gopkg.in/inf.v0]) *)

Module Dec.

(** [inf.Dec]: the number [unscaled * 10^(-scale)]. *)
Record t := mk { unscaled : Z; scale : Z }.

(** The zero value [inf.Dec{}]. *)
Definition zero : t := mk 0 0.

(** [rescale d s], for [scale d <= s]: the unscaled value of [d] at scale
    [s]. *)
Definition rescale (d : t) (s : Z) : Z := unscaled d * 10 ^ (s - scale d).

(** [z.Add(x, y)]: both operands are brought to the larger scale. *)
Definition Add (x y : t) : t :=
  let s := Z.max (scale x) (scale y) in mk (rescale x s + rescale y s) s.

(** [z.Sub(x, y)]. *)
Definition Sub (x y : t) : t :=
  let s := Z.max (scale x) (scale y) in mk (rescale x s - rescale y s) s.

(** [x.Cmp(y)]: -1, 0 or 1. *)
Definition Cmp (x y : t) : Z :=
  let s := Z.max (scale x) (scale y) in
  match rescale x s ?= rescale y s with
  | Lt => -1
  | Eq => 0
  | Gt => 1
  end.

(** A whole number as a decimal of scale 0. *)
Definition of_Z (n : Z) : t := mk n 0.

End Dec.

(** ** Strings ([strings.Contains], [strings.Split]) *)

(** [strings.Contains(s, substr)]. *)
Fixpoint strings_Contains (s substr : string) : bool :=
  String.prefix substr s ||
  match s with
  | EmptyString => false
  | String _ s' => strings_Contains s' substr
  end.

(** [substr] occurs in [s]. *)
Definition Substring (substr s : string) : Prop :=
  exists pre post, s = pre +:+ substr +:+ post.

(** [strings.Split(s, sep)] for a non-empty separator: [skip] counts the
    characters of a separator still to be dropped, [cur] is the piece being
    read, last character first. *)
Fixpoint split_go (sep s : string) (skip : nat) (cur : list ascii) : list string :=
  match s with
  | EmptyString => [string_of_list_ascii (rev cur)]
  | String c s' =>
      match skip with
      | S k => split_go sep s' k cur
      | O =>
          if String.prefix sep s
          then string_of_list_ascii (rev cur)
                 :: split_go sep s' (Nat.pred (String.length sep)) []
          else split_go sep s' O (c :: cur)
      end
  end.

Definition strings_Split (s sep : string) : list string := split_go sep s O [].

(** ** Sorting ([sort.Slice]) *)

(** [sort.Slice] belongs to Go's standard library. The functions below that
    sort are parametric in it; what is known of it is its contract. *)
Definition SliceSorter : Type := forall A : Type, (A -> A -> bool) -> list A -> list A.

(** The requirement [sort.Slice] puts on [less]: a strict weak ordering. *)
Record StrictWeakOrder {A : Type} (less : A -> A -> bool) : Prop := {
  swo_irrefl : forall a, less a a = false;
  swo_trans : forall a b c, less a b = true -> less b c = true -> less a c = true;
  swo_negtrans : forall a b c, less a b = false -> less b c = false -> less a c = false
}.

(** The contract: the slice is only ever permuted (elements move by [Swap]),
    and, when [less] is a strict weak ordering, no element of the result is
    [less] than one before it. *)
Record SliceSorterSpec (sortSlice : SliceSorter) : Prop := {
  sort_perm : forall A (less : A -> A -> bool) l, sortSlice A less l ≡ₚ l;
  sort_sorted : forall A (less : A -> A -> bool) l,
      StrictWeakOrder less ->
      StronglySorted (fun a b => less b a = false) (sortSlice A less l)
}.

(** [insertionSortLessFunc] of package [sort], the algorithm [sort.Slice]
    runs on slices of at most 12 elements:
<<
    for i := a + 1; i < b; i++ {
        for j := i; j > a && data.Less(j, j-1); j-- { data.Swap(j, j-1) }
    }
>>
    [sift less x rp] moves [x] down the already processed prefix, which is
    given last element first. *)
Fixpoint sift {A : Type} (less : A -> A -> bool) (x : A) (rp : list A) : list A :=
  match rp with
  | [] => [x]
  | y :: r => if less x y then y :: sift less x r else x :: y :: r
  end.

Definition insertionSort : SliceSorter :=
  fun A less l => rev (fold_left (fun rp x => sift less x rp) l []).

(** The processed prefix of the insertion sort, last element first: no
    element is [less] than a later one of the list. *)
Definition descending {A : Type} (less : A -> A -> bool) (rp : list A) : Prop :=
  StronglySorted (fun a b => less a b = false) rp.

(** ** Time, integers, errors *)

(** [time.Time] as nanoseconds since the zero instant; [time.Duration] as
    nanoseconds. *)
Definition time_Time : Type := Z.
Definition time_Duration : Type := Z.

Definition second : time_Duration := 1000000000.
Definition minute : time_Duration := 60 * second.

Definition IsZero (t : time_Time) : bool := t =? 0.
Definition Before (t u : time_Time) : bool := t <? u.
Definition After (t u : time_Time) : bool := u <? t.
Definition TimeAdd (t : time_Time) (d : time_Duration) : time_Time := t + d.

(** Go's [int] on the 64-bit targets the agent is built for. *)
Definition wrap64 (z : Z) : Z := (z + 2 ^ 63) mod 2 ^ 64 - 2 ^ 63.

(** Errors: the two sentinels of delta.go, any other error by its message,
    and an error wrapping another ([%w]). *)
Inductive error : Type :=
| errImageScanLayerNotFound
| errPrivateImage
| errNoCandidates
| errorNew (msg : string)
| errorWrap (msg : string) (cause : error).

Definition Error (e : error) : string :=
  match e with
  | errImageScanLayerNotFound => "image layer not found"
  | errPrivateImage => "private image"
  | errNoCandidates => "no candidates"
  | errorNew msg => msg
  | errorWrap msg _ => msg
  end.

Definition is_sentinel (e target : error) : bool :=
  match e, target with
  | errImageScanLayerNotFound, errImageScanLayerNotFound => true
  | errPrivateImage, errPrivateImage => true
  | errNoCandidates, errNoCandidates => true
  | _, _ => false
  end.

(** [errors.Is(err, target)] for a sentinel [target]: some error of the
    chain is the sentinel. A nil error is [None]. *)
Fixpoint errors_Is_chain (e target : error) : bool :=
  is_sentinel e target ||
  match e with
  | errorWrap _ cause => errors_Is_chain cause target
  | _ => false
  end.

Definition errors_Is (e : option error) (target : error) : bool :=
  match e with
  | None => false
  | Some e => errors_Is_chain e target
  end.

(** The error [e] is [target] itself or wraps it, directly or through
    further wrapping errors. *)
Inductive InChain (target : error) : error -> Prop :=
| chain_here : InChain target target
| chain_wrap (msg : string) (cause : error) :
    InChain target cause -> InChain target (errorWrap msg cause).

(** The last scan of the image failed with the private-image error, bare or
    wrapped. *)
Definition FailedAsPrivate (lastErr : option error) : Prop :=
  exists e, lastErr = Some e /\ InChain errPrivateImage e.

(** ** Retry backoff ([k8s.io/apimachinery/pkg/util/wait]) *)

(** [wait.Backoff]. [Jitter] keeps its zero value in every backoff this
    program builds, so the field and the branches it guards are left out.
    [Factor] is a float64 in Go; the program only uses the whole number 3,
    and [float64(Duration) * Factor] is exact below 2^53. *)
Record Backoff := mkBackoff {
  Duration : time_Duration;
  Factor : Z;
  Steps : Z;
  Cap : time_Duration
}.

(** Modelled from the spec: [wait.Backoff.Step] is a function of the
    apimachinery library, outside the repository. The delay grows by
    [Factor] on each of the first [Steps] calls ("exponential, base 60s,
    factor 3, max 8 steps"); afterwards "further attempts occur at the
    ceiling interval indefinitely". Returns the delay and the new state. *)
Definition Step (b : Backoff) : time_Duration * Backoff :=
  if Steps b <? 1 then (Duration b, b)
  else
    let steps := Steps b - 1 in
    let duration := Duration b in
    if Factor b =? 0 then (duration, mkBackoff duration (Factor b) steps (Cap b))
    else
      let next := duration * Factor b in
      if (0 <? Cap b) && (Cap b <? next)
      then (duration, mkBackoff (Cap b) (Factor b) 0 (Cap b))
      else (duration, mkBackoff next (Factor b) steps (Cap b)).

(** The backoff of [newImage] after [m] steps, for [m] up to 8. *)
Definition backoffAfter (m : Z) : Backoff :=
  mkBackoff (60 * second * 3 ^ m) 3 (8 - m) 0.

(** ** Cluster objects ([k8s.io/api]) *)

Record OwnerReference := mkOwnerReference {
  Kind : string;
  ref_UID : string
}.

(** [metav1.ObjectMeta], the fields the program reads. *)
Record ObjectMeta := mkObjectMeta {
  UID : string;
  Name : string;
  Namespace : string;
  Labels : gmap string string;
  OwnerReferences : list OwnerReference
}.

(** A container with its resource requests, [Resources.Requests.Cpu()] and
    [Resources.Requests.Memory()] as decimals. *)
Record Container := mkContainer {
  cont_Name : string;
  Image : string;
  Requests_Cpu : Dec.t;
  Requests_Memory : Dec.t
}.

Record ContainerStatus := mkContainerStatus {
  cs_Name : string;
  ImageID : string;
  ContainerID : string
}.

Record PodSpec := mkPodSpec {
  NodeName : string;
  Containers : list Container;
  InitContainers : list Container
}.

(** [corev1.PodPhase] is a string type. *)
Definition PodRunning : string := "Running".
Definition PodPending : string := "Pending".

Record PodStatus := mkPodStatus {
  Phase : string;
  ContainerStatuses : list ContainerStatus;
  InitContainerStatuses : list ContainerStatus
}.

Record Pod := mkPod {
  pod_Meta : ObjectMeta;
  Spec : PodSpec;
  Status : PodStatus
}.

(** [corev1.Node]: name, [Status.NodeInfo] and [Status.Allocatable]. *)
Record Node := mkNode {
  node_Meta : ObjectMeta;
  NodeInfo_Architecture : string;
  NodeInfo_OperatingSystem : string;
  Allocatable_Memory : Dec.t;
  Allocatable_Cpu : Dec.t
}.

Record ReplicaSet := mkReplicaSet { rs_Meta : ObjectMeta }.

Record Job := mkJob { job_Meta : ObjectMeta }.

Record LabelSelectorRequirement := mkLabelSelectorRequirement {
  Key : string;
  Operator : string;
  Values : list string
}.

Record LabelSelector := mkLabelSelector {
  MatchLabels : gmap string string;
  MatchExpressions : list LabelSelectorRequirement
}.

(** [appsv1.Deployment]; [Spec.Selector] is a pointer and may be nil. *)
Record Deployment := mkDeployment {
  dep_Meta : ObjectMeta;
  Selector : option LabelSelector
}.

(** [controller.Object]: the kinds the delta state distinguishes, and any
    other kind. *)
Inductive Object : Type :=
| ObjPod (v : Pod)
| ObjNode (v : Node)
| ObjJob (v : Job)
| ObjReplicaSet (v : ReplicaSet)
| ObjOther (m : ObjectMeta).

Inductive Event : Type := EventAdd | EventUpdate | EventDelete.

(** ** Label selectors ([k8s.io/apimachinery], [metav1] and [labels]) *)

(** [labels.Requirement.Matches] for the four operators a
    [LabelSelectorRequirement] can carry; [None] is the error of
    [metav1.LabelSelectorAsSelector] (an unknown operator, or a number of
    values the operator does not admit). Keys and values are taken to be
    syntactically valid labels. *)
Definition requirement_Matches (r : LabelSelectorRequirement)
    (ls : gmap string string) : option bool :=
  let hasValue := fun v => existsb (String.eqb v) (Values r) in
  if String.eqb (Operator r) "In" then
    if Nat.eqb (length (Values r)) 0 then None
    else Some match ls !! Key r with None => false | Some v => hasValue v end
  else if String.eqb (Operator r) "NotIn" then
    if Nat.eqb (length (Values r)) 0 then None
    else Some match ls !! Key r with None => true | Some v => negb (hasValue v) end
  else if String.eqb (Operator r) "Exists" then
    if Nat.eqb (length (Values r)) 0 then Some (bool_decide (is_Some (ls !! Key r)))
    else None
  else if String.eqb (Operator r) "DoesNotExist" then
    if Nat.eqb (length (Values r)) 0 then Some (negb (bool_decide (is_Some (ls !! Key r))))
    else None
  else None.

(** All requirements hold; [None] as soon as one is in error. *)
Fixpoint requirements_Match (rs : list LabelSelectorRequirement)
    (ls : gmap string string) : option bool :=
  match rs with
  | [] => Some true
  | r :: rs' =>
      match requirement_Matches r ls, requirements_Match rs' ls with
      | Some b, Some b' => Some (b && b')
      | _, _ => None
      end
  end.

(** [metav1.LabelSelectorAsSelector(ps)] followed by [sel.Matches(labels)]:
    a nil selector matches nothing, an empty one everything, otherwise every
    [MatchLabels] pair and every expression must hold. *)
Definition selector_Matches (ps : option LabelSelector)
    (ls : gmap string string) : option bool :=
  match ps with
  | None => Some false
  | Some ps =>
      match requirements_Match (MatchExpressions ps) ls with
      | None => None
      | Some b =>
          Some (bool_decide (map_Forall (fun k v => ls !! k = Some v) (MatchLabels ps)) && b)
      end
  end.

(** ** The delta state: data ([imagescan/delta.go]) *)

(** [imgcollectorconfig.Runtime] is a string type. *)
Definition RuntimeDocker : string := "docker".
Definition RuntimeContainerd : string := "containerd".

(** [imageOwner] and [imageNode]: the pods behind an owner, or on a node. *)
Record imageOwner := mkImageOwner { owner_podIDs : gset string }.
Record imageNode := mkImageNode { node_podIDs : gset string }.

Record ownerChanges := mkOwnerChanges {
  addedIDS : list string;
  removedIDs : list string
}.

(** The [image] struct. The last three fields are the timestamps the
    controller reads and writes ([ownerChangedAt], [resourcesUpdatedAt],
    [lastRemoteSyncAt]); as every [time.Time] they start at the zero
    instant. The map [owners] and [nodes] hold pointers in Go; no two
    images ever share one, so they are values here. *)
Record image := mkImage {
  id : string;
  name : string;
  architecture : string;
  containerRuntime : string;
  owners : gmap string imageOwner;
  nodes : gmap string imageNode;
  ownerChanges_ : ownerChanges;
  scanned : bool;
  lastScanErr : option error;
  failures : Z;
  retryBackoff : Backoff;
  nextScan : time_Time;
  ownerChangedAt : time_Time;
  resourcesUpdatedAt : time_Time;
  lastRemoteSyncAt : time_Time
}.

Definition set_id (v : string) (i : image) : image :=
  mkImage v (name i) (architecture i) (containerRuntime i) (owners i) (nodes i)
    (ownerChanges_ i) (scanned i) (lastScanErr i) (failures i) (retryBackoff i)
    (nextScan i) (ownerChangedAt i) (resourcesUpdatedAt i) (lastRemoteSyncAt i).

Definition set_name (v : string) (i : image) : image :=
  mkImage (id i) v (architecture i) (containerRuntime i) (owners i) (nodes i)
    (ownerChanges_ i) (scanned i) (lastScanErr i) (failures i) (retryBackoff i)
    (nextScan i) (ownerChangedAt i) (resourcesUpdatedAt i) (lastRemoteSyncAt i).

Definition set_architecture (v : string) (i : image) : image :=
  mkImage (id i) (name i) v (containerRuntime i) (owners i) (nodes i)
    (ownerChanges_ i) (scanned i) (lastScanErr i) (failures i) (retryBackoff i)
    (nextScan i) (ownerChangedAt i) (resourcesUpdatedAt i) (lastRemoteSyncAt i).

Definition set_containerRuntime (v : string) (i : image) : image :=
  mkImage (id i) (name i) (architecture i) v (owners i) (nodes i)
    (ownerChanges_ i) (scanned i) (lastScanErr i) (failures i) (retryBackoff i)
    (nextScan i) (ownerChangedAt i) (resourcesUpdatedAt i) (lastRemoteSyncAt i).

Definition set_owners (v : gmap string imageOwner) (i : image) : image :=
  mkImage (id i) (name i) (architecture i) (containerRuntime i) v (nodes i)
    (ownerChanges_ i) (scanned i) (lastScanErr i) (failures i) (retryBackoff i)
    (nextScan i) (ownerChangedAt i) (resourcesUpdatedAt i) (lastRemoteSyncAt i).

Definition set_nodes (v : gmap string imageNode) (i : image) : image :=
  mkImage (id i) (name i) (architecture i) (containerRuntime i) (owners i) v
    (ownerChanges_ i) (scanned i) (lastScanErr i) (failures i) (retryBackoff i)
    (nextScan i) (ownerChangedAt i) (resourcesUpdatedAt i) (lastRemoteSyncAt i).

Definition set_ownerChanges (v : ownerChanges) (i : image) : image :=
  mkImage (id i) (name i) (architecture i) (containerRuntime i) (owners i) (nodes i)
    v (scanned i) (lastScanErr i) (failures i) (retryBackoff i)
    (nextScan i) (ownerChangedAt i) (resourcesUpdatedAt i) (lastRemoteSyncAt i).

Definition set_scanned (v : bool) (i : image) : image :=
  mkImage (id i) (name i) (architecture i) (containerRuntime i) (owners i) (nodes i)
    (ownerChanges_ i) v (lastScanErr i) (failures i) (retryBackoff i)
    (nextScan i) (ownerChangedAt i) (resourcesUpdatedAt i) (lastRemoteSyncAt i).

Definition set_lastScanErr (v : option error) (i : image) : image :=
  mkImage (id i) (name i) (architecture i) (containerRuntime i) (owners i) (nodes i)
    (ownerChanges_ i) (scanned i) v (failures i) (retryBackoff i)
    (nextScan i) (ownerChangedAt i) (resourcesUpdatedAt i) (lastRemoteSyncAt i).

Definition set_failures (v : Z) (i : image) : image :=
  mkImage (id i) (name i) (architecture i) (containerRuntime i) (owners i) (nodes i)
    (ownerChanges_ i) (scanned i) (lastScanErr i) v (retryBackoff i)
    (nextScan i) (ownerChangedAt i) (resourcesUpdatedAt i) (lastRemoteSyncAt i).

Definition set_retryBackoff (v : Backoff) (i : image) : image :=
  mkImage (id i) (name i) (architecture i) (containerRuntime i) (owners i) (nodes i)
    (ownerChanges_ i) (scanned i) (lastScanErr i) (failures i) v
    (nextScan i) (ownerChangedAt i) (resourcesUpdatedAt i) (lastRemoteSyncAt i).

Definition set_nextScan (v : time_Time) (i : image) : image :=
  mkImage (id i) (name i) (architecture i) (containerRuntime i) (owners i) (nodes i)
    (ownerChanges_ i) (scanned i) (lastScanErr i) (failures i) (retryBackoff i)
    v (ownerChangedAt i) (resourcesUpdatedAt i) (lastRemoteSyncAt i).

Definition set_resourcesUpdatedAt (v : time_Time) (i : image) : image :=
  mkImage (id i) (name i) (architecture i) (containerRuntime i) (owners i) (nodes i)
    (ownerChanges_ i) (scanned i) (lastScanErr i) (failures i) (retryBackoff i)
    (nextScan i) (ownerChangedAt i) v (lastRemoteSyncAt i).

Definition set_ownerChangedAt (v : time_Time) (i : image) : image :=
  mkImage (id i) (name i) (architecture i) (containerRuntime i) (owners i) (nodes i)
    (ownerChanges_ i) (scanned i) (lastScanErr i) (failures i) (retryBackoff i)
    (nextScan i) v (resourcesUpdatedAt i) (lastRemoteSyncAt i).

(** A pod's reservation on a node. *)
Record pod := mkPodUsage {
  pod_id : string;
  requestCPU : Dec.t;
  requestMemory : Dec.t
}.

(** The [node] struct; [os] is the field the controller's
    [filterWindowsNodes] reads. *)
Record node := mkNodeState {
  node_name : string;
  node_architecture : string;
  os : string;
  allocatableMem : Dec.t;
  allocatableCPU : Dec.t;
  pods : gmap string pod
}.

(** [castai.ScannedImage], as [buildImageMap] reads it. *)
Record ScannedImage := mkScannedImage {
  si_ID : string;
  si_Architecture : string;
  ResourceIDs : list string
}.

(** Modelled from the spec: [castai.ScannedImage.CacheKey] is declared in
    package castai, in a file that is not embedded here; "cache key =
    imageID+architecture", the keying rule of [image.cacheKey]. *)
Definition CacheKey (s : ScannedImage) : string := si_ID s +:+ si_Architecture s.

(** [castai.TelemetryResponse], the fields [Observe] reads. *)
Record TelemetryResponse := mkTelemetryResponse {
  FullResync : bool;
  ScannedImages : list ScannedImage
}.

(** The [deltaState] struct. The channel [remoteImagesUpdate] (capacity 3)
    is the list of the values sent and not yet received, oldest first. The
    channel [queue] only carries events to [upsert] and [delete]; the
    events are applied below in the order they are received. *)
Record deltaState := mkDeltaState {
  remoteImagesUpdate : list (list ScannedImage);
  images : gmap string image;
  rs : gmap string ReplicaSet;
  jobs : gmap string Job;
  d_nodes : gmap string node;
  hostFSDisabled : bool
}.

Definition set_remoteImagesUpdate (v : list (list ScannedImage)) (d : deltaState) : deltaState :=
  mkDeltaState v (images d) (rs d) (jobs d) (d_nodes d) (hostFSDisabled d).

Definition set_images (v : gmap string image) (d : deltaState) : deltaState :=
  mkDeltaState (remoteImagesUpdate d) v (rs d) (jobs d) (d_nodes d) (hostFSDisabled d).

Definition set_rs (v : gmap string ReplicaSet) (d : deltaState) : deltaState :=
  mkDeltaState (remoteImagesUpdate d) (images d) v (jobs d) (d_nodes d) (hostFSDisabled d).

Definition set_jobs (v : gmap string Job) (d : deltaState) : deltaState :=
  mkDeltaState (remoteImagesUpdate d) (images d) (rs d) v (d_nodes d) (hostFSDisabled d).

Definition set_d_nodes (v : gmap string node) (d : deltaState) : deltaState :=
  mkDeltaState (remoteImagesUpdate d) (images d) (rs d) (jobs d) v (hostFSDisabled d).

Definition set_hostFSDisabled (v : bool) (d : deltaState) : deltaState :=
  mkDeltaState (remoteImagesUpdate d) (images d) (rs d) (jobs d) (d_nodes d) v.

(** ** The delta state: operations ([imagescan/delta.go]) *)

(** A Go function returning [(v, error)]. *)
Inductive result (A : Type) : Type :=
| Ok (v : A)
| Err (e : error).
Arguments Ok {A} v.
Arguments Err {A} e.

Definition newImage (imageID arch : string) : image :=
  {| id := imageID;
     name := "";
     architecture := arch;
     containerRuntime := "";
     owners := ∅;
     nodes := ∅;
     ownerChanges_ := mkOwnerChanges [] [];
     scanned := false;
     lastScanErr := None;
     failures := 0;
     retryBackoff := mkBackoff (60 * second) 3 8 0;
     nextScan := 0;
     ownerChangedAt := 0;
     resourcesUpdatedAt := 0;
     lastRemoteSyncAt := 0 |}.

(** The owners map [buildImageMap] makes of [ResourceIDs]: every id with an
    empty pod set. *)
Definition seedOwners (ids : list string) : gmap string imageOwner :=
  fold_left (fun owners id => <[id := mkImageOwner ∅]> owners) ids ∅.

(** The image [buildImageMap] makes of one scanned image. *)
Definition seededImage (scannedImage : ScannedImage) : image :=
  let img := newImage (si_ID scannedImage) (si_Architecture scannedImage) in
  let img := set_scanned true img in
  let img := set_owners (seedOwners (ResourceIDs scannedImage)) img in
  set_architecture (si_Architecture scannedImage) img.

Definition buildImageMap (scannedImages : list ScannedImage) : gmap string image :=
  fold_left
    (fun images scannedImage => <[CacheKey scannedImage := seededImage scannedImage]> images)
    scannedImages ∅.

Definition NewDeltaState (scannedImages : list ScannedImage) : deltaState :=
  {| remoteImagesUpdate := [];
     images := buildImageMap scannedImages;
     rs := ∅;
     jobs := ∅;
     d_nodes := ∅;
     hostFSDisabled := false |}.

(** Capacity of the channel [remoteImagesUpdate]. *)
Definition remoteImagesUpdate_cap : nat := 3.

(** [Observe]: [None] stands for a send that blocks because the channel is
    full, until the receiver has taken a value. *)
Definition Observe (response : TelemetryResponse) (d : deltaState) : option deltaState :=
  if FullResync response && (0 <? Z.of_nat (length (ScannedImages response)))
  then
    if Nat.ltb (length (remoteImagesUpdate d)) remoteImagesUpdate_cap
    then Some (set_remoteImagesUpdate (remoteImagesUpdate d ++ [ScannedImages response]) d)
    else None
  else Some d.

Definition updateImagesFromRemote (imgs : list ScannedImage) (d : deltaState) : deltaState :=
  set_images (buildImageMap imgs) d.

(** Modelled from the spec: the receiving end of [remoteImagesUpdate] is in
    the subscriber's run loop, which is not embedded here; "remote-sync
    rehydration replaces the entire map under the same keying rule": the
    oldest pending value is taken and handed to [updateImagesFromRemote]. *)
Definition receiveRemoteImagesUpdate (d : deltaState) : deltaState :=
  match remoteImagesUpdate d with
  | [] => d
  | imgs :: rest => updateImagesFromRemote imgs (set_remoteImagesUpdate rest d)
  end.

Definition cacheKey (img : image) : string := id img +:+ architecture img.

Definition isUnused (img : image) : bool :=
  Nat.eqb (size (nodes img)) 0 && Nat.eqb (size (owners img)) 0.

Definition ownerChanges_empty (c : ownerChanges) : bool :=
  Nat.eqb (length (addedIDS c)) 0 && Nat.eqb (length (removedIDs c)) 0.

Definition ownerChanges_clear (c : ownerChanges) : ownerChanges := mkOwnerChanges [] [].

Definition availableMemory (n : node) : Dec.t :=
  map_fold (fun _ p result => Dec.Sub result (requestMemory p))
    (Dec.Add Dec.zero (allocatableMem n)) (pods n).

Definition availableCPU (n : node) : Dec.t :=
  map_fold (fun _ p result => Dec.Sub result (requestCPU p))
    (Dec.Add Dec.zero (allocatableCPU n)) (pods n).

Definition sumPodRequestMemory (spec : PodSpec) : Dec.t :=
  fold_left (fun result container => Dec.Add result (Requests_Memory container))
    (Containers spec) Dec.zero.

Definition sumPodRequestCPU (spec : PodSpec) : Dec.t :=
  fold_left (fun result container => Dec.Add result (Requests_Cpu container))
    (Containers spec) Dec.zero.

Definition getContainerRuntime (containerID : string) : string :=
  match strings_Split containerID "://" with
  | [cr; _] =>
      if String.eqb cr "docker" then RuntimeDocker
      else if String.eqb cr "containerd" then RuntimeContainerd
      else ""
  | _ => ""
  end.

(** [getPodOwnerID] of delta.go. The loops over [rsMap] and [jobsMap] stop
    at the first value with the UID of the reference. *)
Definition getPodOwnerID (pod : Pod) (rsMap : gmap string ReplicaSet)
    (jobsMap : gmap string Job) : string :=
  match OwnerReferences (pod_Meta pod) with
  | [] => UID (pod_Meta pod)
  | ref :: _ =>
      if String.eqb (Kind ref) "ReplicaSet" then
        match List.find (fun val => String.eqb (UID (rs_Meta val)) (ref_UID ref))
                (map_to_list rsMap).*2 with
        | Some val =>
            match OwnerReferences (rs_Meta val) with
            | owner :: _ => ref_UID owner
            | [] => ref_UID ref
            end
        | None => ref_UID ref
        end
      else if String.eqb (Kind ref) "Job" then
        match List.find (fun val => String.eqb (UID (job_Meta val)) (ref_UID ref))
                (map_to_list jobsMap).*2 with
        | Some val =>
            match OwnerReferences (job_Meta val) with
            | owner :: _ => ref_UID owner
            | [] => ref_UID ref
            end
        | None => ref_UID ref
        end
      else ref_UID ref
  end.

Definition updateNodeUsage (v : Node) (d : deltaState) : deltaState :=
  let n :=
    match d_nodes d !! Name (node_Meta v) with
    | Some n => n
    | None =>
        {| node_name := Name (node_Meta v);
           node_architecture := NodeInfo_Architecture v;
           os := "";
           allocatableMem := Dec.zero;
           allocatableCPU := Dec.zero;
           pods := ∅ |}
    end in
  let n :=
    {| node_name := node_name n;
       node_architecture := node_architecture n;
       os := os n;
       allocatableMem := Allocatable_Memory v;
       allocatableCPU := Allocatable_Cpu v;
       pods := pods n |} in
  set_d_nodes (<[Name (node_Meta v) := n]> (d_nodes d)) d.

Definition node_set_pods (ps : gmap string pod) (n : node) : node :=
  {| node_name := node_name n;
     node_architecture := node_architecture n;
     os := os n;
     allocatableMem := allocatableMem n;
     allocatableCPU := allocatableCPU n;
     pods := ps |}.

Definition updateNodesUsageFromPod (v : Pod) (d : deltaState) : deltaState :=
  let nodeName := NodeName (Spec v) in
  if String.eqb (Phase (Status v)) PodRunning || String.eqb (Phase (Status v)) PodPending
  then
    let n :=
      match d_nodes d !! nodeName with
      | Some n => n
      | None =>
          {| node_name := nodeName;
             node_architecture := "";
             os := "";
             allocatableMem := Dec.zero;
             allocatableCPU := Dec.zero;
             pods := ∅ |}
      end in
    let p :=
      {| pod_id := UID (pod_Meta v);
         requestCPU := sumPodRequestCPU (Spec v);
         requestMemory := sumPodRequestMemory (Spec v) |} in
    set_d_nodes (<[nodeName := node_set_pods (<[UID (pod_Meta v) := p]> (pods n)) n]> (d_nodes d)) d
  else
    match d_nodes d !! nodeName with
    | Some n =>
        set_d_nodes (<[nodeName := node_set_pods (delete (UID (pod_Meta v)) (pods n)) n]> (d_nodes d)) d
    | None => d
    end.

(** The body of the loop of [upsertImages] for one container. *)
Definition upsertImage (pod : Pod) (containerStatuses : list ContainerStatus)
    (ownerResourceID : string) (d : deltaState) (cont : Container) : deltaState :=
  match List.find (fun v => String.eqb (cs_Name v) (cont_Name cont)) containerStatuses with
  | None => d
  | Some cs =>
      if String.eqb (ImageID cs) "" then d
      else if String.eqb (Image cont) "" then d
      else
        let podID := UID (pod_Meta pod) in
        let nodeName := NodeName (Spec pod) in
        let arch :=
          match d_nodes d !! nodeName with
          | Some n => node_architecture n
          | None => "amd64"
          end in
        let key := ImageID cs +:+ arch in
        let img :=
          match images d !! key with
          | Some img => img
          | None => newImage (ImageID cs) arch
          end in
        let img := set_id (ImageID cs) img in
        let img := set_name (Image cont) img in
        let img := set_containerRuntime (getContainerRuntime (ContainerID cs)) img in
        let img :=
          match owners img !! ownerResourceID with
          | Some owner =>
              set_owners
                (<[ownerResourceID := mkImageOwner ({[podID]} ∪ owner_podIDs owner)]> (owners img))
                img
          | None =>
              let img :=
                set_owners (<[ownerResourceID := mkImageOwner {[podID]}]> (owners img)) img in
              if scanned img
              then set_ownerChanges
                     (mkOwnerChanges (addedIDS (ownerChanges_ img) ++ [ownerResourceID])
                        (removedIDs (ownerChanges_ img))) img
              else img
          end in
        let img :=
          match nodes img !! nodeName with
          | Some imgNode =>
              set_nodes (<[nodeName := mkImageNode ({[podID]} ∪ node_podIDs imgNode)]> (nodes img)) img
          | None =>
              set_nodes (<[nodeName := mkImageNode {[podID]}]> (nodes img)) img
          end in
        set_images (<[key := img]> (images d)) d
  end.

Definition upsertImages (pod : Pod) (d : deltaState) : deltaState :=
  if negb (String.eqb (Phase (Status pod)) PodRunning) then d
  else
    let containers := (Containers (Spec pod) ++ InitContainers (Spec pod))%list in
    let containerStatuses :=
      (ContainerStatuses (Status pod) ++ InitContainerStatuses (Status pod))%list in
    let ownerResourceID := getPodOwnerID pod (rs d) (jobs d) in
    fold_left (upsertImage pod containerStatuses ownerResourceID) containers d.

Definition handlePodUpdate (v : Pod) (d : deltaState) : deltaState :=
  updateNodesUsageFromPod v (upsertImages v d).

(** The body of the loop of [handlePodDelete] for one image; [None] when
    the image is deleted from the map. Every iteration reads and writes its
    own image only, so the loop is a map over the images. *)
Definition handlePodDelete_image (pod : Pod) (ownerResourceID : string)
    (img : image) : option image :=
  let podID := UID (pod_Meta pod) in
  let img :=
    match nodes img !! NodeName (Spec pod) with
    | Some n =>
        set_nodes
          (<[NodeName (Spec pod) := mkImageNode (node_podIDs n ∖ {[podID]})]> (nodes img)) img
    | None => img
    end in
  let img :=
    match owners img !! ownerResourceID with
    | Some owner =>
        let podIDs := owner_podIDs owner ∖ {[podID]} in
        if Nat.eqb (size podIDs) 0
        then
          let img := set_owners (delete ownerResourceID (owners img)) img in
          if scanned img
          then set_ownerChanges
                 (mkOwnerChanges (addedIDS (ownerChanges_ img))
                    (removedIDs (ownerChanges_ img) ++ [ownerResourceID])) img
          else img
        else set_owners (<[ownerResourceID := mkImageOwner podIDs]> (owners img)) img
    | None => img
    end in
  if Nat.eqb (size (nodes img)) 0 && Nat.eqb (size (owners img)) 0 then None else Some img.

Definition handlePodDelete (pod : Pod) (d : deltaState) : deltaState :=
  let ownerResourceID := getPodOwnerID pod (rs d) (jobs d) in
  let d := set_images (omap (handlePodDelete_image pod ownerResourceID) (images d)) d in
  match d_nodes d !! NodeName (Spec pod) with
  | Some n =>
      set_d_nodes
        (<[NodeName (Spec pod) := node_set_pods (delete (UID (pod_Meta pod)) (pods n)) n]> (d_nodes d)) d
  | None => d
  end.

Definition handleNodeDelete_image (nodeName : string) (img : image) : option image :=
  let img := set_nodes (delete nodeName (nodes img)) img in
  if isUnused img then None else Some img.

Definition handleNodeDelete (v : Node) (d : deltaState) : deltaState :=
  let d := set_d_nodes (delete (Name (node_Meta v)) (d_nodes d)) d in
  set_images (omap (handleNodeDelete_image (Name (node_Meta v))) (images d)) d.

(** [upsert] and [delete]. [controller.ObjectKey] is declared in package
    controller and enters as a parameter. *)
Definition upsert (ObjectKey : Object -> string) (o : Object) (d : deltaState) : deltaState :=
  let key := ObjectKey o in
  match o with
  | ObjPod v => handlePodUpdate v d
  | ObjNode v => updateNodeUsage v d
  | ObjJob v => set_jobs (<[key := v]> (jobs d)) d
  | ObjReplicaSet v => set_rs (<[key := v]> (rs d)) d
  | ObjOther _ => d
  end.

Definition delete_ (ObjectKey : Object -> string) (o : Object) (d : deltaState) : deltaState :=
  let key := ObjectKey o in
  match o with
  | ObjPod v => handlePodDelete v d
  | ObjNode v => handleNodeDelete v d
  | ObjJob v => set_jobs (delete key (jobs d)) d
  | ObjReplicaSet v => set_rs (delete key (rs d)) d
  | ObjOther _ => d
  end.

(** [Controller.handleDelta]. *)
Definition handleDelta (ObjectKey : Object -> string) (d : deltaState)
    (item : Event * Object) : deltaState :=
  match fst item with
  | EventAdd | EventUpdate => upsert ObjectKey (snd item) d
  | EventDelete => delete_ ObjectKey (snd item) d
  end.

(** The events of the queue, applied in the order they are received. *)
Definition handleDeltas (ObjectKey : Object -> string) (items : list (Event * Object))
    (d : deltaState) : deltaState :=
  fold_left (handleDelta ObjectKey) items d.

(** [lo.Values(d.images)], in the order the map yields them. *)
Definition getImages (d : deltaState) : list image := (map_to_list (images d)).*2.

(** No image of [getImages] is without owners and without nodes. *)
Definition noUnusedImages (d : deltaState) : Prop :=
  Forall (fun img => isUnused img = false) (getImages d).

Definition getNode (d : deltaState) (nm : string) : option node := d_nodes d !! nm.

Definition updateImage (i : image) (change : image -> image) (d : deltaState) : deltaState :=
  match images d !! cacheKey i with
  | Some img => set_images (<[cacheKey i := change img]> (images d)) d
  | None => d
  end.

Definition isLayerNotFoundMessage (msg : string) : bool :=
  strings_Contains msg "no such file or directory"
  || strings_Contains msg "failed to get the layer".

Definition isPrivateImageMessage (msg : string) : bool :=
  strings_Contains msg "UNAUTHORIZED"
  || strings_Contains msg "MANIFEST_UNKNOWN"
  || strings_Contains msg "DENIED".

(** [setImageScanError]; [now] is the reading of [time.Now().UTC()]. *)
Definition setImageScanError (i : image) (err : error) (now : time_Time)
    (d : deltaState) : deltaState :=
  match images d !! cacheKey i with
  | None => d
  | Some img =>
      let img := set_failures (wrap64 (failures img + 1)) img in
      let img := set_lastScanErr (Some err) img in
      let '(img, d) :=
        if isLayerNotFoundMessage (Error err)
        then (set_lastScanErr (Some errImageScanLayerNotFound) img, set_hostFSDisabled true d)
        else if isPrivateImageMessage (Error err)
        then (set_lastScanErr (Some errPrivateImage) img, d)
        else (img, d) in
      let '(delay, b) := Step (retryBackoff img) in
      let img := set_nextScan (TimeAdd now delay) (set_retryBackoff b img) in
      set_images (<[cacheKey i := img]> (images d)) d
  end.

(** The messages [setImageScanError] takes for a missing file or layer, and
    for a registry that refuses access. *)
Definition LayerNotFoundMessage (msg : string) : Prop :=
  Substring "no such file or directory" msg \/ Substring "failed to get the layer" msg.

Definition RegistryAuthMessage (msg : string) : Prop :=
  Substring "UNAUTHORIZED" msg \/ Substring "MANIFEST_UNKNOWN" msg \/ Substring "DENIED" msg.

(** The delays ([nextScan] minus the time of the failure) of successive
    calls of [setImageScanError] for the image [i], one call per failure
    [(err, now)]. *)
Fixpoint scanErrorDelays (i : image) (failed : list (error * time_Time))
    (d : deltaState) : list time_Duration :=
  match failed with
  | [] => []
  | (err, now) :: rest =>
      let d' := setImageScanError i err now d in
      match images d' !! cacheKey i with
      | Some img' => (nextScan img' - now) :: scanErrorDelays i rest d'
      | None => []
      end
  end.

(** The filter of [findBestNode]: the tracked nodes among [nodeNames] with
    enough memory and CPU left, in the order of [nodeNames]. *)
Definition fits (requiredMemory requiredCPU : Dec.t) (n : node) : bool :=
  (0 <=? Dec.Cmp (availableMemory n) requiredMemory)
  && (0 <=? Dec.Cmp (availableCPU n) requiredCPU).

Fixpoint findCandidates (d : deltaState) (nodeNames : list string)
    (requiredMemory requiredCPU : Dec.t) : list node :=
  match nodeNames with
  | [] => []
  | nodeName :: rest =>
      match d_nodes d !! nodeName with
      | Some n =>
          if fits requiredMemory requiredCPU n
          then n :: findCandidates d rest requiredMemory requiredCPU
          else findCandidates d rest requiredMemory requiredCPU
      | None => findCandidates d rest requiredMemory requiredCPU
      end
  end.

(** The [less] function [findBestNode] hands to [sort.Slice]. *)
Definition bestNodeLess (a b : node) : bool :=
  0 <? Dec.Cmp (availableCPU a) (allocatableCPU b).

(** [findBestNode]. [sort.Slice] sorts in place, so the sorted slice is as
    long as [candidates] and [candidates[0]] exists; the last case is out
    of reach for a sorter that permutes. *)
Definition findBestNode (sortSlice : SliceSorter) (d : deltaState)
    (nodeNames : list string) (requiredMemory requiredCPU : Dec.t) : result string :=
  if Nat.eqb (size (d_nodes d)) 0 then Err errNoCandidates
  else
    let candidates := findCandidates d nodeNames requiredMemory requiredCPU in
    if Nat.eqb (length candidates) 0 then Err errNoCandidates
    else
      match sortSlice node bestNodeLess candidates with
      | n :: _ => Ok (node_name n)
      | [] => Err errNoCandidates
      end.

Definition nodeCount (d : deltaState) : Z := Z.of_nat (size (d_nodes d)).

Definition isHostFsDisabled (d : deltaState) : bool := hostFSDisabled d.

(** ** The image-scan controller ([imagescan/controller.go]) *)

(** [imgcollectorconfig.Mode] is a string type. *)
Definition ModeRemote : string := "remote".
Definition ModeHostFS : string := "hostfs".

(** [config.ImageScan], the fields read here; [MemoryRequest] and
    [CPURequest] are the quantities [resource.MustParse] yields. *)
Record ImageScan := mkImageScan {
  Mode : string;
  MemoryRequest : Dec.t;
  CPURequest : Dec.t;
  MaxConcurrentScans : Z
}.

Record Controller := mkController {
  delta : deltaState;
  cfg : ImageScan;
  fullSnapshotSent : bool
}.

Definition isImagePrivate (v : image) : bool := errors_Is (lastScanErr v) errPrivateImage.

Definition isImagePending (v : image) (now : time_Time) : bool :=
  negb (scanned v)
  && (0 <? Z.of_nat (size (owners v)))
  && negb (isImagePrivate v)
  && (IsZero (nextScan v) || Before (nextScan v) now).

(** The [less] function of [findPendingImages]. *)
Definition failuresLess (a b : image) : bool := failures a <? failures b.

(** An image that has not failed a scan, and one that failed at most [f]
    times. *)
Definition neverFailed (v : image) : bool := failures v =? 0.

Definition failedAtMost (f : Z) (v : image) : bool := failures v <=? f.

(** [findPendingImages]; [now] is the reading of [s.timeGetter()]. *)
Definition findPendingImages (sortSlice : SliceSorter) (now : time_Time)
    (s : Controller) : list image :=
  let all := getImages (delta s) in
  let pendingImages := List.filter (fun v => isImagePending v now) all in
  sortSlice image failuresLess pendingImages.

Definition concurrentScansNumber (s : Controller) : Z :=
  if nodeCount (delta s) =? 1 then 1 else MaxConcurrentScans (cfg s).

(** The images [scheduleScans] hands to [scanImages]: the pending images,
    cut to [concurrentScans] when there are more. [None] is the run-time
    panic of [imagesForScan[:concurrentScans]] on a negative bound. *)
Definition imagesForScan (sortSlice : SliceSorter) (now : time_Time)
    (s : Controller) : option (list image) :=
  let pendingImages := findPendingImages sortSlice now s in
  let concurrentScans := concurrentScansNumber s in
  if concurrentScans <? Z.of_nat (length pendingImages)
  then
    if concurrentScans <? 0 then None
    else Some (take (Z.to_nat concurrentScans) pendingImages)
  else Some pendingImages.

(** [filterWindowsNodes]; [None] is the nil dereference of
    [s.delta.nodes[name].os] on a name that is not tracked. *)
Fixpoint filterWindowsNodes (s : Controller) (names : list string) : option (list string) :=
  match names with
  | [] => Some []
  | nm :: rest =>
      match d_nodes (delta s) !! nm with
      | None => None
      | Some n =>
          match filterWindowsNodes s rest with
          | None => None
          | Some filtered =>
              if negb (String.eqb (os n) "linux") then Some filtered
              else Some (nm :: filtered)
          end
      end
  end.

(** [findBestNodeAndMode], returning the node and the mode. The method
    [filterCastAIManagedNodes] of the delta state belongs to a later
    revision of delta.go and enters as a parameter. [None] is a panic. *)
Definition findBestNodeAndMode (sortSlice : SliceSorter)
    (filterCastAIManagedNodes : deltaState -> list string -> list string)
    (s : Controller) (img : image) : option (result (string * string)) :=
  let mode := Mode (cfg s) in
  let mode :=
    if errors_Is (lastScanErr img) errImageScanLayerNotFound then ModeRemote else mode in
  let allNodes := (map_to_list (d_nodes (delta s))).*1 in
  let chosen : result (string * list string) :=
    if String.eqb mode ModeHostFS then
      let nodeNames := (map_to_list (nodes img)).*1 in
      if Nat.eqb (length nodeNames) 0 then Err (errorNew "image with empty nodes")
      else
        let nodeNames := filterCastAIManagedNodes (delta s) nodeNames in
        if Nat.eqb (length nodeNames) 0 then Ok (ModeRemote, allNodes)
        else Ok (mode, nodeNames)
    else Ok (mode, allNodes) in
  match chosen with
  | Err e => Some (Err e)
  | Ok (mode, nodeNames) =>
      match filterWindowsNodes s nodeNames with
      | None => None
      | Some nodeNames =>
          match findBestNode sortSlice (delta s) nodeNames
                  (MemoryRequest (cfg s)) (CPURequest (cfg s)) with
          | Ok resolvedNode => Some (Ok (resolvedNode, mode))
          | Err err =>
              if errors_Is (Some err) errNoCandidates && String.eqb mode ModeHostFS
              then
                match findBestNode sortSlice (delta s) allNodes
                        (MemoryRequest (cfg s)) (CPURequest (cfg s)) with
                | Ok resolvedNode => Some (Ok (resolvedNode, ModeRemote))
                | Err err => Some (Err err)
                end
              else Some (Err err)
          end
      end
  end.

(** [castai.ImageScanStatus], a string type: its zero value and the two
    constants the controller uses. *)
Inductive ImageScanStatus : Type :=
| ImageScanStatusUnset
| ImageScanStatusPending
| ImageScanStatusError.

(** [castai.Image] and [castai.UpdateImagesStatusRequest]. *)
Record castai_Image := mkCastaiImage {
  ci_ID : string;
  ci_Architecture : string;
  ci_ResourceIDs : list string;
  ImageName : string;
  ci_Status : ImageScanStatus;
  ErrorMsg : string
}.

Record UpdateImagesStatusRequest := mkUpdateImagesStatusRequest {
  FullSnapshot : bool;
  Images : list castai_Image
}.

(** What a call of [updateImageStatuses] leaves behind: the controller, the
    report handed to the client (if one was), and the error returned. *)
Record statusUpdate := mkStatusUpdate {
  su_controller : Controller;
  su_report : option UpdateImagesStatusRequest;
  su_err : option error
}.

Definition imageChange (now : time_Time) (img : image) : castai_Image :=
  {| ci_ID := id img;
     ci_Architecture := architecture img;
     ci_ResourceIDs := (map_to_list (owners img)).*1;
     ImageName := name img;
     ci_Status := if isImagePending img now then ImageScanStatusPending
                  else ImageScanStatusUnset;
     ErrorMsg := "" |}.

(** The images [updateImageStatuses] reports, each with the key under which
    the delta state holds it (the slice holds pointers into the map). *)
Definition imagesToReport (s : Controller) : list (string * image) :=
  let all := map_to_list (images (delta s)) in
  if fullSnapshotSent s
  then List.filter (fun item => After (ownerChangedAt item.2) (resourcesUpdatedAt item.2)) all
  else all.

(** [updateImageStatuses]; [UpdateImageStatus] is the client call, [now] the
    reading of [s.timeGetter()]. *)
Definition updateImageStatuses (UpdateImageStatus : UpdateImagesStatusRequest -> option error)
    (now : time_Time) (s : Controller) : statusUpdate :=
  let reported := imagesToReport s in
  if Nat.eqb (length reported) 0 then mkStatusUpdate s None None
  else
    let imagesChanges := List.map (fun item => imageChange now item.2) reported in
    let report :=
      {| FullSnapshot := fullSnapshotSent s; Images := imagesChanges |} in
    match UpdateImageStatus report with
    | Some err => mkStatusUpdate s (Some report) (Some err)
    | None =>
        let stamped :=
          fold_left (fun m item => alter (set_resourcesUpdatedAt now) item.1 m)
            reported (images (delta s)) in
        mkStatusUpdate
          (mkController (set_images stamped (delta s)) (cfg s) true)
          (Some report) None
    end.

(** ** Owner resolution of the kube controller ([kube/controller.go]) *)

Module kube.

(** The caches of [kube.Controller], keyed by UID. *)
Record Controller := mkController {
  replicaSets : gmap string ReplicaSet;
  deployments : gmap string Deployment;
  jobs : gmap string Job
}.

(** [findNextOwnerID(obj, expectedKind)], on the metadata of [obj]. *)
Definition findNextOwnerID (obj : ObjectMeta) (expectedKind : string) : string * bool :=
  match OwnerReferences obj with
  | [] => (UID obj, true)
  | refs =>
      match List.find (fun ref => String.eqb (Kind ref) expectedKind) refs with
      | Some ref => (ref_UID ref, true)
      | None => ("", false)
      end
  end.

(** [findOwnerFromDeployments]: the first deployment, in the order the map
    yields them, whose selector converts and matches the labels of the
    pod. *)
Definition findOwnerFromDeployments (items : gmap string Deployment) (pod : Pod)
    : string * bool :=
  match List.find
          (fun deployment =>
             match selector_Matches (Selector deployment) (Labels (pod_Meta pod)) with
             | Some b => b
             | None => false
             end)
          (map_to_list items).*2 with
  | Some deployment => (UID (dep_Meta deployment), true)
  | None => ("", false)
  end.

Definition GetPodOwnerID (c : Controller) (pod : Pod) : string :=
  match OwnerReferences (pod_Meta pod) with
  | [] => UID (pod_Meta pod)
  | ref :: _ =>
      if String.eqb (Kind ref) "DaemonSet" || String.eqb (Kind ref) "StatefulSet"
      then ref_UID ref
      else if String.eqb (Kind ref) "ReplicaSet" then
        let rs := replicaSets c !! ref_UID ref in
        let fast :=
          match rs with
          | Some rs => findNextOwnerID (rs_Meta rs) "Deployment"
          | None => ("", false)
          end in
        if fast.2 then fast.1
        else
          let slow := findOwnerFromDeployments (deployments c) pod in
          if slow.2 then slow.1
          else
            match rs with
            | Some rs => UID (rs_Meta rs)
            | None => UID (pod_Meta pod)
            end
      else if String.eqb (Kind ref) "Job" then
        match jobs c !! ref_UID ref with
        | Some job =>
            let owner := findNextOwnerID (job_Meta job) "CronJob" in
            if owner.2 then owner.1 else UID (job_Meta job)
        | None => UID (pod_Meta pod)
        end
      else UID (pod_Meta pod)
  end.

(** The owner the design document names for a pod with owner references,
    in the document's words: for a first reference to a ReplicaSet, "its
    Deployment owner if present, else fall back to label-selector matching
    against cached Deployments, else the ReplicaSet's own ID"; without owner
    references "the pod's own ID". References of other kinds are left
    open. *)
Definition hasDeploymentOwner (c : Controller) (ref : OwnerReference) (owner : string) : Prop :=
  exists rs dep,
    replicaSets c !! ref_UID ref = Some rs
    /\ dep ∈ OwnerReferences (rs_Meta rs)
    /\ Kind dep = "Deployment"
    /\ owner = ref_UID dep.

Definition hasMatchingDeployment (c : Controller) (pod : Pod) (owner : string) : Prop :=
  exists k deployment,
    deployments c !! k = Some deployment
    /\ selector_Matches (Selector deployment) (Labels (pod_Meta pod)) = Some true
    /\ owner = UID (dep_Meta deployment).

Definition OwnerAsDocumented (c : Controller) (pod : Pod) (owner : string) : Prop :=
  match OwnerReferences (pod_Meta pod) with
  | [] => owner = UID (pod_Meta pod)
  | ref :: _ =>
      Kind ref = "ReplicaSet" ->
      hasDeploymentOwner c ref owner
      \/ ((forall o, ~ hasDeploymentOwner c ref o) /\ hasMatchingDeployment c pod owner)
      \/ ((forall o, ~ hasDeploymentOwner c ref o)
          /\ (forall o, ~ hasMatchingDeployment c pod o)
          /\ owner = ref_UID ref)
  end.

End kube.

(** ** Reservations at a common scale *)

(** The CPU and the memory the pods of a node request, as whole numbers of
    units of [10^(-s)]. *)
Definition requestedCPU (s : Z) (n : node) : Z :=
  map_fold (fun _ p acc => acc + Dec.rescale (requestCPU p) s) 0 (pods n).

Definition requestedMemory (s : Z) (n : node) : Z :=
  map_fold (fun _ p acc => acc + Dec.rescale (requestMemory p) s) 0 (pods n).

(** The phases in which [updateNodesUsageFromPod] keeps a reservation. *)
Definition isActive (v : Pod) : bool :=
  String.eqb (Phase (Status v)) PodRunning || String.eqb (Phase (Status v)) PodPending.

(** The image under [key] lists the pod [podID] behind the owner
    [ownerResourceID] and on the node [nodeName]. *)
Definition podTracked (d : deltaState) (key ownerResourceID nodeName podID : string) : Prop :=
  exists img owner imgNode,
    images d !! key = Some img
    /\ owners img !! ownerResourceID = Some owner
    /\ podID ∈ owner_podIDs owner
    /\ nodes img !! nodeName = Some imgNode
    /\ podID ∈ node_podIDs imgNode.

(** The architecture [upsertImages] takes for the images of a pod. *)
Definition podArch (d : deltaState) (pod : Pod) : string :=
  match d_nodes d !! NodeName (Spec pod) with
  | Some n => node_architecture n
  | None => "amd64"
  end.

(** The scan state of an image: what a scan and its failures write. *)
Definition scanState (img : image)
    : bool * option error * Z * Backoff * time_Time :=
  (scanned img, lastScanErr img, failures img, retryBackoff img, nextScan img).

(** Every node an image is recorded on is a tracked node. *)
Definition imageNodesTracked (d : deltaState) : Prop :=
  forall k img nm,
    images d !! k = Some img -> is_Some (nodes img !! nm) -> is_Some (d_nodes d !! nm).

(** The second half of [findBestNodeAndMode]: the candidates [nodeNames]
    chosen for [mode] go through [filterWindowsNodes] and [findBestNode],
    with the one retry over all nodes in remote mode. *)
Definition placeOn (sortSlice : SliceSorter) (s : Controller) (mode : string)
    (nodeNames : list string) : option (result (string * string)) :=
  match filterWindowsNodes s nodeNames with
  | None => None
  | Some nodeNames =>
      match findBestNode sortSlice (delta s) nodeNames
              (MemoryRequest (cfg s)) (CPURequest (cfg s)) with
      | Ok resolvedNode => Some (Ok (resolvedNode, mode))
      | Err err =>
          if errors_Is (Some err) errNoCandidates && String.eqb mode ModeHostFS
          then
            match findBestNode sortSlice (delta s) (map_to_list (d_nodes (delta s))).*1
                    (MemoryRequest (cfg s)) (CPURequest (cfg s)) with
            | Ok resolvedNode => Some (Ok (resolvedNode, ModeRemote))
            | Err err => Some (Err err)
            end
          else Some (Err err)
      end
  end.

(** The mode [findBestNodeAndMode] starts from. *)
Definition startMode (s : Controller) (img : image) : string :=
  if errors_Is (lastScanErr img) errImageScanLayerNotFound then ModeRemote
  else Mode (cfg s).


(** ** The caches of the kube controller ([kube/controller.go]) *)

(** [kube.Object], by the kinds [handleDeltaUpsert] and [handleDeltaDelete]
    tell apart. *)
Inductive kubeObject : Type :=
| KubeReplicaSet (v : ReplicaSet)
| KubeDeployment (v : Deployment)
| KubeJob (v : Job)
| KubeOther (m : ObjectMeta).

Definition handleDeltaUpsert (obj : kubeObject) (c : kube.Controller) : kube.Controller :=
  match obj with
  | KubeReplicaSet v =>
      kube.mkController (<[UID (rs_Meta v) := v]> (kube.replicaSets c))
        (kube.deployments c) (kube.jobs c)
  | KubeDeployment v =>
      kube.mkController (kube.replicaSets c)
        (<[UID (dep_Meta v) := v]> (kube.deployments c)) (kube.jobs c)
  | KubeJob v =>
      kube.mkController (kube.replicaSets c) (kube.deployments c)
        (<[UID (job_Meta v) := v]> (kube.jobs c))
  | KubeOther _ => c
  end.

Definition handleDeltaDelete (obj : kubeObject) (c : kube.Controller) : kube.Controller :=
  match obj with
  | KubeReplicaSet v =>
      kube.mkController (delete (UID (rs_Meta v)) (kube.replicaSets c))
        (kube.deployments c) (kube.jobs c)
  | KubeDeployment v =>
      kube.mkController (kube.replicaSets c)
        (delete (UID (dep_Meta v)) (kube.deployments c)) (kube.jobs c)
  | KubeJob v =>
      kube.mkController (kube.replicaSets c) (kube.deployments c)
        (delete (UID (job_Meta v)) (kube.jobs c))
  | KubeOther _ => c
  end.

(** What [handleEvent] does to the caches for one event: a delete goes to
    [handleDeltaDelete], an add or an update to [handleDeltaUpsert]. *)
Definition handleEvent (c : kube.Controller) (item : Event * kubeObject) : kube.Controller :=
  match fst item with
  | EventDelete => handleDeltaDelete (snd item) c
  | EventAdd | EventUpdate => handleDeltaUpsert (snd item) c
  end.

(** Every cached object sits under its own UID. *)
Definition keyedByUID (c : kube.Controller) : Prop :=
  (forall k v, kube.replicaSets c !! k = Some v -> UID (rs_Meta v) = k)
  /\ (forall k v, kube.deployments c !! k = Some v -> UID (dep_Meta v) = k)
  /\ (forall k v, kube.jobs c !! k = Some v -> UID (job_Meta v) = k).

(** The scale [s] holds the decimals of the node: its allocatable amounts
    and the requests of its pods. *)
Definition withinScale (s : Z) (n : node) : Prop :=
  Dec.scale (allocatableCPU n) <= s
  /\ Dec.scale (allocatableMem n) <= s
  /\ map_Forall (fun _ p => Dec.scale (requestCPU p) <= s
                            /\ Dec.scale (requestMemory p) <= s) (pods n).

(** The node has at least [requiredMemory] and [requiredCPU] left, in whole
    units of [10^(-s)]: allocatable minus the requests of its pods. *)
Definition hasRoom (s : Z) (requiredMemory requiredCPU : Dec.t) (n : node) : Prop :=
  Dec.rescale requiredMemory s <= Dec.rescale (allocatableMem n) s - requestedMemory s n
  /\ Dec.rescale requiredCPU s <= Dec.rescale (allocatableCPU n) s - requestedCPU s n.

(** ** Static pods ([kubelinter/subscriber.go]) *)

(** The slice [s[n:]], for [n] up to the length of [s]. *)
Fixpoint sliceFrom (n : nat) (s : string) : string :=
  match n, s with
  | O, _ => s
  | S k, String _ s' => sliceFrom k s'
  | S _, EmptyString => EmptyString
  end.

(** [strings.HasSuffix(s, suffix)]:
    [len(s) >= len(suffix) && s[len(s)-len(suffix):] == suffix]. *)
Definition strings_HasSuffix (s suffix : string) : bool :=
  Nat.leb (String.length suffix) (String.length s)
  && String.eqb (sliceFrom (String.length s - String.length suffix) s) suffix.

Definition isStaticPod (pod : Pod) : bool :=
  if String.eqb (NodeName (Spec pod)) "" then false
  else strings_HasSuffix (Name (pod_Meta pod)) (NodeName (Spec pod)).

(** ** Delivery of events to a subscriber ([eventsHandler]) *)

(** The case the [select] of the subscriber's goroutine takes in one round
    of its loop: an event from [sub.events], a tick of
    [podsBuffSyncTicker], or the end of the context. *)
Inductive selected : Type :=
| selEvent (ev : Event * Object)
| selTick
| selDone.

(** [ev.obj.GetObjectKind().GroupVersionKind().Kind == "Pod"]; the kind
    is the one [addObjectMeta] writes for the type of the object. *)
Definition isPodEvent (ev : Event * Object) : bool :=
  match snd ev with
  | ObjPod _ => true
  | _ => false
  end.

(** The goroutine's buffer, and the events it has handed to
    [sub.handleEvent] so far, in that order. *)
Record subscription := mkSubscription {
  podsEventsBuff : list (Event * Object);
  handled : list (Event * Object)
}.

(** The loop of the goroutine over the rounds of its [select]. *)
Fixpoint deliver (rounds : list selected) (st : subscription) : subscription :=
  match rounds with
  | [] => st
  | selEvent ev :: rest =>
      if isPodEvent ev
      then deliver rest (mkSubscription (podsEventsBuff st ++ [ev]) (handled st))
      else deliver rest (mkSubscription (podsEventsBuff st) (handled st ++ [ev]))
  | selTick :: rest =>
      deliver rest (mkSubscription [] (handled st ++ podsEventsBuff st))
  | selDone :: _ => st
  end.

(** The events the goroutine has taken from [sub.events] before it
    returns. *)
Fixpoint received (rounds : list selected) : list (Event * Object) :=
  match rounds with
  | [] => []
  | selEvent ev :: rest => ev :: received rest
  | selTick :: rest => received rest
  | selDone :: _ => []
  end.

(** ** Images that stay tracked *)

(** The key [k] is tracked before each of the events [items] and after the
    last of them. *)
Fixpoint trackedThroughout (ObjectKey : Object -> string) (items : list (Event * Object))
    (d : deltaState) (k : string) : bool :=
  match images d !! k with
  | None => false
  | Some _ =>
      match items with
      | [] => true
      | item :: rest => trackedThroughout ObjectKey rest (handleDelta ObjectKey d item) k
      end
  end.
(** ** Sample inputs *)

Module Samples.

(** A key function for [upsert] and [delete]: namespace and name. *)
Definition objectKey (o : Object) : string :=
  match o with
  | ObjPod v => Namespace (pod_Meta v) +:+ "/" +:+ Name (pod_Meta v)
  | ObjNode v => Namespace (node_Meta v) +:+ "/" +:+ Name (node_Meta v)
  | ObjJob v => Namespace (job_Meta v) +:+ "/" +:+ Name (job_Meta v)
  | ObjReplicaSet v => Namespace (rs_Meta v) +:+ "/" +:+ Name (rs_Meta v)
  | ObjOther m => Namespace m +:+ "/" +:+ Name m
  end.

(** Node [a]: 4 CPUs allocatable, no pod. *)
Definition nodeA : node :=
  mkNodeState "a" "amd64" "linux" (Dec.of_Z 8) (Dec.of_Z 4) ∅.

(** Node [b]: 10 CPUs allocatable, one pod requesting 9 of them. *)
Definition nodeB : node :=
  mkNodeState "b" "amd64" "linux" (Dec.of_Z 8) (Dec.of_Z 10)
    {[ "p1" := mkPodUsage "p1" (Dec.of_Z 9) (Dec.of_Z 0) ]}.

(** Node [a] alone, 4 CPUs allocatable, with a pod requesting 1 CPU. *)
Definition oneNode : deltaState :=
  mkDeltaState [] ∅ ∅ ∅
    {[ "a" := mkNodeState "a" "amd64" "linux" (Dec.of_Z 8) (Dec.of_Z 4)
                {[ "p0" := mkPodUsage "p0" (Dec.of_Z 1) (Dec.of_Z 0) ]} ]}
    false.

Definition clusterAB : deltaState :=
  mkDeltaState [] ∅ ∅ ∅ (<["a" := nodeA]> (<["b" := nodeB]> ∅)) false.

(** A delta state tracking one image, not yet scanned, owned by [dep-1]
    through the pod [pod-1] on node [a]. *)
Definition imageX : image :=
  set_nodes {[ "a" := mkImageNode {[ "pod-1" ]} ]}
    (set_owners {[ "dep-1" := mkImageOwner {[ "pod-1" ]} ]}
       (set_name "nginx:1.25" (newImage "sha256:x" "amd64"))).

Definition trackingX : deltaState :=
  mkDeltaState [] {[ cacheKey imageX := imageX ]} ∅ ∅ {[ "a" := nodeA ]} false.

(** Five tracked images with failure counts 0, 0, 1, 2, 0, each owned. *)
Definition failedTimes (imageID : string) (n : Z) : image :=
  set_failures n
    (set_owners {[ "dep-1" := mkImageOwner {[ "pod-1" ]} ]}
       (set_name imageID (newImage imageID "amd64"))).

Definition fiveImages : gmap string image :=
  <[ "i1amd64" := failedTimes "i1" 0 ]>
    (<[ "i2amd64" := failedTimes "i2" 0 ]>
       (<[ "i3amd64" := failedTimes "i3" 1 ]>
          (<[ "i4amd64" := failedTimes "i4" 2 ]>
             (<[ "i5amd64" := failedTimes "i5" 0 ]> ∅)))).

(** A controller over the two-node cluster, budget 3, host-filesystem mode. *)
Definition controllerAB : Controller :=
  mkController
    (mkDeltaState [] fiveImages ∅ ∅ (<["a" := nodeA]> (<["b" := nodeB]> ∅)) false)
    (mkImageScan ModeHostFS (Dec.of_Z 1) (Dec.of_Z 1) 3)
    false.

(** The image [imageX] after a scan that failed on a missing layer. *)
Definition imageXLayerNotFound : image :=
  set_lastScanErr (Some errImageScanLayerNotFound) imageX.

(** A stand-in for [filterCastAIManagedNodes]: every node is managed. *)
Definition allManaged (d : deltaState) (names : list string) : list string := names.

(** Two tracked images last reported at time 10: the owners of [imageX]
    changed at time 50, those of [imageY] did not change since. *)
Definition imageXChanged : image :=
  set_resourcesUpdatedAt 10 (set_ownerChangedAt 50 imageX).

Definition imageY : image :=
  set_resourcesUpdatedAt 10
    (set_owners {[ "dep-2" := mkImageOwner {[ "pod-2" ]} ]}
       (set_name "redis:7" (newImage "sha256:y" "amd64"))).

Definition trackingXY : deltaState :=
  mkDeltaState []
    (<[ cacheKey imageXChanged := imageXChanged ]> {[ cacheKey imageY := imageY ]})
    ∅ ∅ {[ "a" := nodeA ]} false.

Definition scanConfig : ImageScan := mkImageScan ModeRemote (Dec.of_Z 1) (Dec.of_Z 1) 3.

(** A client whose [UpdateImageStatus] succeeds. *)
Definition clientOk (report : UpdateImagesStatusRequest) : option error := None.

(** A pod of the ReplicaSet [rs-1], labelled [app=web]; the ReplicaSet is
    cached and has no owner reference; the cached Deployment [dep-1] selects
    [app=web]. *)
Definition podOfRS : Pod :=
  mkPod
    (mkObjectMeta "pod-1" "web-abc" "default" {[ "app" := "web" ]}
       [mkOwnerReference "ReplicaSet" "rs-1"])
    (mkPodSpec "a" [] [])
    (mkPodStatus PodRunning [] []).

Definition bareRS : ReplicaSet :=
  mkReplicaSet (mkObjectMeta "rs-1" "web" "default" ∅ []).

Definition webDeployment : Deployment :=
  mkDeployment (mkObjectMeta "dep-1" "web" "default" ∅ [])
    (Some (mkLabelSelector {[ "app" := "web" ]} [])).

Definition kubeCache : kube.Controller :=
  kube.mkController {[ "rs-1" := bareRS ]} {[ "dep-1" := webDeployment ]} ∅.

(** The same pod when neither its ReplicaSet nor any Deployment is cached. *)
Definition emptyKubeCache : kube.Controller := kube.mkController ∅ ∅ ∅.

(** The node object of [a], and a running pod on it with one container. *)
Definition nodeObjA : Node :=
  mkNode (mkObjectMeta "node-a" "a" "" ∅ []) "amd64" "linux" (Dec.of_Z 8) (Dec.of_Z 4).

Definition runningPod : Pod :=
  mkPod
    (mkObjectMeta "pod-1" "web-abc" "default" {[ "app" := "web" ]} [])
    (mkPodSpec "a" [mkContainer "web" "nginx:1.25" (Dec.of_Z 1) (Dec.of_Z 1)] [])
    (mkPodStatus PodRunning
       [mkContainerStatus "web" "sha256:x" "containerd://c1"] []).

(** A scanned image the remote side reports without any resource ID. *)
Definition unownedSeed : list ScannedImage := [mkScannedImage "sha256:z" "amd64" []].

(** A telemetry response asking for a full resync with one scanned image. *)
Definition resyncResponse : TelemetryResponse :=
  mkTelemetryResponse true [mkScannedImage "sha256:x" "amd64" ["dep-1"]].

(** A pending pod on node [a] with two containers asking for 0.5 and 1.5
    CPUs (and 1 unit of memory each), and an init container that asks for
    7 CPUs. *)
Definition halfCPU : Dec.t := Dec.mk 5 1.

Definition pendingPod : Pod :=
  mkPod
    (mkObjectMeta "pod-9" "batch-xyz" "default" ∅ [])
    (mkPodSpec "a"
       [mkContainer "c1" "busybox" halfCPU (Dec.of_Z 1);
        mkContainer "c2" "busybox" (Dec.mk 15 1) (Dec.of_Z 1)]
       [mkContainer "init" "busybox" (Dec.of_Z 7) (Dec.of_Z 0)])
    (mkPodStatus PodPending [] []).

(** The object of node [a] as the cluster reports it, on arm64. *)
Definition nodeObjArm : Node :=
  mkNode (mkObjectMeta "node-a" "a" "" ∅ []) "arm64" "linux" (Dec.of_Z 8) (Dec.of_Z 4).

(** The image [imageX] as the controller would place it on the two-node
    cluster, where it runs on node [a]. *)
Definition placingX : Controller :=
  mkController
    (mkDeltaState [] {[ cacheKey imageX := imageX ]} ∅ ∅
       (<["a" := nodeA]> (<["b" := nodeB]> ∅)) false)
    (mkImageScan ModeHostFS (Dec.of_Z 1) (Dec.of_Z 1) 3)
    false.

(** An image that runs nowhere. *)
Definition imageNowhere : image :=
  set_owners {[ "dep-1" := mkImageOwner {[ "pod-1" ]} ]} (newImage "sha256:n" "amd64").


(** A pod of the Job [job-1], which the CronJob [cron-1] started; the Job
    is cached. *)
Definition nightlyJob : Job :=
  mkJob (mkObjectMeta "job-1" "nightly-123" "default" ∅
           [mkOwnerReference "CronJob" "cron-1"]).

Definition podOfJob : Pod :=
  mkPod
    (mkObjectMeta "pod-7" "nightly-123-abc" "default" ∅ [mkOwnerReference "Job" "job-1"])
    (mkPodSpec "a" [] [])
    (mkPodStatus PodRunning [] []).

Definition jobCache : kube.Controller :=
  kube.mkController ∅ ∅ {[ "job-1" := nightlyJob ]}.

(** The static pod of the API server on the node [cp-1], as the kubelet
    names it. *)
Definition staticPod : Pod :=
  mkPod
    (mkObjectMeta "pod-s" "kube-apiserver-cp-1" "kube-system" ∅ [])
    (mkPodSpec "cp-1" [] [])
    (mkPodStatus PodRunning [] []).

(** The image [imageX] once scanned, tracked on node [a]. *)
Definition scannedX : image := set_scanned true imageX.

Definition trackingScannedX : deltaState :=
  mkDeltaState [] {[ cacheKey imageX := scannedX ]} ∅ ∅ {[ "a" := nodeA ]} false.

(** Two tracked images last reported at time 10, before the owners of
    [imageX] changed at time 50; nothing was sent in full yet. *)
Definition reportingXY : Controller := mkController trackingXY scanConfig false.
End Samples.

(** * Properties *)

(** ** Sorting *)

Section InsertionSort.
Context {A : Type} (less : A -> A -> bool).

Lemma sift_perm x rp : sift less x rp ≡ₚ x :: rp.
Proof.
  induction rp as [|y r IH]; simpl; [done|].
  destruct (less x y); [|done].
  rewrite IH. apply Permutation_swap.
Qed.

Lemma fold_sift_perm l acc :
  fold_left (fun rp x => sift less x rp) l acc ≡ₚ l ++ acc.
Proof.
  revert acc. induction l as [|x l IH]; intros acc; simpl; [done|].
  rewrite IH, sift_perm. by rewrite Permutation_middle.
Qed.

Lemma rev_is_reverse (l : list A) : rev l = reverse l.
Proof. unfold reverse. by rewrite rev_alt. Qed.

Lemma insertionSort_perm l : insertionSort A less l ≡ₚ l.
Proof.
  unfold insertionSort. rewrite rev_is_reverse, reverse_Permutation, fold_sift_perm.
  by rewrite app_nil_r.
Qed.

Hypothesis Hswo : StrictWeakOrder less.

Lemma swo_asym a b : less a b = true -> less b a = false.
Proof.
  intros Hab. destruct (less b a) eqn:Hba; [|done].
  pose proof (swo_trans less Hswo _ _ _ Hab Hba) as Haa.
  by rewrite (swo_irrefl less Hswo) in Haa.
Qed.

Lemma sift_descending x rp : descending less rp -> descending less (sift less x rp).
Proof.
  unfold descending. induction rp as [|y r IH]; intros Hs; simpl.
  - by repeat constructor.
  - apply StronglySorted_inv in Hs as [Hr Hy].
    destruct (less x y) eqn:Hxy.
    + constructor; [by apply IH|].
      rewrite sift_perm. constructor; [by apply swo_asym|done].
    + constructor; [by constructor|].
      constructor; [done|].
      eapply Forall_impl; [exact Hy|]. intros z Hyz. simpl in Hyz.
      by apply (swo_negtrans less Hswo x y z).
Qed.

Lemma fold_sift_descending l acc :
  descending less acc ->
  descending less (fold_left (fun rp x => sift less x rp) l acc).
Proof.
  revert acc. induction l as [|x l IH]; intros acc Hacc; simpl; [done|].
  by apply IH, sift_descending.
Qed.

Lemma descending_rev rp :
  descending less rp -> StronglySorted (fun a b => less b a = false) (rev rp).
Proof.
  unfold descending. induction rp as [|y r IH]; intros Hs; simpl; [constructor|].
  apply StronglySorted_inv in Hs as [Hr Hy].
  apply StronglySorted_app_2; [|by apply IH|by repeat constructor].
  intros a b Ha Hb. apply list_elem_of_singleton in Hb as ->.
  rewrite rev_is_reverse, elem_of_reverse in Ha.
  by eapply Forall_forall in Hy.
Qed.

Lemma insertionSort_sorted l :
  StronglySorted (fun a b => less b a = false) (insertionSort A less l).
Proof.
  unfold insertionSort. apply descending_rev, fold_sift_descending. constructor.
Qed.

End InsertionSort.

(** Go's insertion sort meets the contract of [sort.Slice]. *)
Lemma insertionSort_spec : SliceSorterSpec insertionSort.
Proof.
  split.
  - intros A less l. apply insertionSort_perm.
  - intros A less l Hswo. by apply insertionSort_sorted.
Qed.

(** ** Node fit ([findBestNode]) *)

Lemma findCandidates_elem_of d nodeNames requiredMemory requiredCPU n :
  n ∈ findCandidates d nodeNames requiredMemory requiredCPU <->
  exists nodeName, nodeName ∈ nodeNames /\ d_nodes d !! nodeName = Some n
                   /\ fits requiredMemory requiredCPU n = true.
Proof.
  induction nodeNames as [|nm rest IH]; simpl.
  - split; [by intros ?%elem_of_nil|]. intros (? & ?%elem_of_nil & _). done.
  - assert ((exists nodeName, nodeName ∈ nm :: rest /\ d_nodes d !! nodeName = Some n
                              /\ fits requiredMemory requiredCPU n = true)
            <-> (d_nodes d !! nm = Some n /\ fits requiredMemory requiredCPU n = true)
                \/ n ∈ findCandidates d rest requiredMemory requiredCPU) as ->.
    { rewrite IH. split.
      - intros (nm' & [->|Hin]%elem_of_cons & Hl & Hf); [by left|].
        right. by exists nm'.
      - intros [[Hl Hf]|(nm' & Hin & Hl & Hf)].
        + exists nm. split; [left|done].
        + exists nm'. split; [by right|done]. }
    destruct (d_nodes d !! nm) as [n'|] eqn:Hn'.
    + destruct (fits requiredMemory requiredCPU n') eqn:Hfit.
      * rewrite elem_of_cons. split.
        -- intros [->|Hin]; [by left|by right].
        -- intros [[[= ->] _]|Hin]; [by left|by right].
      * split; [by right|]. intros [[[= ->] Hf]|Hin]; [congruence|done].
    + split; [by right|]. by intros [[? _]|Hin].
Qed.

Section NodeFit.
Context (sortSlice : SliceSorter) (Hspec : SliceSorterSpec sortSlice).
Context (d : deltaState) (nodeNames : list string) (requiredMemory requiredCPU : Dec.t).

(** Whatever [findBestNode] returns is the name of a tracked node among the
    listed ones that meets both floors. *)
Lemma findBestNode_Ok_fits nm :
  findBestNode sortSlice d nodeNames requiredMemory requiredCPU = Ok nm ->
  exists nodeName n,
    nodeName ∈ nodeNames /\ d_nodes d !! nodeName = Some n /\ node_name n = nm
    /\ 0 <= Dec.Cmp (availableMemory n) requiredMemory
    /\ 0 <= Dec.Cmp (availableCPU n) requiredCPU.
Proof.
  unfold findBestNode.
  destruct (Nat.eqb (size (d_nodes d)) 0); [done|].
  destruct (Nat.eqb (length _) 0); [done|].
  destruct (sortSlice node bestNodeLess _) as [|n sorted] eqn:Hsort; [done|].
  intros [= <-].
  assert (n ∈ findCandidates d nodeNames requiredMemory requiredCPU) as Hin.
  { rewrite <- (sort_perm _ Hspec node bestNodeLess), Hsort. left. }
  apply findCandidates_elem_of in Hin as (nodeName & ? & ? & Hfit).
  exists nodeName, n. unfold fits in Hfit.
  apply andb_true_iff in Hfit as [?%Z.leb_le ?%Z.leb_le]. done.
Qed.

(** The no-candidates error is returned exactly when no node is tracked or
    no listed node meets both floors; no other error is. *)
Lemma findBestNode_Err_iff e :
  findBestNode sortSlice d nodeNames requiredMemory requiredCPU = Err e <->
  e = errNoCandidates /\
  (d_nodes d = ∅ \/
   forall nodeName n, nodeName ∈ nodeNames -> d_nodes d !! nodeName = Some n ->
                      fits requiredMemory requiredCPU n = false).
Proof.
  unfold findBestNode.
  destruct (Nat.eqb (size (d_nodes d)) 0) eqn:Hsize.
  { apply Nat.eqb_eq, map_size_empty_iff in Hsize. split; [intros [= <-]|intros [-> _]]; auto. }
  apply Nat.eqb_neq in Hsize. rewrite map_size_empty_iff in Hsize.
  set (candidates := findCandidates d nodeNames requiredMemory requiredCPU).
  assert (forall n, n ∈ candidates <-> _) as Hcand
    by (intros n; apply findCandidates_elem_of).
  destruct candidates as [|c cs] eqn:Hc; simpl.
  - split; [intros [= <-]; split; [done|right]|by intros [-> _]].
    intros nodeName n Hin Hl.
    destruct (fits requiredMemory requiredCPU n) eqn:Hfit; [|done].
    exfalso. eapply elem_of_nil, Hcand. eauto.
  - destruct (sortSlice node bestNodeLess (c :: cs)) as [|n sorted] eqn:Hsort.
    { pose proof (sort_perm _ Hspec node bestNodeLess (c :: cs)) as Hp.
      rewrite Hsort in Hp. by apply Permutation_nil_cons in Hp. }
    split; [done|]. intros [_ [?|Hnone]]; [done|].
    exfalso. destruct (proj1 (Hcand c)) as (nodeName & ? & ? & Hfit); [left|].
    rewrite (Hnone nodeName c) in Hfit; done.
Qed.

End NodeFit.

(** One node with 4 CPUs allocatable and a pod requesting 1: a scan asking
    for 2 CPUs is placed there, one asking for 5 has no candidate. *)
Example findBestNode_single_node :
  findBestNode insertionSort Samples.oneNode ["a"] (Dec.of_Z 1) (Dec.of_Z 2) = Ok "a"
  /\ findBestNode insertionSort Samples.oneNode ["a"] (Dec.of_Z 1) (Dec.of_Z 5)
     = Err errNoCandidates.
Proof. split; vm_compute; reflexivity. Qed.

(** C1. On the cluster of nodes [a] (4 CPUs free) and [b] (1 CPU free of 10
    allocatable), [findBestNode(["b", "a"], 1, 1)] sorts two candidates,
    which [sort.Slice] does by insertion; both nodes meet the floors, and
    the call returns [b] although [a] has more CPU available: the [less]
    function compares the available CPU of one node with the allocatable
    CPU of the other. *)
Theorem findBestNode_returns_less_cpu :
  findCandidates Samples.clusterAB ["b"; "a"] (Dec.of_Z 1) (Dec.of_Z 1)
    = [Samples.nodeB; Samples.nodeA]
  /\ findBestNode insertionSort Samples.clusterAB ["b"; "a"] (Dec.of_Z 1) (Dec.of_Z 1)
     = Ok "b"
  /\ Dec.Cmp (availableCPU Samples.nodeA) (availableCPU Samples.nodeB) = 1
  /\ availableCPU Samples.nodeB = Dec.of_Z 1
  /\ availableCPU Samples.nodeA = Dec.of_Z 4.
Proof. vm_compute. repeat split. Qed.

(** ** Pending images ([isImagePending]) *)

(** [errors.Is] with the private-image sentinel finds exactly the errors
    that are the sentinel or wrap it. *)
Lemma errors_Is_private (e : option error) :
  errors_Is e errPrivateImage = true <-> FailedAsPrivate e.
Proof.
  unfold FailedAsPrivate. destruct e as [e|]; cbn [errors_Is].
  - assert (errors_Is_chain e errPrivateImage = true <-> InChain errPrivateImage e) as ->.
    { induction e as [| | |msg|msg cause IH]; cbn [errors_Is_chain is_sentinel orb].
      - split; [done|]. inversion 1.
      - split; [constructor|done].
      - split; [done|]. inversion 1.
      - split; [done|]. inversion 1.
      - rewrite IH. split; [by constructor|]. by inversion 1. }
    split; [intros ?; by exists e|]. by intros (e' & [= <-] & ?).
  - split; [done|]. by intros (e' & ? & _).
Qed.

(** C3. An image is pending exactly when it is not scanned, has an owner,
    its last scan did not fail with the private-image error (bare or
    wrapped), and its next scan time is the zero instant or lies before
    [now]. [isImagePrivate] holds exactly for an image whose last scan
    failed with the private-image error, and such an image is pending at no
    time, whatever its owners and its next scan time. *)
Theorem isImagePending_iff (v : image) (now : time_Time) :
  (isImagePending v now = true <->
     scanned v = false
     /\ owners v <> ∅
     /\ ~ FailedAsPrivate (lastScanErr v)
     /\ (nextScan v = 0 \/ nextScan v < now))
  /\ (isImagePending v now = true <->
       scanned v = false
       /\ owners v <> ∅
       /\ errors_Is (lastScanErr v) errPrivateImage = false
       /\ (nextScan v = 0 \/ nextScan v < now))
  /\ (isImagePrivate v = true <-> FailedAsPrivate (lastScanErr v))
  /\ (isImagePrivate v = true -> forall now', isImagePending v now' = false)
  /\ (FailedAsPrivate (lastScanErr v) -> forall now', isImagePending v now' = false)
  /\ (lastScanErr v = Some errPrivateImage -> forall now', isImagePending v now' = false).
Proof.
  assert (isImagePending v now = true <->
            scanned v = false
            /\ owners v <> ∅
            /\ errors_Is (lastScanErr v) errPrivateImage = false
            /\ (nextScan v = 0 \/ nextScan v < now)) as Hiff.
  { unfold isImagePending, isImagePrivate, IsZero, Before.
    rewrite !andb_true_iff, orb_true_iff, !negb_true_iff, !Z.ltb_lt, Z.eqb_eq.
    assert (owners v <> ∅ <-> 0 < Z.of_nat (size (owners v))) as ->
      by (rewrite <- map_size_empty_iff; lia).
    tauto. }
  assert (isImagePrivate v = true -> forall now', isImagePending v now' = false) as Hnever.
  { unfold isImagePending. intros -> now'. cbn [negb]. by rewrite andb_false_r. }
  pose proof (errors_Is_private (lastScanErr v)) as Hprivate.
  split; [|split; [done|split; [done|split; [done|split]]]].
  - rewrite Hiff, <- Hprivate.
    destruct (errors_Is (lastScanErr v) errPrivateImage); intuition congruence.
  - intros Hfailed. by apply Hnever, Hprivate.
  - intros Hlast. apply Hnever, Hprivate. exists errPrivateImage. split; [done|constructor].
Qed.

(** The image [imageX], owned and never scanned, is pending; the same image
    after a scan that failed with the private-image error is not. *)
Lemma isImagePending_iff_witness :
  isImagePending Samples.imageX 5 = true
  /\ isImagePending (set_lastScanErr (Some errPrivateImage) Samples.imageX) 5 = false.
Proof.
  split.
  - apply (proj1 (isImagePending_iff Samples.imageX 5)).
    split; [reflexivity|]. split; [|split].
    + intros Hempty. apply (f_equal size) in Hempty. vm_compute in Hempty.
      discriminate Hempty.
    + intros (e & He & _). vm_compute in He. discriminate He.
    + left. reflexivity.
  - exact (proj2 (proj2 (proj2 (proj2 (proj2
             (isImagePending_iff
                (set_lastScanErr (Some errPrivateImage) Samples.imageX) 0)))))
             eq_refl 5).
Defined.

(** ** Substrings ([strings.Contains]) *)

Lemma append_cons c (a b : string) : String c a +:+ b = String c (a +:+ b).
Proof. reflexivity. Qed.

Lemma append_nil (b : string) : "" +:+ b = b.
Proof. reflexivity. Qed.

Lemma prefix_app (sub s : string) :
  String.prefix sub s = true <-> exists post, s = sub +:+ post.
Proof.
  revert s. induction sub as [|c sub IH]; intros s.
  - split; [by exists s|by destruct s].
  - destruct s as [|c' s]; simpl; [split; [done|by intros [? ?]]|].
    destruct (Ascii.ascii_dec c c') as [->|Hne].
    + rewrite IH. split; intros [post Hp]; exists post;
        rewrite append_cons in *; congruence.
    + split; [done|]. intros [post Hp]. rewrite append_cons in Hp. congruence.
Qed.

(** [strings_Contains s substr] holds exactly when [s] is [substr] with
    something before and something after. *)
Lemma strings_Contains_spec (s substr : string) :
  strings_Contains s substr = true <-> exists pre post, s = pre +:+ substr +:+ post.
Proof.
  induction s as [|c s IH]; cbn [strings_Contains].
  - rewrite orb_false_r, prefix_app. split.
    + intros [post Hp]. by exists "", post.
    + intros (pre & post & Hp). destruct pre; [by exists post|].
      by rewrite append_cons in Hp.
  - rewrite orb_true_iff, prefix_app, IH. split.
    + intros [[post Hp]|(pre & post & Hp)].
      * by exists "", post.
      * exists (String c pre), post. by rewrite append_cons, Hp.
    + intros (pre & post & Hp). destruct pre as [|c' pre].
      * left. by exists post.
      * right. exists pre, post. rewrite append_cons in Hp. congruence.
Qed.

(** ** Scan failures ([setImageScanError]) *)

Lemma is_layer_message msg :
  isLayerNotFoundMessage msg = true <-> LayerNotFoundMessage msg.
Proof.
  unfold isLayerNotFoundMessage, LayerNotFoundMessage, Substring.
  by rewrite orb_true_iff, !strings_Contains_spec.
Qed.

Lemma is_private_message msg :
  isPrivateImageMessage msg = true <-> RegistryAuthMessage msg.
Proof.
  unfold isPrivateImageMessage, RegistryAuthMessage, Substring.
  rewrite !orb_true_iff, !strings_Contains_spec. tauto.
Qed.

(** The image [setImageScanError] leaves under the key of a tracked image,
    field by field. *)
Lemma setImageScanError_lookup d i err now img :
  images d !! cacheKey i = Some img ->
  exists img',
    images (setImageScanError i err now d) !! cacheKey i = Some img'
    /\ failures img' = wrap64 (failures img + 1)
    /\ nextScan img' = now + (Step (retryBackoff img)).1
    /\ retryBackoff img' = (Step (retryBackoff img)).2
    /\ lastScanErr img' =
         Some (if isLayerNotFoundMessage (Error err) then errImageScanLayerNotFound
               else if isPrivateImageMessage (Error err) then errPrivateImage
               else err)
    /\ hostFSDisabled (setImageScanError i err now d) =
         (isLayerNotFoundMessage (Error err) || hostFSDisabled d)
    /\ id img' = id img /\ architecture img' = architecture img
    /\ owners img' = owners img /\ nodes img' = nodes img
    /\ scanned img' = scanned img.
Proof.
  intros Himg. unfold setImageScanError. rewrite Himg.
  destruct (isLayerNotFoundMessage (Error err)) eqn:Hlayer;
    [|destruct (isPrivateImageMessage (Error err)) eqn:Hpriv];
    simpl; destruct (Step (retryBackoff img)) as [delay b] eqn:Hstep; simpl;
    rewrite lookup_insert_eq; eexists; (split; [reflexivity|]);
    simpl; unfold TimeAdd; repeat split; done.
Qed.

(** C4. For a tracked image, [setImageScanError] adds one to the failure
    counter, sets [nextScan] to the time of the call plus the step of the
    retry backoff (which it advances), and stores: the layer-not-found
    error, switching host-filesystem scans off, when the message names a
    missing file or layer; else the private-image error when the message
    carries a registry-auth code; else the error as it came. *)
Theorem setImageScanError_classifies d i err now img :
  images d !! cacheKey i = Some img ->
  exists img',
    images (setImageScanError i err now d) !! cacheKey i = Some img'
    /\ failures img' = wrap64 (failures img + 1)
    /\ (0 <= failures img < 2 ^ 63 - 1 -> failures img' = failures img + 1)
    /\ nextScan img' = now + (Step (retryBackoff img)).1
    /\ retryBackoff img' = (Step (retryBackoff img)).2
    /\ (LayerNotFoundMessage (Error err) ->
        lastScanErr img' = Some errImageScanLayerNotFound
        /\ hostFSDisabled (setImageScanError i err now d) = true)
    /\ (~ LayerNotFoundMessage (Error err) -> RegistryAuthMessage (Error err) ->
        lastScanErr img' = Some errPrivateImage
        /\ hostFSDisabled (setImageScanError i err now d) = hostFSDisabled d)
    /\ (~ LayerNotFoundMessage (Error err) -> ~ RegistryAuthMessage (Error err) ->
        lastScanErr img' = Some err
        /\ hostFSDisabled (setImageScanError i err now d) = hostFSDisabled d).
Proof.
  intros Himg.
  destruct (setImageScanError_lookup d i err now img Himg)
    as (img' & Hl & Hf & Hn & Hb & He & Hh & _).
  exists img'. rewrite He, Hh.
  pose proof (is_layer_message (Error err)) as Hlayer.
  pose proof (is_private_message (Error err)) as Hpriv.
  split; [done|]. split; [done|]. split; [|split; [done|split; [done|]]].
  - intros Hrange. rewrite Hf. unfold wrap64. rewrite Z.mod_small; lia.
  - destruct (isLayerNotFoundMessage (Error err)).
    + split; [done|]. split; intros Hno; exfalso; by apply Hno, Hlayer.
    + split; [intros Hyes%Hlayer; done|].
      destruct (isPrivateImageMessage (Error err)).
      * split; [done|]. intros _ Hno. exfalso. by apply Hno, Hpriv.
      * split; [intros _ Hyes%Hpriv; done|done].
Qed.

Lemma setImageScanError_classifies_witness :
  hostFSDisabled
    (setImageScanError Samples.imageX
       (errorNew "open /var/lib/docker/x: no such file or directory") 100
       Samples.trackingX) = true.
Proof.
  destruct (setImageScanError_classifies Samples.trackingX Samples.imageX
              (errorNew "open /var/lib/docker/x: no such file or directory") 100
              Samples.imageX) as (img' & _ & _ & _ & _ & _ & Hlayer & _).
  - vm_compute. reflexivity.
  - apply Hlayer. left. exists "open /var/lib/docker/x: ", "". reflexivity.
Defined.

(** ** Retry backoff *)

Lemma Step_backoffAfter m :
  0 <= m < 8 -> Step (backoffAfter m) = (60 * second * 3 ^ m, backoffAfter (m + 1)).
Proof.
  intros Hm. unfold Step, backoffAfter. simpl.
  destruct (8 - m <? 1) eqn:Hlt; [apply Z.ltb_lt in Hlt; lia|].
  f_equal. f_equal; [|lia].
  rewrite Z.pow_add_r by lia. lia.
Qed.

Lemma Step_backoffAfter_8 :
  Step (backoffAfter 8) = (60 * second * 3 ^ 8, backoffAfter 8).
Proof. reflexivity. Qed.

(** The products [float64(Duration) * Factor] the backoff of [newImage]
    ever forms are whole numbers below 2^53, where float64 is exact. *)
Lemma backoffAfter_exact m :
  0 <= m <= 8 -> 0 < Duration (backoffAfter m) * 3 < 2 ^ 53.
Proof.
  intros Hm. unfold backoffAfter, second. simpl.
  assert (1 <= 3 ^ m <= 3 ^ 8) as Hpow.
  { split; [apply (Z.pow_le_mono_r 3 0 m); lia|apply Z.pow_le_mono_r; lia]. }
  change (3 ^ 8) with 6561 in Hpow. lia.
Qed.

Lemma scanErrorDelays_from i failed : forall d img m,
  0 <= m <= 8 ->
  images d !! cacheKey i = Some img ->
  retryBackoff img = backoffAfter m ->
  scanErrorDelays i failed d =
    List.map (fun k => 60 * second * 3 ^ Z.min (m + Z.of_nat k) 8)
      (seq 0 (length failed)).
Proof.
  induction failed as [|[err now] rest IH]; intros d img m Hm Himg Hb; [done|].
  destruct (setImageScanError_lookup d i err now img Himg)
    as (img' & Hl & _ & Hn & Hb' & _).
  cbn [scanErrorDelays length seq List.map]. rewrite Hl, Hn, Hb.
  rewrite Hb in Hb'.
  destruct (decide (m = 8)) as [->|Hne].
  - rewrite Step_backoffAfter_8 in *. simpl in Hb'.
    rewrite (IH _ img' 8) by (done || lia).
    f_equal; [rewrite Z.min_r by lia; cbn [fst]; lia|].
    rewrite <- seq_shift, List.map_map. apply List.map_ext. intros k.
    rewrite !Z.min_r by lia. done.
  - rewrite Step_backoffAfter in * by lia. simpl in Hb'.
    rewrite (IH _ img' (m + 1)) by (done || lia).
    f_equal; [change (Z.of_nat 0) with 0; rewrite Z.add_0_r, Z.min_l by lia; cbn [fst]; lia|].
    rewrite <- seq_shift, List.map_map. apply List.map_ext. intros k.
    do 3 f_equal. lia.
Qed.

Lemma pow3_mono a b : 0 <= a <= b -> 3 ^ a <= 3 ^ b.
Proof. intros H. apply Z.pow_le_mono_r; lia. Qed.

(** C5. For an image whose backoff is the one [newImage] sets (60 s,
    factor 3, 8 steps), the delays of successive calls of
    [setImageScanError] are 60 s times 3 to the number of earlier failures,
    up to 8: they never decrease, and from the ninth failure on every
    delay is the same 60 s * 3^8. *)
Theorem scanErrorDelays_backoff i failed d img :
  images d !! cacheKey i = Some img ->
  retryBackoff img = retryBackoff (newImage (id img) (architecture img)) ->
  let delays := scanErrorDelays i failed d in
  length delays = length failed
  /\ (forall k, (k < length failed)%nat ->
        delays !! k = Some (60 * second * 3 ^ Z.min (Z.of_nat k) 8))
  /\ (forall j k dj dk, (j <= k)%nat ->
        delays !! j = Some dj -> delays !! k = Some dk -> dj <= dk)
  /\ (forall k dk, (8 <= k)%nat -> delays !! k = Some dk -> dk = 60 * second * 3 ^ 8).
Proof.
  intros Himg Hb delays.
  assert (delays =
            List.map (fun k => 60 * second * 3 ^ Z.min (Z.of_nat k) 8)
              (seq 0 (length failed))) as Hd.
  { unfold delays. by rewrite (scanErrorDelays_from i failed d img 0). }
  assert (forall k dk, delays !! k = Some dk ->
            dk = 60 * second * 3 ^ Z.min (Z.of_nat k) 8) as Hat.
  { intros k dk. rewrite Hd. change (@List.map) with (@fmap list _).
    rewrite list_lookup_fmap.
    destruct (seq 0 (length failed) !! k) as [k'|] eqn:Hk; [|done].
    apply lookup_seq in Hk as [-> _]. simpl. congruence. }
  split; [|split; [|split]].
  - by rewrite Hd, length_map, length_seq.
  - intros k Hk. rewrite Hd. change (@List.map) with (@fmap list _).
    rewrite list_lookup_fmap, lookup_seq_lt by done. done.
  - intros j k dj dk Hjk Hj Hk. apply Hat in Hj as ->. apply Hat in Hk as ->.
    assert (3 ^ Z.min (Z.of_nat j) 8 <= 3 ^ Z.min (Z.of_nat k) 8)
      by (apply pow3_mono; lia).
    unfold second. lia.
  - intros k dk Hk Hl. apply Hat in Hl as ->. by rewrite Z.min_r by lia.
Qed.

Lemma scanErrorDelays_backoff_witness :
  scanErrorDelays Samples.imageX
    [(errorNew "timeout", 10); (errorNew "timeout", 20); (errorNew "timeout", 30)]
    Samples.trackingX !! 2%nat
  = Some (60 * second * 3 ^ 2).
Proof.
  refine (proj1 (proj2 (scanErrorDelays_backoff Samples.imageX
            [(errorNew "timeout", 10); (errorNew "timeout", 20); (errorNew "timeout", 30)]
            Samples.trackingX Samples.imageX _ _)) 2%nat _).
  - vm_compute. reflexivity.
  - reflexivity.
  - simpl. lia.
Defined.

(** ** Pending images and the concurrency budget *)

Lemma failuresLess_swo : StrictWeakOrder failuresLess.
Proof.
  unfold failuresLess. split.
  - intros a. apply Z.ltb_irrefl.
  - intros a b c ?%Z.ltb_lt ?%Z.ltb_lt. apply Z.ltb_lt. lia.
  - intros a b c ?%Z.ltb_ge ?%Z.ltb_ge. apply Z.ltb_ge. lia.
Qed.

Lemma filter_length_perm {A} (f : A -> bool) (l l' : list A) :
  l ≡ₚ l' -> length (List.filter f l) = length (List.filter f l').
Proof.
  induction 1 as [|x l l' _ IH|x y l|l l' l'' _ IH1 _ IH2]; simpl.
  - done.
  - destruct (f x); simpl; congruence.
  - destruct (f x), (f y); done.
  - congruence.
Qed.

(** In a list sorted by failure count whose counts are not negative, the
    images that never failed come first. *)
Lemma sorted_zero_prefix (l : list image) : forall n,
  StronglySorted (fun a b => failures a <= failures b) l ->
  Forall (fun v => 0 <= failures v) l ->
  (n <= length (List.filter neverFailed l))%nat ->
  Forall (fun v => failures v = 0) (take n l).
Proof.
  induction l as [|x l IH]; intros n Hs Hpos Hn; [by rewrite take_nil|].
  destruct n as [|n]; [constructor|].
  apply StronglySorted_inv in Hs as [Hs Hx].
  apply Forall_cons in Hpos as [Hx0 Hpos].
  simpl in Hn. unfold neverFailed at 1 in Hn. destruct (failures x =? 0) eqn:Hzero.
  - apply Z.eqb_eq in Hzero. simpl in Hn. simpl. constructor; [done|].
    apply IH; [done..|lia].
  - apply Z.eqb_neq in Hzero. exfalso.
    assert (List.filter neverFailed l = []) as Hnil.
    { clear -Hx Hx0 Hzero. induction l as [|y l IH]; [done|].
      apply Forall_cons in Hx as [Hy Hx]. simpl. unfold neverFailed at 1.
      destruct (failures y =? 0) eqn:Hy0; [apply Z.eqb_eq in Hy0; lia|by apply IH]. }
    rewrite Hnil in Hn. simpl in Hn. lia.
Qed.

(** In a list sorted by failure count, the images that failed at most [f]
    times come first. *)
Lemma sorted_threshold_prefix (f : Z) (l : list image) : forall n,
  StronglySorted (fun a b => failures a <= failures b) l ->
  (n <= length (List.filter (failedAtMost f) l))%nat ->
  Forall (fun v => failures v <= f) (take n l).
Proof.
  induction l as [|x l IH]; intros n Hs Hn; [by rewrite take_nil|].
  destruct n as [|n]; [constructor|].
  apply StronglySorted_inv in Hs as [Hs Hx].
  simpl in Hn. unfold failedAtMost at 1 in Hn.
  destruct (failures x <=? f) eqn:Hle.
  - apply Z.leb_le in Hle. simpl in Hn. simpl. constructor; [done|].
    apply IH; [done|lia].
  - apply Z.leb_gt in Hle. exfalso.
    assert (List.filter (failedAtMost f) l = []) as Hnil.
    { clear -Hx Hle. induction l as [|y l IH]; [done|].
      apply Forall_cons in Hx as [Hy Hx]. simpl. unfold failedAtMost at 1.
      destruct (failures y <=? f) eqn:Hyf; [apply Z.leb_le in Hyf; lia|by apply IH]. }
    rewrite Hnil in Hn. simpl in Hn. lia.
Qed.

Lemma findPendingImages_sorted sortSlice now s :
  SliceSorterSpec sortSlice ->
  StronglySorted (fun a b => failures a <= failures b)
    (findPendingImages sortSlice now s).
Proof.
  intros Hspec. unfold findPendingImages.
  pose proof (sort_sorted _ Hspec image failuresLess
                (List.filter (fun v => isImagePending v now) (getImages (delta s)))
                failuresLess_swo) as Hsorted.
  induction Hsorted as [|x l _ IH Hx]; constructor; [done|].
  eapply Forall_impl; [exact Hx|]. intros y Hy. simpl in Hy.
  unfold failuresLess in Hy. by apply Z.ltb_ge in Hy.
Qed.

(** C6. [findPendingImages] returns the pending images in ascending order
    of failure count; [scheduleScans] keeps the first [concurrentScans] of
    them, so when that many pending images failed at most [f] times, no
    image handed to [scanImages] failed more often; with the counters at
    0 or above and that many pending images without a failure, every image
    handed over has failure count 0; and [concurrentScans] is 1 on a single
    tracked node and the configured maximum otherwise. *)
Theorem imagesForScan_least_failures sortSlice now s :
  SliceSorterSpec sortSlice ->
  let pending := List.filter (fun v => isImagePending v now) (getImages (delta s)) in
  let sorted := findPendingImages sortSlice now s in
  sorted ≡ₚ pending
  /\ StronglySorted (fun a b => failures a <= failures b) sorted
  /\ (0 <= concurrentScansNumber s ->
      imagesForScan sortSlice now s
        = Some (take (Z.to_nat (concurrentScansNumber s)) sorted))
  /\ (forall selected f,
        imagesForScan sortSlice now s = Some selected ->
        concurrentScansNumber s
          <= Z.of_nat (length (List.filter (failedAtMost f) pending)) ->
        Forall (fun v => failures v <= f) selected)
  /\ (forall selected,
        imagesForScan sortSlice now s = Some selected ->
        Forall (fun v => 0 <= failures v) pending ->
        concurrentScansNumber s
          <= Z.of_nat (length (List.filter neverFailed pending)) ->
        Forall (fun v => failures v = 0) selected)
  /\ (size (d_nodes (delta s)) = 1%nat -> concurrentScansNumber s = 1)
  /\ (size (d_nodes (delta s)) <> 1%nat ->
      concurrentScansNumber s = MaxConcurrentScans (cfg s)).
Proof.
  intros Hspec pending sorted.
  assert (sorted ≡ₚ pending) as Hperm by apply (sort_perm _ Hspec).
  assert (StronglySorted (fun a b => failures a <= failures b) sorted) as Hsorted
    by by apply findPendingImages_sorted.
  assert (0 <= concurrentScansNumber s ->
          imagesForScan sortSlice now s
            = Some (take (Z.to_nat (concurrentScansNumber s)) sorted)) as Hcut.
  { intros Hpos. unfold imagesForScan. fold sorted.
    destruct (concurrentScansNumber s <? Z.of_nat (length sorted)) eqn:Hlt.
    - destruct (concurrentScansNumber s <? 0) eqn:Hneg; [apply Z.ltb_lt in Hneg; lia|done].
    - apply Z.ltb_ge in Hlt. rewrite take_ge by lia. done. }
  assert (forall selected, imagesForScan sortSlice now s = Some selected ->
            selected = take (Z.to_nat (concurrentScansNumber s)) sorted
            /\ 0 <= concurrentScansNumber s) as Hsome.
  { intros selected Hsel.
    destruct (decide (0 <= concurrentScansNumber s)) as [Hb|Hb].
    - rewrite Hcut in Hsel by done. by injection Hsel as <-.
    - unfold imagesForScan in Hsel. fold sorted in Hsel.
      destruct (concurrentScansNumber s <? Z.of_nat (length sorted)) eqn:Hlt;
        [|apply Z.ltb_ge in Hlt; lia].
      destruct (concurrentScansNumber s <? 0) eqn:Hneg; [done|].
      apply Z.ltb_ge in Hneg. lia. }
  split; [done|]. split; [done|]. split; [done|]. split; [|split; [|split]].
  - intros selected f Hsel Hcount. apply Hsome in Hsel as [-> Hb].
    apply sorted_threshold_prefix; [done|].
    rewrite (filter_length_perm _ _ _ Hperm). lia.
  - intros selected Hsel Hpos Hzero. apply Hsome in Hsel as [-> Hb].
    apply sorted_zero_prefix; [done| |].
    + by rewrite Hperm.
    + rewrite (filter_length_perm _ _ _ Hperm). lia.
  - intros Hone. unfold concurrentScansNumber, nodeCount. by rewrite Hone.
  - intros Hne. unfold concurrentScansNumber, nodeCount.
    destruct (Z.of_nat (size (d_nodes (delta s))) =? 1) eqn:Heq; [|done].
    apply Z.eqb_eq in Heq. lia.
Qed.

Lemma imagesForScan_least_failures_witness :
  exists selected,
    imagesForScan insertionSort 100 Samples.controllerAB = Some selected
    /\ length selected = 3%nat
    /\ Forall (fun v => failures v = 0) selected.
Proof.
  destruct (imagesForScan_least_failures insertionSort 100 Samples.controllerAB
              insertionSort_spec) as (_ & _ & Hcut & _ & Hzero & _).
  eexists. split; [apply Hcut; vm_compute; discriminate|].
  split; [vm_compute; reflexivity|].
  apply Hzero.
  - apply Hcut. vm_compute. discriminate.
  - vm_compute. repeat constructor; discriminate.
  - vm_compute. discriminate.
Defined.

(** ** Placement ([findBestNodeAndMode]) *)

Lemma filterWindowsNodes_tracked s names :
  Forall (fun nm => is_Some (d_nodes (delta s) !! nm)) names ->
  is_Some (filterWindowsNodes s names).
Proof.
  induction 1 as [|nm rest [n Hn] _ [filtered IH]]; simpl; [by eexists|].
  rewrite Hn, IH. destruct (negb _); by eexists.
Qed.

Lemma keys_tracked {V} (m : gmap string V) :
  Forall (fun nm => is_Some (m !! nm)) (map_to_list m).*1.
Proof.
  apply Forall_forall. intros nm Hin.
  apply list_elem_of_fmap in Hin as ([k v] & -> & Hkv).
  apply elem_of_map_to_list in Hkv. by eexists.
Qed.

Lemma filterWindowsNodes_delta s s' names :
  delta s = delta s' -> filterWindowsNodes s names = filterWindowsNodes s' names.
Proof.
  intros Hd. induction names as [|nm rest IH]; simpl; [done|].
  by rewrite Hd, IH.
Qed.

(** C7. For an image whose last scan error is the layer-not-found error,
    [findBestNodeAndMode] never panics, any placement it returns has the
    remote mode, and its result is the same under every configured mode. *)
Theorem findBestNodeAndMode_layer_not_found sortSlice filterCastAIManagedNodes s img :
  errors_Is (lastScanErr img) errImageScanLayerNotFound = true ->
  (exists r,
     findBestNodeAndMode sortSlice filterCastAIManagedNodes s img = Some r
     /\ forall resolvedNode mode, r = Ok (resolvedNode, mode) -> mode = ModeRemote)
  /\ (forall mode',
        findBestNodeAndMode sortSlice filterCastAIManagedNodes
          (mkController (delta s)
             (mkImageScan mode' (MemoryRequest (cfg s)) (CPURequest (cfg s))
                (MaxConcurrentScans (cfg s)))
             (fullSnapshotSent s)) img
        = findBestNodeAndMode sortSlice filterCastAIManagedNodes s img).
Proof.
  intros Herr. split.
  - unfold findBestNodeAndMode. rewrite Herr.
    change (String.eqb ModeRemote ModeHostFS) with false. cbn iota.
    destruct (filterWindowsNodes_tracked s _ (keys_tracked (d_nodes (delta s))))
      as [names ->].
    destruct (findBestNode sortSlice (delta s) names _ _) as [nm|err].
    + eexists. split; [done|]. by intros ? ? [= _ <-].
    + rewrite andb_false_r. eexists. split; [done|]. by intros ? ? [=].
  - intros mode'. unfold findBestNodeAndMode.
    cbn [cfg Mode delta MemoryRequest CPURequest]. rewrite Herr.
    change (String.eqb ModeRemote ModeHostFS) with false. cbn iota.
    by rewrite (filterWindowsNodes_delta _ s).
Qed.

Lemma findBestNodeAndMode_layer_not_found_witness :
  Mode (cfg Samples.controllerAB) = ModeHostFS
  /\ findBestNodeAndMode insertionSort Samples.allManaged Samples.controllerAB
       Samples.imageXLayerNotFound = Some (Ok ("a", ModeRemote)).
Proof.
  split; [reflexivity|].
  destruct (findBestNodeAndMode_layer_not_found insertionSort Samples.allManaged
              Samples.controllerAB Samples.imageXLayerNotFound eq_refl)
    as [(r & Hr & Hmode) _].
  rewrite Hr. vm_compute in Hr. injection Hr as <-. reflexivity.
Defined.

(** ** Status reporting ([updateImageStatuses]) *)

(** The three ways through [updateImageStatuses]: nothing to report, a
    failed send, a successful one. *)
Ltac updateImageStatuses_cases s UpdateImageStatus :=
  unfold updateImageStatuses;
  destruct (Nat.eqb (length (imagesToReport s)) 0); [done|];
  destruct (UpdateImageStatus _); simpl.

(** The report handed to the client carries the flag [fullSnapshotSent] as
    its [FullSnapshot] tag, and one entry per image of [imagesToReport]. *)
Lemma updateImageStatuses_report UpdateImageStatus now s report :
  su_report (updateImageStatuses UpdateImageStatus now s) = Some report ->
  FullSnapshot report = fullSnapshotSent s
  /\ Images report = List.map (fun item => imageChange now item.2) (imagesToReport s).
Proof. updateImageStatuses_cases s UpdateImageStatus; by intros [= <-]. Qed.

(** Without a successful send nothing changes. *)
Lemma updateImageStatuses_unsent UpdateImageStatus now s :
  su_err (updateImageStatuses UpdateImageStatus now s) <> None
  \/ su_report (updateImageStatuses UpdateImageStatus now s) = None ->
  su_controller (updateImageStatuses UpdateImageStatus now s) = s.
Proof. updateImageStatuses_cases s UpdateImageStatus; [done|]. by intros [?|?]. Qed.

(** After a successful send the flag is set. *)
Lemma updateImageStatuses_sent UpdateImageStatus now s report :
  su_report (updateImageStatuses UpdateImageStatus now s) = Some report ->
  su_err (updateImageStatuses UpdateImageStatus now s) = None ->
  fullSnapshotSent (su_controller (updateImageStatuses UpdateImageStatus now s)) = true.
Proof. updateImageStatuses_cases s UpdateImageStatus; done. Qed.

(** C8. With two tracked images and no full snapshot sent yet,
    [updateImageStatuses] reports both images, the complete list, in a
    report whose [FullSnapshot] tag is false; once the flag is set it
    reports only the image whose owners changed, in a report whose tag is
    true: the tag is the flag, not its negation. *)
Theorem updateImageStatuses_tag_inverted :
  let fresh := mkController Samples.trackingXY Samples.scanConfig false in
  let later := mkController Samples.trackingXY Samples.scanConfig true in
  (exists report,
     su_report (updateImageStatuses Samples.clientOk 100 fresh) = Some report
     /\ List.map ci_ID (Images report) = ["sha256:y"; "sha256:x"]
     /\ List.map ci_ID (Images report) = List.map id (getImages (delta fresh))
     /\ FullSnapshot report = false)
  /\ (exists report,
        su_report (updateImageStatuses Samples.clientOk 100 later) = Some report
        /\ List.map ci_ID (Images report) = ["sha256:x"]
        /\ FullSnapshot report = true).
Proof.
  split; eexists; (split; [vm_compute; reflexivity|]); repeat split.
Qed.

(** ** Owner resolution *)

Lemma values_elem_of {V} (m : gmap string V) (v : V) :
  v ∈ (map_to_list m).*2 <-> exists k, m !! k = Some v.
Proof.
  rewrite list_elem_of_fmap. split.
  - intros ([k v'] & -> & Hkv). exists k. by apply elem_of_map_to_list.
  - intros [k Hk]. exists (k, v). split; [done|]. by apply elem_of_map_to_list.
Qed.

Lemma findOwnerFromDeployments_cases c pod :
  let slow := kube.findOwnerFromDeployments (kube.deployments c) pod in
  (slow.2 = true /\ kube.hasMatchingDeployment c pod slow.1)
  \/ (slow.2 = false /\ forall o, ~ kube.hasMatchingDeployment c pod o).
Proof.
  unfold kube.findOwnerFromDeployments.
  destruct (List.find _ _) as [deployment|] eqn:Hfind; simpl.
  - left. split; [done|].
    apply List.find_some in Hfind as [Hin Hmatch].
    apply list_elem_of_In, values_elem_of in Hin as [k Hk].
    exists k, deployment. repeat split; [done|].
    by destruct (selector_Matches _ _) as [[]|].
  - right. split; [done|]. intros o (k & deployment & Hk & Hmatch & _).
    assert (deployment ∈ (map_to_list (kube.deployments c)).*2) as Hin
      by (apply values_elem_of; eauto).
    apply list_elem_of_In in Hin.
    pose proof (List.find_none _ _ Hfind _ Hin) as Hno. simpl in Hno.
    by rewrite Hmatch in Hno.
Qed.

(** [getPodOwnerID] of delta.go on a pod of a ReplicaSet: the UID of the
    first owner reference of a cached ReplicaSet with the referenced UID,
    else the referenced UID. *)
Lemma delta_owner_of_ReplicaSet_pod pod ref refs rsMap jobsMap :
  OwnerReferences (pod_Meta pod) = ref :: refs ->
  Kind ref = "ReplicaSet" ->
  ((forall k val, rsMap !! k = Some val -> UID (rs_Meta val) = ref_UID ref ->
                  OwnerReferences (rs_Meta val) = []) ->
   getPodOwnerID pod rsMap jobsMap = ref_UID ref)
  /\ (getPodOwnerID pod rsMap jobsMap = ref_UID ref
      \/ exists k val owner rest,
           rsMap !! k = Some val /\ UID (rs_Meta val) = ref_UID ref
           /\ OwnerReferences (rs_Meta val) = owner :: rest
           /\ getPodOwnerID pod rsMap jobsMap = ref_UID owner).
Proof.
  intros Hrefs Hkind. unfold getPodOwnerID. rewrite Hrefs, Hkind.
  change (String.eqb "ReplicaSet" "ReplicaSet") with true. cbn iota.
  destruct (List.find _ _) as [val|] eqn:Hfind; [|by split; [|left]].
  apply List.find_some in Hfind as [Hin Huid].
  apply list_elem_of_In, values_elem_of in Hin as [k Hk].
  apply String.eqb_eq in Huid.
  destruct (OwnerReferences (rs_Meta val)) as [|owner rest] eqn:Howner.
  - by split; [|left].
  - split.
    + intros Hnone. specialize (Hnone k val Hk Huid). congruence.
    + right. by exists k, val, owner, rest.
Qed.

(** C9 as amended. [GetPodOwnerID] resolves a pod without owner references
    to the pod's UID. For a pod whose first owner reference is a
    ReplicaSet: a cached ReplicaSet without owner references resolves to
    its own UID, with no look at the Deployments; a cached ReplicaSet with a
    Deployment among its owner references resolves to the first of them;
    otherwise (ReplicaSet not cached, or cached with owner references of
    other kinds only) a cached Deployment whose selector matches the labels
    of the pod is the owner, and when there is none the owner is the UID of
    the cached ReplicaSet, or of the pod when the ReplicaSet is not cached.
    [getPodOwnerID] of delta.go has no selector fallback: without a cached
    ReplicaSet that has an owner reference it returns the UID of the
    ReplicaSet. *)
Theorem GetPodOwnerID_resolution c pod :
  let owner := kube.GetPodOwnerID c pod in
  let isDeployment := fun r : OwnerReference => String.eqb (Kind r) "Deployment" in
  (OwnerReferences (pod_Meta pod) = [] -> owner = UID (pod_Meta pod))
  /\ (forall ref refs,
        OwnerReferences (pod_Meta pod) = ref :: refs ->
        Kind ref = "ReplicaSet" ->
        (forall rs, kube.replicaSets c !! ref_UID ref = Some rs ->
                    OwnerReferences (rs_Meta rs) = [] ->
                    owner = UID (rs_Meta rs))
        /\ (forall rs dep, kube.replicaSets c !! ref_UID ref = Some rs ->
                           List.find isDeployment (OwnerReferences (rs_Meta rs)) = Some dep ->
                           owner = ref_UID dep)
        /\ (kube.replicaSets c !! ref_UID ref = None
            \/ (exists rs, kube.replicaSets c !! ref_UID ref = Some rs
                           /\ OwnerReferences (rs_Meta rs) <> []
                           /\ List.find isDeployment (OwnerReferences (rs_Meta rs)) = None) ->
            kube.hasMatchingDeployment c pod owner
            \/ ((forall o, ~ kube.hasMatchingDeployment c pod o)
                /\ owner = match kube.replicaSets c !! ref_UID ref with
                           | Some rs => UID (rs_Meta rs)
                           | None => UID (pod_Meta pod)
                           end))
        /\ (forall rsMap jobsMap,
              (forall k val, rsMap !! k = Some val -> UID (rs_Meta val) = ref_UID ref ->
                             OwnerReferences (rs_Meta val) = []) ->
              getPodOwnerID pod rsMap jobsMap = ref_UID ref)).
Proof.
  intros owner isDeployment. split.
  - intros Hnil. unfold owner, kube.GetPodOwnerID. by rewrite Hnil.
  - intros ref refs Hrefs Hkind.
    assert (owner =
              let rs := kube.replicaSets c !! ref_UID ref in
              let fast := match rs with
                          | Some rs => kube.findNextOwnerID (rs_Meta rs) "Deployment"
                          | None => ("", false)
                          end in
              if fast.2 then fast.1
              else
                let slow := kube.findOwnerFromDeployments (kube.deployments c) pod in
                if slow.2 then slow.1
                else match rs with
                     | Some rs => UID (rs_Meta rs)
                     | None => UID (pod_Meta pod)
                     end) as Howner.
    { unfold owner, kube.GetPodOwnerID. rewrite Hrefs, Hkind. reflexivity. }
    cbv zeta in Howner. split; [|split; [|split]].
    + intros rs Hrs Hnone. rewrite Howner, Hrs.
      unfold kube.findNextOwnerID. by rewrite Hnone.
    + intros rs dep Hrs Hdep. rewrite Howner, Hrs.
      unfold kube.findNextOwnerID.
      destruct (OwnerReferences (rs_Meta rs)) as [|r rest] eqn:Hr; [done|].
      fold isDeployment. by rewrite Hdep.
    + intros Hslow.
      assert ((match kube.replicaSets c !! ref_UID ref with
               | Some rs => kube.findNextOwnerID (rs_Meta rs) "Deployment"
               | None => ("", false)
               end).2 = false) as Hfast.
      { destruct Hslow as [->|(rs & -> & Hne & Hfind)]; [done|].
        unfold kube.findNextOwnerID.
        destruct (OwnerReferences (rs_Meta rs)) as [|r rest] eqn:Hr; [done|].
        fold isDeployment. by rewrite Hfind. }
      rewrite Hfast in Howner.
      destruct (findOwnerFromDeployments_cases c pod) as [[Hs Hm]|[Hs Hno]];
        cbv zeta in Hs; rewrite Hs in Howner.
      * left. by rewrite Howner.
      * right. split; [done|]. by rewrite Howner.
    + intros rsMap jobsMap.
      apply (delta_owner_of_ReplicaSet_pod pod ref refs rsMap jobsMap Hrefs Hkind).
Qed.

Lemma GetPodOwnerID_resolution_witness :
  kube.GetPodOwnerID Samples.kubeCache Samples.podOfRS = "rs-1".
Proof.
  refine (proj1 (proj2 (GetPodOwnerID_resolution Samples.kubeCache Samples.podOfRS)
                   (mkOwnerReference "ReplicaSet" "rs-1") [] eq_refl eq_refl)
            Samples.bareRS _ eq_refl).
  vm_compute. reflexivity.
Defined.

(** C9 as stated fails: the pod [web-abc] belongs to the cached ReplicaSet
    [rs-1], which has no Deployment owner, and the cached Deployment [dep-1]
    selects the labels of the pod; the document names [dep-1], the code
    returns [rs-1]. *)
Lemma GetPodOwnerID_not_as_documented :
  kube.GetPodOwnerID Samples.kubeCache Samples.podOfRS = "rs-1"
  /\ kube.hasMatchingDeployment Samples.kubeCache Samples.podOfRS "dep-1"
  /\ ~ kube.OwnerAsDocumented Samples.kubeCache Samples.podOfRS
         (kube.GetPodOwnerID Samples.kubeCache Samples.podOfRS).
Proof.
  assert (kube.hasMatchingDeployment Samples.kubeCache Samples.podOfRS "dep-1") as Hdep.
  { exists "dep-1", Samples.webDeployment. repeat split; vm_compute; reflexivity. }
  split; [vm_compute; reflexivity|]. split; [done|].
  change (kube.GetPodOwnerID Samples.kubeCache Samples.podOfRS) with "rs-1".
  unfold kube.OwnerAsDocumented. cbn [Samples.podOfRS pod_Meta OwnerReferences].
  intros Hdoc.
  destruct (Hdoc eq_refl) as [Hfast|[[_ Hslow]|(_ & Hnone & _)]].
  - destruct Hfast as (rs & dep & Hrs & Hin & _).
    cbn [Samples.kubeCache kube.replicaSets ref_UID] in Hrs.
    apply lookup_singleton_Some in Hrs as [_ <-].
    by apply elem_of_nil in Hin.
  - destruct Hslow as (k & deployment & Hk & _ & Huid).
    cbn [Samples.kubeCache kube.deployments] in Hk.
    apply lookup_singleton_Some in Hk as [_ <-]. done.
  - by apply (Hnone "dep-1").
Qed.

(** A second divergence: when neither the ReplicaSet nor a matching
    Deployment is cached the code returns the UID of the pod, not that of
    the ReplicaSet. *)
Lemma GetPodOwnerID_uncached_ReplicaSet :
  kube.GetPodOwnerID Samples.emptyKubeCache Samples.podOfRS = "pod-1"
  /\ getPodOwnerID Samples.podOfRS ∅ ∅ = "rs-1".
Proof. split; vm_compute; reflexivity. Qed.

(** ** Unused images *)

Lemma noUnusedImages_map d :
  noUnusedImages d <-> map_Forall (fun _ img => isUnused img = false) (images d).
Proof.
  unfold noUnusedImages, getImages. rewrite map_Forall_to_list, Forall_fmap.
  apply Forall_iff. by intros [k img].
Qed.

Lemma isUnused_owned img : owners img <> ∅ -> isUnused img = false.
Proof.
  intros Hne. unfold isUnused.
  destruct (Nat.eqb (size (owners img)) 0) eqn:Hsize; [|by rewrite andb_false_r].
  by apply Nat.eqb_eq, map_size_empty_iff in Hsize.
Qed.

Lemma upsertImage_noUnused pod statuses ownerResourceID d cont :
  noUnusedImages d -> noUnusedImages (upsertImage pod statuses ownerResourceID d cont).
Proof.
  rewrite !noUnusedImages_map. intros Hd. unfold upsertImage.
  destruct (List.find _ _) as [cs|]; [|done].
  destruct (String.eqb (ImageID cs) ""); [done|].
  destruct (String.eqb (Image cont) ""); [done|].
  cbv zeta. cbn [images set_images].
  apply map_Forall_insert_2; [|done].
  apply isUnused_owned.
  match goal with
  | |- context [owners ?base !! ownerResourceID] =>
      destruct (owners base !! ownerResourceID) as [owner|]
  end.
  - destruct (nodes _ !! _); cbn [owners set_nodes set_owners]; apply insert_non_empty.
  - destruct (scanned _); destruct (nodes _ !! _);
      cbn [owners set_nodes set_owners set_ownerChanges]; apply insert_non_empty.
Qed.

Lemma fold_upsertImage_noUnused pod statuses ownerResourceID containers : forall d,
  noUnusedImages d ->
  noUnusedImages (fold_left (upsertImage pod statuses ownerResourceID) containers d).
Proof.
  induction containers as [|cont rest IH]; intros d Hd; simpl; [done|].
  by apply IH, upsertImage_noUnused.
Qed.

Lemma upsertImages_noUnused pod d :
  noUnusedImages d -> noUnusedImages (upsertImages pod d).
Proof.
  intros Hd. unfold upsertImages. destruct (negb _); [done|].
  by apply fold_upsertImage_noUnused.
Qed.

Lemma updateNodesUsageFromPod_images v d :
  images (updateNodesUsageFromPod v d) = images d.
Proof.
  unfold updateNodesUsageFromPod. destruct (_ || _); [done|].
  by destruct (d_nodes d !! _).
Qed.

Lemma handlePodDelete_noUnused pod d : noUnusedImages (handlePodDelete pod d).
Proof.
  apply noUnusedImages_map. unfold handlePodDelete. cbv zeta.
  assert (map_Forall (fun _ img => isUnused img = false)
            (omap (handlePodDelete_image pod (getPodOwnerID pod (rs d) (jobs d)))
               (images d))) as Hall.
  { intros k img' Hk. apply lookup_omap_Some in Hk as (img & Himg & _).
    unfold handlePodDelete_image in Himg. cbv zeta in Himg. unfold isUnused.
    destruct (Nat.eqb (size (nodes _)) 0 && Nat.eqb (size (owners _)) 0) eqn:Hu in Himg;
      [done|].
    injection Himg as <-. exact Hu. }
  cbn [set_images d_nodes]. by destruct (d_nodes d !! _).
Qed.

Lemma handleNodeDelete_noUnused v d : noUnusedImages (handleNodeDelete v d).
Proof.
  apply noUnusedImages_map. unfold handleNodeDelete. cbv zeta. cbn [images set_images].
  intros k img' Hk. apply lookup_omap_Some in Hk as (img & Himg & _).
  unfold handleNodeDelete_image in Himg. cbv zeta in Himg.
  destruct (isUnused _) eqn:Hu in Himg; [done|].
  injection Himg as <-. exact Hu.
Qed.

Lemma handleDelta_noUnused ObjectKey d item :
  noUnusedImages d -> noUnusedImages (handleDelta ObjectKey d item).
Proof.
  intros Hd. destruct item as [ev o]. unfold handleDelta. cbn [fst snd].
  assert (noUnusedImages (upsert ObjectKey o d)) as Hup.
  { destruct o as [v|v|v|v|m]; cbn [upsert]; try done.
    unfold handlePodUpdate, noUnusedImages, getImages.
    rewrite updateNodesUsageFromPod_images. by apply upsertImages_noUnused. }
  destruct ev; try done.
  destruct o as [v|v|v|v|m]; cbn [delete_]; try done.
  - apply handlePodDelete_noUnused.
  - apply handleNodeDelete_noUnused.
Qed.

Lemma seedOwners_nonempty ids : ids <> [] -> seedOwners ids <> ∅.
Proof.
  unfold seedOwners.
  assert (forall l (acc : gmap string imageOwner), acc <> ∅ ->
            fold_left (fun owners id => <[id := mkImageOwner ∅]> owners) l acc <> ∅) as Hfold.
  { induction l as [|x l IH]; intros acc Hacc; simpl; [done|].
    apply IH, insert_non_empty. }
  destruct ids as [|x ids]; [done|]. intros _. simpl. apply Hfold, insert_non_empty.
Qed.

Lemma buildImageMap_lookup l : forall (acc : gmap string image) k img,
  fold_left (fun images si => <[CacheKey si := seededImage si]> images) l acc !! k = Some img ->
  acc !! k = Some img \/ exists si, si ∈ l /\ k = CacheKey si /\ img = seededImage si.
Proof.
  induction l as [|si l IH]; intros acc k img Hk; simpl in Hk; [by left|].
  apply IH in Hk as [Hk|(si' & ? & ? & ?)].
  - destruct (decide (CacheKey si = k)) as [<-|Hne].
    + rewrite lookup_insert_eq in Hk. injection Hk as <-.
      right. exists si. split; [left|done].
    + rewrite lookup_insert_ne in Hk by done. by left.
  - right. exists si'. split; [by right|done].
Qed.

Lemma buildImageMap_has l : forall (acc : gmap string image) si,
  si ∈ l ->
  is_Some (fold_left (fun images si => <[CacheKey si := seededImage si]> images) l acc
             !! CacheKey si).
Proof.
  assert (forall l (acc : gmap string image) k, is_Some (acc !! k) ->
            is_Some (fold_left (fun images si => <[CacheKey si := seededImage si]> images)
                       l acc !! k)) as Hkeep.
  { clear. induction l as [|si l IH]; intros acc k Hk; simpl; [done|].
    apply IH. rewrite lookup_insert. case_decide; [by eexists|done]. }
  induction l as [|si' l IH]; intros acc si Hin; [by apply elem_of_nil in Hin|].
  simpl. apply elem_of_cons in Hin as [->|Hin]; [|by apply IH].
  apply Hkeep. rewrite lookup_insert_eq. by eexists.
Qed.

(** C2 as amended. From a state without unused images the delta state has
    none after any sequence of events; a fresh state has none when every
    seeded image carries a resource ID; and whatever the state before, a pod
    deletion and a node deletion leave no image without owners and without
    nodes. *)
Theorem handleDeltas_noUnusedImages ObjectKey :
  (forall items d, noUnusedImages d -> noUnusedImages (handleDeltas ObjectKey items d))
  /\ (forall seed, Forall (fun si => ResourceIDs si <> []) seed ->
                   noUnusedImages (NewDeltaState seed))
  /\ (forall pod d, noUnusedImages (handlePodDelete pod d))
  /\ (forall v d, noUnusedImages (handleNodeDelete v d)).
Proof.
  split; [|split; [|split]].
  - unfold handleDeltas. induction items as [|item items IH]; intros d Hd; simpl; [done|].
    by apply IH, handleDelta_noUnused.
  - intros seed Hseed. apply noUnusedImages_map. intros k img Hk.
    cbn [NewDeltaState images] in Hk. unfold buildImageMap in Hk.
    apply buildImageMap_lookup in Hk as [Hk|(si & Hin & _ & ->)];
      [by rewrite lookup_empty in Hk|].
    apply isUnused_owned. cbn [seededImage owners set_architecture set_owners].
    apply seedOwners_nonempty. by eapply Forall_forall in Hseed.
  - apply handlePodDelete_noUnused.
  - apply handleNodeDelete_noUnused.
Qed.

Lemma handleDeltas_noUnusedImages_witness :
  noUnusedImages
    (handleDeltas Samples.objectKey
       [(EventAdd, ObjNode Samples.nodeObjA); (EventAdd, ObjPod Samples.runningPod);
        (EventDelete, ObjPod Samples.runningPod)]
       (NewDeltaState [])).
Proof.
  apply (proj1 (handleDeltas_noUnusedImages Samples.objectKey)).
  vm_compute. constructor.
Defined.

(** C2 as stated fails: an image seeded without resource IDs has neither
    owners nor nodes, and the upsert of a node leaves it in [getImages]. *)
Lemma seeded_unowned_image_stays :
  ~ noUnusedImages
      (handleDeltas Samples.objectKey [(EventAdd, ObjNode Samples.nodeObjA)]
         (NewDeltaState Samples.unownedSeed)).
Proof.
  intros Hno.
  assert (getImages
            (handleDeltas Samples.objectKey [(EventAdd, ObjNode Samples.nodeObjA)]
               (NewDeltaState Samples.unownedSeed))
          = [seededImage (mkScannedImage "sha256:z" "amd64" [])]) as Himgs
    by (vm_compute; reflexivity).
  unfold noUnusedImages in Hno. rewrite Himgs in Hno.
  apply Forall_cons in Hno as [Hno _]. clear Himgs. vm_compute in Hno. discriminate Hno.
Qed.

(** ** Rebuilding the image map from the remote side *)

Lemma receive_all pending : forall last d,
  remoteImagesUpdate d = (pending ++ [last])%list ->
  images (Nat.iter (length (pending ++ [last])) receiveRemoteImagesUpdate d)
  = buildImageMap last.
Proof.
  induction pending as [|imgs pending IH]; intros last d Hd.
  - simpl. unfold receiveRemoteImagesUpdate. by rewrite Hd.
  - cbn [app length]. rewrite Nat.iter_succ_r. apply IH.
    unfold receiveRemoteImagesUpdate. by rewrite Hd.
Qed.

(** C10. [Observe] itself never touches the image map. A response without
    [FullResync], or without scanned images, leaves the whole delta state
    as it is, with nothing queued for the receiver. A response with
    [FullResync] and scanned images queues them (when the channel has
    room), and once the receiver has taken what is queued the image map is
    the one [buildImageMap] makes of them: every entry scanned, and an
    entry under the cache key of every scanned image. *)
Theorem Observe_image_map response d :
  (forall d', Observe response d = Some d' -> images d' = images d)
  /\ (FullResync response = false \/ ScannedImages response = [] ->
      Observe response d = Some d)
  /\ (FullResync response = true -> ScannedImages response <> [] ->
      (length (remoteImagesUpdate d) < remoteImagesUpdate_cap)%nat ->
      exists d',
        Observe response d = Some d'
        /\ remoteImagesUpdate d' = (remoteImagesUpdate d ++ [ScannedImages response])%list
        /\ images (Nat.iter (length (remoteImagesUpdate d')) receiveRemoteImagesUpdate d')
           = buildImageMap (ScannedImages response))
  /\ (forall k img,
        buildImageMap (ScannedImages response) !! k = Some img ->
        scanned img = true
        /\ exists si, si ∈ ScannedImages response /\ k = CacheKey si
                      /\ id img = si_ID si /\ architecture img = si_Architecture si)
  /\ (forall si, si ∈ ScannedImages response ->
                 is_Some (buildImageMap (ScannedImages response) !! CacheKey si)).
Proof.
  split; [|split; [|split; [|split]]].
  - intros d'. unfold Observe.
    destruct (FullResync response && _); [|by intros [= <-]].
    destruct (Nat.ltb _ _); [|done]. by intros [= <-].
  - intros Hoff. unfold Observe.
    destruct Hoff as [-> | ->]; [done|]. by rewrite andb_false_r.
  - intros Hfull Hne Hroom. unfold Observe. rewrite Hfull.
    destruct (ScannedImages response) as [|si l] eqn:Hl; [done|].
    cbn [andb length]. rewrite (proj2 (Nat.ltb_lt _ _) Hroom).
    replace (0 <? Z.of_nat (S (length l))) with true by (symmetry; apply Z.ltb_lt; lia).
    eexists. split; [done|]. split; [done|].
    cbn [remoteImagesUpdate set_remoteImagesUpdate]. by apply receive_all.
  - intros k img Hk. unfold buildImageMap in Hk.
    apply buildImageMap_lookup in Hk as [Hk|(si & Hin & -> & ->)];
      [by rewrite lookup_empty in Hk|].
    split; [done|]. by exists si.
  - intros si Hin. by apply buildImageMap_has.
Qed.

Lemma Observe_image_map_witness :
  exists d',
    Observe Samples.resyncResponse Samples.trackingXY = Some d'
    /\ images (receiveRemoteImagesUpdate d')
       = buildImageMap (ScannedImages Samples.resyncResponse).
Proof.
  destruct (Observe_image_map Samples.resyncResponse Samples.trackingXY)
    as (_ & _ & Hon & _).
  destruct Hon as (d' & Hd' & Hq & Hmap).
  - reflexivity.
  - discriminate.
  - vm_compute. lia.
  - exists d'. split; [done|]. rewrite Hq in Hmap. exact Hmap.
Defined.

(** * Further properties of the delta state and the controller *)

(** ** Decimal arithmetic at a common scale *)

Lemma pow10_pos e : 0 <= e -> 0 < 10 ^ e.
Proof. intros He. by apply Z.pow_pos_nonneg. Qed.

Lemma rescale_up (d : Dec.t) (m s : Z) :
  Dec.scale d <= m -> m <= s ->
  Dec.rescale d m * 10 ^ (s - m) = Dec.rescale d s.
Proof.
  intros Hm Hs. unfold Dec.rescale.
  replace (s - Dec.scale d) with ((m - Dec.scale d) + (s - m)) by lia.
  rewrite Z.pow_add_r by lia. lia.
Qed.

Lemma rescale_Add (x y : Dec.t) (s : Z) :
  Dec.scale x <= s -> Dec.scale y <= s ->
  Dec.scale (Dec.Add x y) <= s
  /\ Dec.rescale (Dec.Add x y) s = Dec.rescale x s + Dec.rescale y s.
Proof.
  intros Hx Hy. unfold Dec.Add. cbv zeta.
  set (m := Z.max (Dec.scale x) (Dec.scale y)).
  assert (Dec.scale x <= m /\ Dec.scale y <= m /\ m <= s) as (Hxm & Hym & Hms)
    by (unfold m; lia).
  split; [done|].
  rewrite <- (rescale_up x m s), <- (rescale_up y m s) by done.
  unfold Dec.rescale at 1. cbn [Dec.unscaled Dec.scale]. lia.
Qed.

Lemma rescale_Sub (x y : Dec.t) (s : Z) :
  Dec.scale x <= s -> Dec.scale y <= s ->
  Dec.scale (Dec.Sub x y) <= s
  /\ Dec.rescale (Dec.Sub x y) s = Dec.rescale x s - Dec.rescale y s.
Proof.
  intros Hx Hy. unfold Dec.Sub. cbv zeta.
  set (m := Z.max (Dec.scale x) (Dec.scale y)).
  assert (Dec.scale x <= m /\ Dec.scale y <= m /\ m <= s) as (Hxm & Hym & Hms)
    by (unfold m; lia).
  split; [done|].
  rewrite <- (rescale_up x m s), <- (rescale_up y m s) by done.
  unfold Dec.rescale at 1. cbn [Dec.unscaled Dec.scale]. lia.
Qed.

(** [x.Cmp(y) >= 0] says that [x] is at least [y], read at any scale that
    holds both. *)
Lemma Cmp_nonneg (x y : Dec.t) (s : Z) :
  Dec.scale x <= s -> Dec.scale y <= s ->
  0 <= Dec.Cmp x y <-> Dec.rescale y s <= Dec.rescale x s.
Proof.
  intros Hx Hy. unfold Dec.Cmp. cbv zeta.
  set (m := Z.max (Dec.scale x) (Dec.scale y)).
  assert (Dec.scale x <= m /\ Dec.scale y <= m /\ m <= s) as (Hxm & Hym & Hms)
    by (unfold m; lia).
  rewrite <- (rescale_up x m s), <- (rescale_up y m s) by done.
  pose proof (pow10_pos (s - m)) as Hpos.
  destruct (Dec.rescale x m ?= Dec.rescale y m) eqn:Hc.
  - apply Z.compare_eq in Hc. rewrite Hc. lia.
  - rewrite Z.compare_lt_iff in Hc. nia.
  - rewrite Z.compare_gt_iff in Hc. nia.
Qed.

(** ** What a node has left ([availableCPU], [availableMemory]) *)

Section Available.
Context (s : Z) (Hs : 0 <= s).

Lemma foldr_Sub_value (request : pod -> Dec.t) (alloc : Dec.t) (l : list (string * pod)) :
  Dec.scale alloc <= s ->
  Forall (fun kp => Dec.scale (request kp.2) <= s) l ->
  let left := foldr (uncurry (fun (_ : string) p result => Dec.Sub result (request p)))
                (Dec.Add Dec.zero alloc) l in
  Dec.scale left <= s
  /\ Dec.rescale left s
     = Dec.rescale alloc s
       - foldr (uncurry (fun (_ : string) p acc => acc + Dec.rescale (request p) s)) 0 l.
Proof.
  intros Halloc Hl. induction Hl as [|[k p] l Hkp _ IH]; simpl.
  - destruct (rescale_Add Dec.zero alloc s) as [Hsc Hv]; [done..|].
    split; [done|]. rewrite Hv. unfold Dec.rescale at 1. simpl. lia.
  - destruct IH as [IHs IHv].
    destruct (rescale_Sub
                (foldr (uncurry (fun (_ : string) p result => Dec.Sub result (request p)))
                   (Dec.Add Dec.zero alloc) l) (request p) s) as [Hsc Hv]; [done..|].
    split; [done|]. rewrite Hv, IHv. lia.
Qed.

Lemma availableCPU_value (n : node) :
  Dec.scale (allocatableCPU n) <= s ->
  map_Forall (fun _ p => Dec.scale (requestCPU p) <= s) (pods n) ->
  Dec.scale (availableCPU n) <= s
  /\ Dec.rescale (availableCPU n) s
     = Dec.rescale (allocatableCPU n) s - requestedCPU s n.
Proof.
  intros Hcpu Hpods. apply map_Forall_to_list in Hpods.
  unfold availableCPU, requestedCPU. rewrite !map_fold_foldr.
  apply (foldr_Sub_value requestCPU); [done|].
  eapply Forall_impl; [exact Hpods|]. by intros [k p].
Qed.

Lemma availableMemory_value (n : node) :
  Dec.scale (allocatableMem n) <= s ->
  map_Forall (fun _ p => Dec.scale (requestMemory p) <= s) (pods n) ->
  Dec.scale (availableMemory n) <= s
  /\ Dec.rescale (availableMemory n) s
     = Dec.rescale (allocatableMem n) s - requestedMemory s n.
Proof.
  intros Hmem Hpods. apply map_Forall_to_list in Hpods.
  unfold availableMemory, requestedMemory. rewrite !map_fold_foldr.
  apply (foldr_Sub_value requestMemory); [done|].
  eapply Forall_impl; [exact Hpods|]. by intros [k p].
Qed.

(** X1. What [availableCPU] and [availableMemory] return is the allocatable
    amount minus the sum of the requests of the pods on the node, exactly,
    at every scale that holds all the decimals involved. *)
Theorem available_is_allocatable_minus_requests (n : node) :
  Dec.scale (allocatableCPU n) <= s ->
  Dec.scale (allocatableMem n) <= s ->
  map_Forall (fun _ p => Dec.scale (requestCPU p) <= s
                         /\ Dec.scale (requestMemory p) <= s) (pods n) ->
  (Dec.scale (availableCPU n) <= s
   /\ Dec.rescale (availableCPU n) s
      = Dec.rescale (allocatableCPU n) s - requestedCPU s n)
  /\ (Dec.scale (availableMemory n) <= s
      /\ Dec.rescale (availableMemory n) s
         = Dec.rescale (allocatableMem n) s - requestedMemory s n).
Proof.
  intros Hcpu Hmem Hpods. split.
  - apply availableCPU_value; [done|].
    eapply map_Forall_impl; [exact Hpods|]. by intros k p [? ?].
  - apply availableMemory_value; [done|].
    eapply map_Forall_impl; [exact Hpods|]. by intros k p [? ?].
Qed.

(** The sum [sumPodRequestCPU] forms, at scale [s]. *)
Lemma fold_Add_value (request : Container -> Dec.t) (l : list Container) : forall acc,
  Dec.scale acc <= s ->
  Forall (fun c => Dec.scale (request c) <= s) l ->
  let total := fold_left (fun result c => Dec.Add result (request c)) l acc in
  Dec.scale total <= s
  /\ Dec.rescale total s
     = Dec.rescale acc s + foldr (fun c sum => Dec.rescale (request c) s + sum) 0 l.
Proof.
  induction l as [|c l IH]; intros acc Hacc Hl; simpl.
  - split; [done|lia].
  - apply Forall_cons in Hl as [Hc Hl].
    destruct (rescale_Add acc (request c) s) as [Hsc Hv]; [done..|].
    destruct (IH (Dec.Add acc (request c)) Hsc Hl) as [IHs IHv].
    split; [done|]. cbv zeta in IHv. rewrite IHv, Hv. lia.
Qed.

Lemma requestedCPU_insert (n : node) (uid : string) (p : pod) :
  pods n !! uid = None ->
  requestedCPU s (node_set_pods (<[uid := p]> (pods n)) n)
  = requestedCPU s n + Dec.rescale (requestCPU p) s.
Proof.
  intros Hnew. unfold requestedCPU. cbn [pods node_set_pods].
  rewrite map_fold_insert_L; [done| |done]. intros. lia.
Qed.

Lemma requestedMemory_insert (n : node) (uid : string) (p : pod) :
  pods n !! uid = None ->
  requestedMemory s (node_set_pods (<[uid := p]> (pods n)) n)
  = requestedMemory s n + Dec.rescale (requestMemory p) s.
Proof.
  intros Hnew. unfold requestedMemory. cbn [pods node_set_pods].
  rewrite map_fold_insert_L; [done| |done]. intros. lia.
Qed.

(** X2. A running or pending pod that was not yet reserved on its tracked
    node lowers the CPU and the memory the node has left by the sum of the
    requests of its containers; init containers do not count. *)
Theorem updateNodesUsageFromPod_reserves (v : Pod) (d : deltaState) (n : node) :
  Phase (Status v) = PodRunning \/ Phase (Status v) = PodPending ->
  d_nodes d !! NodeName (Spec v) = Some n ->
  pods n !! UID (pod_Meta v) = None ->
  Dec.scale (allocatableCPU n) <= s ->
  Dec.scale (allocatableMem n) <= s ->
  map_Forall (fun _ p => Dec.scale (requestCPU p) <= s
                         /\ Dec.scale (requestMemory p) <= s) (pods n) ->
  Forall (fun c => Dec.scale (Requests_Cpu c) <= s
                   /\ Dec.scale (Requests_Memory c) <= s) (Containers (Spec v)) ->
  exists n',
    d_nodes (updateNodesUsageFromPod v d) !! NodeName (Spec v) = Some n'
    /\ Dec.rescale (availableCPU n') s
       = Dec.rescale (availableCPU n) s
         - foldr (fun c sum => Dec.rescale (Requests_Cpu c) s + sum) 0
             (Containers (Spec v))
    /\ Dec.rescale (availableMemory n') s
       = Dec.rescale (availableMemory n) s
         - foldr (fun c sum => Dec.rescale (Requests_Memory c) s + sum) 0
             (Containers (Spec v)).
Proof.
  intros Hphase Hn Hnew Hcpu Hmem Hpods Hconts.
  assert (String.eqb (Phase (Status v)) PodRunning
          || String.eqb (Phase (Status v)) PodPending = true) as Hactive.
  { destruct Hphase as [-> | ->]; [done|]. by rewrite orb_true_r. }
  unfold updateNodesUsageFromPod. cbv zeta. rewrite Hactive, Hn.
  cbn [d_nodes set_d_nodes]. rewrite lookup_insert_eq.
  eexists. split; [done|].
  set (p := {| pod_id := UID (pod_Meta v);
               requestCPU := sumPodRequestCPU (Spec v);
               requestMemory := sumPodRequestMemory (Spec v) |}).
  destruct (fold_Add_value Requests_Cpu (Containers (Spec v)) Dec.zero) as [Hcs Hcv];
    [done| |].
  { eapply Forall_impl; [exact Hconts|]. by intros c [? ?]. }
  destruct (fold_Add_value Requests_Memory (Containers (Spec v)) Dec.zero) as [Hms Hmv];
    [done| |].
  { eapply Forall_impl; [exact Hconts|]. by intros c [? ?]. }
  cbv zeta in Hcv, Hmv. change (Dec.rescale Dec.zero s) with (0 * 10 ^ (s - 0)) in Hcv, Hmv.
  assert (map_Forall (fun _ q => Dec.scale (requestCPU q) <= s
                                 /\ Dec.scale (requestMemory q) <= s)
            (<[UID (pod_Meta v) := p]> (pods n))) as Hpods'.
  { apply map_Forall_insert_2; [|done]. by split. }
  destruct (availableCPU_value n) as [_ Hbefore]; [done| |].
  { eapply map_Forall_impl; [exact Hpods|]. by intros k q [? ?]. }
  destruct (availableMemory_value n) as [_ HbeforeM]; [done| |].
  { eapply map_Forall_impl; [exact Hpods|]. by intros k q [? ?]. }
  destruct (availableCPU_value (node_set_pods (<[UID (pod_Meta v) := p]> (pods n)) n))
    as [_ Hafter]; [done| |].
  { eapply map_Forall_impl; [exact Hpods'|]. by intros k q [? ?]. }
  destruct (availableMemory_value (node_set_pods (<[UID (pod_Meta v) := p]> (pods n)) n))
    as [_ HafterM]; [done| |].
  { eapply map_Forall_impl; [exact Hpods'|]. by intros k q [? ?]. }
  rewrite Hafter, HafterM, Hbefore, HbeforeM.
  rewrite requestedCPU_insert, requestedMemory_insert by done.
  cbn [allocatableCPU allocatableMem node_set_pods requestCPU requestMemory p].
  unfold sumPodRequestCPU, sumPodRequestMemory. rewrite Hcv, Hmv. lia.
Qed.

End Available.

Lemma available_is_allocatable_minus_requests_witness :
  Dec.rescale (availableCPU Samples.nodeB) 0 = 10 - 9.
Proof.
  refine (proj2 (proj1 (available_is_allocatable_minus_requests 0 _ Samples.nodeB _ _ _))).
  - lia.
  - vm_compute. discriminate.
  - vm_compute. discriminate.
  - apply map_Forall_to_list. vm_compute. repeat constructor; discriminate.
Defined.

Lemma updateNodesUsageFromPod_reserves_witness :
  exists n',
    d_nodes (updateNodesUsageFromPod Samples.pendingPod Samples.clusterAB) !! "a" = Some n'
    /\ Dec.rescale (availableCPU n') 1 = 40 - (5 + (15 + 0)).
Proof.
  destruct (updateNodesUsageFromPod_reserves 1 ltac:(lia) Samples.pendingPod
              Samples.clusterAB Samples.nodeA) as (n' & Hn' & Hcpu & _).
  - by right.
  - vm_compute. reflexivity.
  - vm_compute. reflexivity.
  - vm_compute. discriminate.
  - vm_compute. discriminate.
  - apply map_Forall_to_list. vm_compute. constructor.
  - vm_compute. repeat constructor; discriminate.
  - exists n'. split; [exact Hn'|]. exact Hcpu.
Defined.

(** ** Reservations follow the last update ([updateNodesUsageFromPod]) *)

(** X3. The reservation of a pod is replaced, never added up: an update of
    a running or pending pod leaves the state the same whether or not an
    earlier update of that pod (same UID, same node) was applied before.
    An update of a pod in any other phase leaves no reservation for it on
    its node, and does not start tracking the node. *)
Theorem updateNodesUsageFromPod_last_wins (v1 v2 : Pod) (d : deltaState) :
  (UID (pod_Meta v1) = UID (pod_Meta v2) ->
   NodeName (Spec v1) = NodeName (Spec v2) ->
   isActive v2 = true ->
   updateNodesUsageFromPod v2 (updateNodesUsageFromPod v1 d)
   = updateNodesUsageFromPod v2 d)
  /\ (isActive v1 = false ->
      (forall n', d_nodes (updateNodesUsageFromPod v1 d) !! NodeName (Spec v1) = Some n' ->
                  pods n' !! UID (pod_Meta v1) = None)
      /\ (d_nodes d !! NodeName (Spec v1) = None -> updateNodesUsageFromPod v1 d = d)).
Proof.
  split.
  - intros Huid Hnode Hactive. unfold isActive in Hactive.
    unfold updateNodesUsageFromPod. cbv zeta. rewrite Hactive, Hnode, Huid.
    destruct (String.eqb (Phase (Status v1)) PodRunning
              || String.eqb (Phase (Status v1)) PodPending).
    + cbn [d_nodes set_d_nodes]. rewrite lookup_insert_eq.
      destruct (d_nodes d !! NodeName (Spec v2)) as [n|];
        cbn [pods node_set_pods node_name node_architecture os allocatableMem
               allocatableCPU set_d_nodes remoteImagesUpdate images rs jobs
               hostFSDisabled d_nodes];
        by rewrite !insert_insert_eq.
    + destruct (d_nodes d !! NodeName (Spec v2)) as [n|] eqn:Hn; [|by rewrite Hn].
      cbn [d_nodes set_d_nodes]. rewrite lookup_insert_eq.
      cbn [pods node_set_pods node_name node_architecture os allocatableMem
             allocatableCPU set_d_nodes remoteImagesUpdate images rs jobs
             hostFSDisabled d_nodes].
      by rewrite insert_insert_eq, insert_delete_eq.
  - intros Hinactive. unfold isActive in Hinactive.
    unfold updateNodesUsageFromPod. cbv zeta. rewrite Hinactive. split.
    + intros n'. destruct (d_nodes d !! NodeName (Spec v1)) as [n|] eqn:Hn.
      * cbn [d_nodes set_d_nodes]. rewrite lookup_insert_eq. intros [= <-].
        cbn [pods node_set_pods]. apply lookup_delete_eq.
      * by rewrite Hn.
    + by intros ->.
Qed.

Lemma updateNodesUsageFromPod_last_wins_witness :
  updateNodesUsageFromPod Samples.pendingPod
    (updateNodesUsageFromPod Samples.pendingPod Samples.clusterAB)
  = updateNodesUsageFromPod Samples.pendingPod Samples.clusterAB.
Proof.
  exact (proj1 (updateNodesUsageFromPod_last_wins Samples.pendingPod Samples.pendingPod
                  Samples.clusterAB) eq_refl eq_refl eq_refl).
Defined.

(** ** What events leave alone *)

Lemma upsertImage_frame pod statuses ownerResourceID d cont :
  d_nodes (upsertImage pod statuses ownerResourceID d cont) = d_nodes d
  /\ rs (upsertImage pod statuses ownerResourceID d cont) = rs d
  /\ jobs (upsertImage pod statuses ownerResourceID d cont) = jobs d
  /\ hostFSDisabled (upsertImage pod statuses ownerResourceID d cont) = hostFSDisabled d
  /\ remoteImagesUpdate (upsertImage pod statuses ownerResourceID d cont)
     = remoteImagesUpdate d.
Proof.
  unfold upsertImage. destruct (List.find _ _) as [cs|]; [|done].
  destruct (String.eqb (ImageID cs) ""); [done|].
  destruct (String.eqb (Image cont) ""); done.
Qed.

Lemma fold_upsertImage_frame pod statuses ownerResourceID containers : forall d,
  d_nodes (fold_left (upsertImage pod statuses ownerResourceID) containers d) = d_nodes d
  /\ rs (fold_left (upsertImage pod statuses ownerResourceID) containers d) = rs d
  /\ jobs (fold_left (upsertImage pod statuses ownerResourceID) containers d) = jobs d
  /\ hostFSDisabled (fold_left (upsertImage pod statuses ownerResourceID) containers d)
     = hostFSDisabled d.
Proof.
  induction containers as [|cont rest IH]; intros d; simpl; [done|].
  destruct (IH (upsertImage pod statuses ownerResourceID d cont)) as (-> & -> & -> & ->).
  destruct (upsertImage_frame pod statuses ownerResourceID d cont) as (-> & -> & -> & -> & _).
  done.
Qed.

Lemma upsertImages_frame pod d :
  d_nodes (upsertImages pod d) = d_nodes d
  /\ rs (upsertImages pod d) = rs d
  /\ jobs (upsertImages pod d) = jobs d
  /\ hostFSDisabled (upsertImages pod d) = hostFSDisabled d.
Proof.
  unfold upsertImages. destruct (negb _); [done|]. apply fold_upsertImage_frame.
Qed.

(** What a node record keeps while its reservations change. *)
Lemma node_set_pods_keeps ps n :
  node_architecture (node_set_pods ps n) = node_architecture n
  /\ node_name (node_set_pods ps n) = node_name n
  /\ os (node_set_pods ps n) = os n
  /\ allocatableCPU (node_set_pods ps n) = allocatableCPU n
  /\ allocatableMem (node_set_pods ps n) = allocatableMem n.
Proof. done. Qed.

Lemma handleDelta_keeps_architecture ObjectKey d item nm n :
  d_nodes d !! nm = Some n ->
  (forall v, item = (EventDelete, ObjNode v) -> Name (node_Meta v) <> nm) ->
  exists n',
    d_nodes (handleDelta ObjectKey d item) !! nm = Some n'
    /\ node_architecture n' = node_architecture n.
Proof.
  intros Hn Hkeep. destruct item as [ev o]. unfold handleDelta. cbn [fst snd].
  assert (exists n', d_nodes (upsert ObjectKey o d) !! nm = Some n'
                     /\ node_architecture n' = node_architecture n) as Hup.
  { destruct o as [v|v|v|v|m]; cbn [upsert]; try by exists n.
    - unfold handlePodUpdate, updateNodesUsageFromPod. cbv zeta.
      destruct (upsertImages_frame v d) as (-> & _).
      destruct (_ || _).
      + destruct (decide (NodeName (Spec v) = nm)) as [->|Hne].
        * rewrite Hn. cbn [d_nodes set_d_nodes]. rewrite lookup_insert_eq. by eexists.
        * cbn [d_nodes set_d_nodes]. rewrite lookup_insert_ne by done. by exists n.
      + destruct (d_nodes d !! NodeName (Spec v)) as [n0|] eqn:Hn0.
        * cbn [d_nodes set_d_nodes].
          destruct (decide (NodeName (Spec v) = nm)) as [Heq|Hne].
          -- rewrite Heq in *. rewrite lookup_insert_eq. eexists. split; [done|].
             cbn [node_architecture node_set_pods]. congruence.
          -- rewrite lookup_insert_ne by done. by exists n.
        * destruct (upsertImages_frame v d) as (Hsame & _).
          rewrite Hsame. by exists n.
    - unfold updateNodeUsage. cbv zeta. cbn [d_nodes set_d_nodes].
      destruct (decide (Name (node_Meta v) = nm)) as [->|Hne].
      + rewrite Hn, lookup_insert_eq. by eexists.
      + rewrite lookup_insert_ne by done. by exists n. }
  destruct ev; try done.
  destruct o as [v|v|v|v|m]; cbn [delete_]; try by exists n.
  - unfold handlePodDelete. cbv zeta. cbn [d_nodes set_images].
    destruct (d_nodes d !! NodeName (Spec v)) as [n0|] eqn:Hn0; [|by exists n].
    cbn [d_nodes set_d_nodes].
    destruct (decide (NodeName (Spec v) = nm)) as [Heq|Hne].
    + rewrite Heq in *. rewrite lookup_insert_eq. eexists. split; [done|].
      cbn [node_architecture node_set_pods]. congruence.
    + rewrite lookup_insert_ne by done. by exists n.
  - unfold handleNodeDelete. cbv zeta. cbn [d_nodes set_images set_d_nodes].
    rewrite lookup_delete_ne by (by apply Hkeep). by exists n.
Qed.

(** X4. The architecture of a node is fixed when the node is first tracked.
    While the node is not deleted, no event changes it, the upsert of the
    node object included; and a node that is first tracked through a
    running or pending pod has the empty architecture. *)
Theorem node_architecture_fixed ObjectKey :
  (forall items d nm n,
     d_nodes d !! nm = Some n ->
     Forall (fun item => forall v, item = (EventDelete, ObjNode v) ->
                                   Name (node_Meta v) <> nm) items ->
     exists n',
       d_nodes (handleDeltas ObjectKey items d) !! nm = Some n'
       /\ node_architecture n' = node_architecture n)
  /\ (forall d v ev,
        ev <> EventDelete -> isActive v = true ->
        d_nodes d !! NodeName (Spec v) = None ->
        exists n',
          d_nodes (handleDelta ObjectKey d (ev, ObjPod v)) !! NodeName (Spec v) = Some n'
          /\ node_architecture n' = "").
Proof.
  split.
  - unfold handleDeltas. induction items as [|item items IH]; intros d nm n Hn Hitems.
    + by exists n.
    + apply Forall_cons in Hitems as [Hitem Hitems]. simpl.
      destruct (handleDelta_keeps_architecture ObjectKey d item nm n Hn Hitem)
        as (n1 & Hn1 & <-).
      by apply IH.
  - intros d v ev Hev Hactive Hnone. unfold isActive in Hactive.
    assert (handleDelta ObjectKey d (ev, ObjPod v) = handlePodUpdate v d) as ->
      by by destruct ev.
    unfold handlePodUpdate, updateNodesUsageFromPod. cbv zeta.
    destruct (upsertImages_frame v d) as (-> & _).
    rewrite Hactive, Hnone. cbn [d_nodes set_d_nodes].
    rewrite lookup_insert_eq. by eexists.
Qed.

Lemma node_architecture_fixed_witness :
  exists n',
    d_nodes (handleDeltas Samples.objectKey
               [(EventAdd, ObjPod Samples.pendingPod); (EventAdd, ObjNode Samples.nodeObjArm)]
               (NewDeltaState [])) !! "a" = Some n'
    /\ node_architecture n' = "".
Proof.
  destruct (proj2 (node_architecture_fixed Samples.objectKey) (NewDeltaState [])
              Samples.pendingPod EventAdd) as (n1 & Hn1 & Harch1);
    [done|reflexivity|reflexivity|].
  destruct (proj1 (node_architecture_fixed Samples.objectKey)
              [(EventAdd, ObjNode Samples.nodeObjArm)]
              (handleDelta Samples.objectKey (NewDeltaState [])
                 (EventAdd, ObjPod Samples.pendingPod)) "a" n1 Hn1)
    as (n' & Hn' & Harch).
  - repeat constructor. intros v [=].
  - exists n'. split; [exact Hn'|]. by rewrite Harch.
Defined.

(** ** Images of a running pod ([upsertImages]) *)

Lemma upsertImage_tracks pod statuses ownerResourceID d cont cs :
  List.find (fun v => String.eqb (cs_Name v) (cont_Name cont)) statuses = Some cs ->
  ImageID cs <> "" -> Image cont <> "" ->
  podTracked (upsertImage pod statuses ownerResourceID d cont)
    (ImageID cs +:+ podArch d pod) ownerResourceID (NodeName (Spec pod))
    (UID (pod_Meta pod)).
Proof.
  intros Hfind Hid Himage. unfold upsertImage, podTracked, podArch. rewrite Hfind.
  apply String.eqb_neq in Hid, Himage. rewrite Hid, Himage. cbv zeta.
  cbn [images set_images]. rewrite lookup_insert_eq.
  match goal with
  | |- context [owners ?base !! ownerResourceID] =>
      destruct (owners base !! ownerResourceID) as [owner|] eqn:Howner
  end.
  - match goal with
    | |- context [nodes ?base !! NodeName (Spec pod)] =>
        destruct (nodes base !! NodeName (Spec pod)) as [imgNode|] eqn:Hnode
    end;
      eexists _, _, _; (split; [reflexivity|]);
      cbn [owners nodes set_nodes set_owners]; rewrite !lookup_insert_eq;
      (split; [reflexivity|]); (split; [cbn; set_solver|]);
      (split; [reflexivity|]); cbn; set_solver.
  - destruct (scanned _);
      match goal with
      | |- context [nodes ?base !! NodeName (Spec pod)] =>
          destruct (nodes base !! NodeName (Spec pod)) as [imgNode|] eqn:Hnode
      end;
      eexists _, _, _; (split; [reflexivity|]);
      cbn [owners nodes set_nodes set_owners set_ownerChanges]; rewrite !lookup_insert_eq;
      (split; [reflexivity|]); (split; [cbn; set_solver|]);
      (split; [reflexivity|]); cbn; set_solver.
Qed.

Lemma upsertImage_podArch pod statuses ownerResourceID d cont pod' :
  podArch (upsertImage pod statuses ownerResourceID d cont) pod' = podArch d pod'.
Proof.
  unfold podArch.
  by destruct (upsertImage_frame pod statuses ownerResourceID d cont) as (-> & _).
Qed.

Lemma upsertImage_keeps pod statuses ownerResourceID d cont key :
  podTracked d key ownerResourceID (NodeName (Spec pod)) (UID (pod_Meta pod)) ->
  podTracked (upsertImage pod statuses ownerResourceID d cont) key ownerResourceID
    (NodeName (Spec pod)) (UID (pod_Meta pod)).
Proof.
  intros Htracked.
  destruct (List.find (fun v => String.eqb (cs_Name v) (cont_Name cont)) statuses)
    as [cs|] eqn:Hfind; [|by unfold upsertImage; rewrite Hfind].
  destruct (String.eqb (ImageID cs) "") eqn:Hid;
    [by unfold upsertImage; rewrite Hfind, Hid|].
  destruct (String.eqb (Image cont) "") eqn:Himage;
    [by unfold upsertImage; rewrite Hfind, Hid, Himage|].
  destruct (decide (ImageID cs +:+ podArch d pod = key)) as [<-|Hne].
  - apply upsertImage_tracks; [done|by apply String.eqb_neq..].
  - destruct Htracked as (img & owner & imgNode & Himg & Hrest).
    exists img, owner, imgNode. split; [|done].
    unfold upsertImage. rewrite Hfind, Hid, Himage. cbv zeta.
    cbn [images set_images]. by rewrite lookup_insert_ne.
Qed.

Lemma fold_upsertImage_keeps pod statuses ownerResourceID containers key : forall d,
  podTracked d key ownerResourceID (NodeName (Spec pod)) (UID (pod_Meta pod)) ->
  podTracked (fold_left (upsertImage pod statuses ownerResourceID) containers d) key
    ownerResourceID (NodeName (Spec pod)) (UID (pod_Meta pod)).
Proof.
  induction containers as [|c rest IH]; intros d Hd; simpl; [done|].
  by apply IH, upsertImage_keeps.
Qed.

Lemma fold_upsertImage_tracks pod statuses ownerResourceID containers cont cs : forall d,
  cont ∈ containers ->
  List.find (fun v => String.eqb (cs_Name v) (cont_Name cont)) statuses = Some cs ->
  ImageID cs <> "" -> Image cont <> "" ->
  podTracked (fold_left (upsertImage pod statuses ownerResourceID) containers d)
    (ImageID cs +:+ podArch d pod) ownerResourceID (NodeName (Spec pod))
    (UID (pod_Meta pod)).
Proof.
  induction containers as [|c rest IH]; intros d Hin Hfind Hid Himage;
    [by apply elem_of_nil in Hin|].
  simpl. apply elem_of_cons in Hin as [<-|Hin].
  - by apply fold_upsertImage_keeps, upsertImage_tracks.
  - rewrite <- (upsertImage_podArch pod statuses ownerResourceID d c pod). by apply IH.
Qed.

(** X5. After [upsertImages] for a running pod, every container of the pod
    (init containers included) that has a status with an image ID, and an
    image name, has its image tracked under the key image ID + architecture
    of the pod's node ([amd64] for a node not tracked), with the pod listed
    behind its resolved owner and on its node. A pod that is not running
    changes nothing. *)
Theorem upsertImages_tracks_pod (pod : Pod) (d : deltaState) :
  (Phase (Status pod) = PodRunning ->
   forall cont cs,
     cont ∈ (Containers (Spec pod) ++ InitContainers (Spec pod))%list ->
     List.find (fun v => String.eqb (cs_Name v) (cont_Name cont))
       (ContainerStatuses (Status pod) ++ InitContainerStatuses (Status pod))%list
     = Some cs ->
     ImageID cs <> "" -> Image cont <> "" ->
     podTracked (upsertImages pod d) (ImageID cs +:+ podArch d pod)
       (getPodOwnerID pod (rs d) (jobs d)) (NodeName (Spec pod)) (UID (pod_Meta pod)))
  /\ (Phase (Status pod) <> PodRunning -> upsertImages pod d = d).
Proof.
  split.
  - intros Hrunning cont cs Hin Hfind Hid Himage.
    unfold upsertImages. rewrite Hrunning. cbn [negb String.eqb]. cbv zeta.
    change (String.eqb PodRunning PodRunning) with true. cbn [negb].
    by apply fold_upsertImage_tracks with cont.
  - intros Hother. unfold upsertImages.
    apply String.eqb_neq in Hother. by rewrite Hother.
Qed.

Lemma upsertImages_tracks_pod_witness :
  podTracked (upsertImages Samples.runningPod Samples.clusterAB) "sha256:xamd64"
    "pod-1" "a" "pod-1".
Proof.
  refine (proj1 (upsertImages_tracks_pod Samples.runningPod Samples.clusterAB) eq_refl
            (mkContainer "web" "nginx:1.25" (Dec.of_Z 1) (Dec.of_Z 1))
            (mkContainerStatus "web" "sha256:x" "containerd://c1") _ eq_refl _ _).
  - left.
  - discriminate.
  - discriminate.
Defined.

(** ** Events and the scan state *)

Lemma upsertImage_scanState pod statuses ownerResourceID d cont k img' :
  images (upsertImage pod statuses ownerResourceID d cont) !! k = Some img' ->
  match images d !! k with
  | Some img => scanState img' = scanState img
  | None => scanState img' = scanState (newImage "" "")
  end.
Proof.
  unfold upsertImage.
  destruct (List.find _ _) as [cs|]; [|by intros ->].
  destruct (String.eqb (ImageID cs) ""); [by intros ->|].
  destruct (String.eqb (Image cont) ""); [by intros ->|].
  cbv zeta. cbn [images set_images].
  match goal with
  | |- <[?key := _]> _ !! _ = _ -> _ => destruct (decide (key = k)) as [<-|Hne]
  end.
  - rewrite lookup_insert_eq. intros [= <-].
    match goal with
    | |- context [images d !! ?key] => destruct (images d !! key) as [img|]
    end;
      match goal with
      | |- context [owners ?base !! ownerResourceID] =>
          destruct (owners base !! ownerResourceID)
      end;
      try destruct (scanned _);
      match goal with
      | |- context [nodes ?base !! NodeName (Spec pod)] =>
          destruct (nodes base !! NodeName (Spec pod))
      end; reflexivity.
  - rewrite lookup_insert_ne by done. by intros ->.
Qed.

Lemma fold_upsertImage_scanState pod statuses ownerResourceID containers : forall d k img',
  images (fold_left (upsertImage pod statuses ownerResourceID) containers d) !! k
  = Some img' ->
  match images d !! k with
  | Some img => scanState img' = scanState img
  | None => scanState img' = scanState (newImage "" "")
  end.
Proof.
  induction containers as [|c rest IH]; intros d k img' Hk; simpl in Hk;
    [by rewrite Hk|].
  apply IH in Hk.
  destruct (images (upsertImage pod statuses ownerResourceID d c) !! k) as [img1|] eqn:H1.
  - apply upsertImage_scanState in H1. destruct (images d !! k); congruence.
  - assert (images d !! k = None) as ->; [|done].
    destruct (images d !! k) as [img|] eqn:Hd; [|done]. exfalso.
    revert H1. unfold upsertImage.
    destruct (List.find _ _) as [cs|]; [|congruence].
    destruct (String.eqb (ImageID cs) ""); [congruence|].
    destruct (String.eqb (Image c) ""); [congruence|].
    cbv zeta. cbn [images set_images]. rewrite lookup_insert.
    case_decide; [done|congruence].
Qed.

Lemma handlePodDelete_images pod d :
  images (handlePodDelete pod d)
  = omap (handlePodDelete_image pod (getPodOwnerID pod (rs d) (jobs d))) (images d).
Proof. unfold handlePodDelete. cbv zeta. by destruct (d_nodes _ !! _). Qed.

Lemma handleDelta_scanState ObjectKey d item k img' :
  images (handleDelta ObjectKey d item) !! k = Some img' ->
  match images d !! k with
  | Some img => scanState img' = scanState img
  | None => scanState img' = scanState (newImage "" "")
  end.
Proof.
  destruct item as [ev o]. unfold handleDelta. cbn [fst snd].
  assert (images (upsert ObjectKey o d) !! k = Some img' ->
          match images d !! k with
          | Some img => scanState img' = scanState img
          | None => scanState img' = scanState (newImage "" "")
          end) as Hup.
  { destruct o as [v|v|v|v|m]; cbn [upsert];
      try (intros Hk; change (images d !! k = Some img') in Hk; by rewrite Hk).
    unfold handlePodUpdate. rewrite updateNodesUsageFromPod_images.
    unfold upsertImages. destruct (negb _); [by intros ->|].
    apply fold_upsertImage_scanState. }
  destruct ev; try done.
  destruct o as [v|v|v|v|m]; cbn [delete_];
    try (intros Hk; change (images d !! k = Some img') in Hk; by rewrite Hk).
  - rewrite handlePodDelete_images.
    intros (img & Himg & Hk)%lookup_omap_Some. rewrite Hk.
    unfold handlePodDelete_image in Himg. cbv zeta in Himg.
    destruct (Nat.eqb _ 0 && Nat.eqb _ 0) in Himg; [done|].
    injection Himg as <-.
    destruct (nodes img !! NodeName (Spec v));
      match goal with
      | |- context [owners ?base !! ?o] => destruct (owners base !! o)
      end; try destruct (Nat.eqb (size _) 0); try destruct (scanned _); reflexivity.
  - unfold handleNodeDelete. cbv zeta. cbn [images set_images].
    intros (img & Himg & Hk)%lookup_omap_Some.
    change (images d !! k = Some img) in Hk. rewrite Hk.
    unfold handleNodeDelete_image in Himg. cbv zeta in Himg.
    destruct (isUnused _) in Himg; [done|]. by injection Himg as <-.
Qed.

(** X6. No event touches the scan state of an image. After any sequence of
    events, an image whose key was tracked before every event and after the
    last has the scanned flag, last scan error, failure count, retry
    backoff and next scan time it had at the start. An image whose key was
    not tracked at some point on the way was created by a later event, and
    has the scan state of a new image: not scanned, no failure. *)
Theorem handleDeltas_scanState ObjectKey items : forall d k img',
  images (handleDeltas ObjectKey items d) !! k = Some img' ->
  (trackedThroughout ObjectKey items d k = true ->
   exists img, images d !! k = Some img /\ scanState img' = scanState img)
  /\ (trackedThroughout ObjectKey items d k = false ->
      scanState img' = scanState (newImage "" "")).
Proof.
  unfold handleDeltas.
  induction items as [|item items IH]; intros d k img' Hk; cbn [fold_left] in Hk;
    cbn [trackedThroughout].
  - rewrite Hk. split; [|done]. intros _. by exists img'.
  - destruct (IH _ _ _ Hk) as [Hkept Hnew].
    destruct (images d !! k) as [img|] eqn:Hd.
    + split; [|exact Hnew].
      intros (img1 & H1 & ->)%Hkept. exists img. split; [done|].
      apply handleDelta_scanState in H1. by rewrite Hd in H1.
    + split; [done|]. intros _.
      destruct (trackedThroughout ObjectKey items (handleDelta ObjectKey d item) k) eqn:Hrest.
      * destruct (Hkept eq_refl) as (img1 & H1 & ->).
        apply handleDelta_scanState in H1. by rewrite Hd in H1.
      * by apply Hnew.
Qed.

(** The scanned image [imageX] stays scanned through an update of a pod
    that runs it. *)
Lemma handleDeltas_scanState_witness :
  exists img',
    images (handleDeltas Samples.objectKey [(EventUpdate, ObjPod Samples.runningPod)]
              Samples.trackingScannedX) !! cacheKey Samples.imageX = Some img'
    /\ scanState img' = scanState Samples.scannedX.
Proof.
  destruct (images (handleDeltas Samples.objectKey
                      [(EventUpdate, ObjPod Samples.runningPod)]
                      Samples.trackingScannedX) !! cacheKey Samples.imageX)
    as [img'|] eqn:Hk; [|vm_compute in Hk; discriminate Hk].
  exists img'. split; [reflexivity|].
  destruct (proj1 (handleDeltas_scanState Samples.objectKey
                     [(EventUpdate, ObjPod Samples.runningPod)]
                     Samples.trackingScannedX (cacheKey Samples.imageX) img' Hk))
    as (img & Himg & ->).
  - vm_compute. reflexivity.
  - vm_compute in Himg. injection Himg as <-. reflexivity.
Defined.

(** ** The nodes of an image are tracked nodes *)

Lemma upsertImage_image_nodes pod statuses ownerResourceID d cont k img' nm :
  images (upsertImage pod statuses ownerResourceID d cont) !! k = Some img' ->
  is_Some (nodes img' !! nm) ->
  nm = NodeName (Spec pod)
  \/ exists img, images d !! k = Some img /\ is_Some (nodes img !! nm).
Proof.
  unfold upsertImage.
  destruct (List.find _ _) as [cs|]; [|by right; eexists].
  destruct (String.eqb (ImageID cs) ""); [by right; eexists|].
  destruct (String.eqb (Image cont) ""); [by right; eexists|].
  cbv zeta. cbn [images set_images].
  match goal with
  | |- <[?key := _]> _ !! _ = _ -> _ => destruct (decide (key = k)) as [<-|Hne]
  end.
  - rewrite lookup_insert_eq. intros [= <-] Hnm.
    destruct (decide (nm = NodeName (Spec pod))) as [|Hother]; [by left|]. right.
    match goal with
    | |- context [images d !! ?key] => destruct (images d !! key) as [img|] eqn:Himg
    end.
    + exists img. split; [done|]. revert Hnm.
      match goal with
      | |- context [owners ?base !! ownerResourceID] =>
          destruct (owners base !! ownerResourceID)
      end;
        try destruct (scanned _);
        match goal with
        | |- context [nodes ?base !! NodeName (Spec pod)] =>
            destruct (nodes base !! NodeName (Spec pod))
        end;
        cbn [nodes set_nodes set_owners set_ownerChanges set_containerRuntime set_name set_id];
        by rewrite lookup_insert_ne.
    + exfalso. revert Hnm.
      repeat first
        [ rewrite lookup_empty
        | progress cbn [owners nodes set_nodes set_owners set_ownerChanges
                          set_containerRuntime set_name set_id newImage scanned] ].
      rewrite lookup_insert_ne by done. rewrite lookup_empty. by intros [? ?].
  - rewrite lookup_insert_ne by done. intros Hk Hnm. right. by exists img'.
Qed.

Lemma fold_upsertImage_image_nodes pod statuses ownerResourceID containers :
  forall d k img' nm,
    images (fold_left (upsertImage pod statuses ownerResourceID) containers d) !! k
    = Some img' ->
    is_Some (nodes img' !! nm) ->
    nm = NodeName (Spec pod)
    \/ exists img, images d !! k = Some img /\ is_Some (nodes img !! nm).
Proof.
  induction containers as [|c rest IH]; intros d k img' nm Hk Hnm; simpl in Hk.
  - right. by exists img'.
  - destruct (IH _ _ _ _ Hk Hnm) as [?|(img1 & H1 & Hnm1)]; [by left|].
    by apply (upsertImage_image_nodes pod statuses ownerResourceID d c k img1 nm).
Qed.

Lemma updateNodesUsageFromPod_keeps_tracked v d nm :
  is_Some (d_nodes d !! nm) -> is_Some (d_nodes (updateNodesUsageFromPod v d) !! nm).
Proof.
  intros Hnm. unfold updateNodesUsageFromPod. cbv zeta.
  destruct (_ || _).
  - cbn [d_nodes set_d_nodes]. rewrite lookup_insert. case_decide; [by eexists|done].
  - destruct (d_nodes d !! NodeName (Spec v)) eqn:Hn; [|done].
    cbn [d_nodes set_d_nodes]. rewrite lookup_insert. case_decide; [by eexists|done].
Qed.

Lemma handleDelta_imageNodesTracked ObjectKey d item :
  imageNodesTracked d -> imageNodesTracked (handleDelta ObjectKey d item).
Proof.
  intros Hd. destruct item as [ev o]. unfold handleDelta. cbn [fst snd].
  assert (imageNodesTracked (upsert ObjectKey o d)) as Hup.
  { destruct o as [v|v|v|v|m]; cbn [upsert]; try exact Hd.
    - intros k img' nm. unfold handlePodUpdate.
      rewrite updateNodesUsageFromPod_images. intros Hk Hnm.
      unfold upsertImages in Hk |- *.
      destruct (String.eqb (Phase (Status v)) PodRunning) eqn:Hrun; cbn [negb] in Hk |- *.
      + destruct (fold_upsertImage_image_nodes _ _ _ _ _ _ _ _ Hk Hnm)
          as [->|(img & Himg & Hnm')].
        * unfold updateNodesUsageFromPod. cbv zeta. rewrite Hrun. cbn [orb].
          cbn [d_nodes set_d_nodes]. rewrite lookup_insert_eq. by eexists.
        * apply updateNodesUsageFromPod_keeps_tracked.
          destruct (fold_upsertImage_frame v
                      (ContainerStatuses (Status v) ++ InitContainerStatuses (Status v))%list
                      (getPodOwnerID v (rs d) (jobs d))
                      (Containers (Spec v) ++ InitContainers (Spec v))%list d) as (-> & _).
          by apply (Hd k img).
      + apply updateNodesUsageFromPod_keeps_tracked. by apply (Hd k img').
    - intros k img nm Hk Hnm. unfold updateNodeUsage. cbv zeta.
      cbn [d_nodes set_d_nodes]. rewrite lookup_insert.
      case_decide; [by eexists|]. by apply (Hd k img). }
  destruct ev; try done.
  destruct o as [v|v|v|v|m]; cbn [delete_]; try exact Hd.
  - intros k img' nm. rewrite handlePodDelete_images.
    intros (img & Himg & Hk)%lookup_omap_Some Hnm.
    assert (is_Some (nodes img !! nm)) as Hnm0.
    { unfold handlePodDelete_image in Himg. cbv zeta in Himg.
      destruct (Nat.eqb _ 0 && Nat.eqb _ 0) in Himg; [done|].
      injection Himg as <-. revert Hnm.
      destruct (nodes img !! NodeName (Spec v)) as [imgNode|] eqn:Hnode;
        match goal with
        | |- context [owners ?base !! ?o] => destruct (owners base !! o)
        end; try destruct (Nat.eqb (size _) 0); try destruct (scanned _);
        cbn [nodes set_nodes set_owners set_ownerChanges]; try done;
        rewrite lookup_insert; case_decide; subst; by rewrite ?Hnode. }
    pose proof (Hd k img nm Hk Hnm0) as Htracked.
    unfold handlePodDelete. cbv zeta. cbn [d_nodes set_images].
    destruct (d_nodes d !! NodeName (Spec v)) eqn:Hn; [|done].
    cbn [d_nodes set_d_nodes]. rewrite lookup_insert. case_decide; [by eexists|done].
  - intros k img' nm. unfold handleNodeDelete. cbv zeta. cbn [images set_images d_nodes].
    intros (img & Himg & Hk)%lookup_omap_Some Hnm.
    change (images d !! k = Some img) in Hk.
    unfold handleNodeDelete_image in Himg. cbv zeta in Himg.
    destruct (isUnused _) in Himg; [done|]. injection Himg as <-.
    cbn [nodes set_nodes] in Hnm. rewrite lookup_delete in Hnm.
    case_decide as Hname; [by destruct Hnm|].
    cbn [set_d_nodes d_nodes]. rewrite lookup_delete_ne by done. by apply (Hd k img).
Qed.

(** X7. In every state the controller reaches, each node an image is
    recorded on is a tracked node: it holds in a fresh state, and the
    events, a rebuild from the remote side and the record of a scan error
    keep it. *)
Theorem imageNodesTracked_invariant ObjectKey :
  (forall seed, imageNodesTracked (NewDeltaState seed))
  /\ (forall items d, imageNodesTracked d ->
                      imageNodesTracked (handleDeltas ObjectKey items d))
  /\ (forall d, imageNodesTracked d -> imageNodesTracked (receiveRemoteImagesUpdate d))
  /\ (forall i err now d, imageNodesTracked d ->
                          imageNodesTracked (setImageScanError i err now d)).
Proof.
  assert (forall seed k img nm,
            buildImageMap seed !! k = Some img -> ~ is_Some (nodes img !! nm)) as Hseed.
  { intros seed k img nm Hk. unfold buildImageMap in Hk.
    apply buildImageMap_lookup in Hk as [Hk|(si & _ & _ & ->)];
      [by rewrite lookup_empty in Hk|].
    cbn. rewrite lookup_empty. by intros [? ?]. }
  split; [|split; [|split]].
  - intros seed k img nm Hk Hnm. by destruct (Hseed seed k img nm Hk).
  - unfold handleDeltas. induction items as [|item items IH]; intros d Hd; simpl; [done|].
    by apply IH, handleDelta_imageNodesTracked.
  - intros d Hd. unfold receiveRemoteImagesUpdate.
    destruct (remoteImagesUpdate d) as [|imgs rest]; [done|].
    intros k img nm Hk Hnm. by destruct (Hseed imgs k img nm Hk).
  - intros i err now d Hd k img' nm Hk Hnm.
    assert (d_nodes (setImageScanError i err now d) = d_nodes d) as ->.
    { unfold setImageScanError. destruct (images d !! cacheKey i); [|done].
      destruct (isLayerNotFoundMessage _); [|destruct (isPrivateImageMessage _)];
        cbn; by destruct (Step _). }
    destruct (decide (cacheKey i = k)) as [<-|Hne].
    + destruct (images d !! cacheKey i) as [img|] eqn:Himg.
      * destruct (setImageScanError_lookup d i err now img Himg)
          as (img1 & H1 & _ & _ & _ & _ & _ & _ & _ & _ & Hnodes & _).
        rewrite H1 in Hk. injection Hk as ->. rewrite Hnodes in Hnm.
        by apply (Hd (cacheKey i) img).
      * unfold setImageScanError in Hk. rewrite Himg in Hk. congruence.
    + apply (Hd k img'); [|done]. revert Hk. unfold setImageScanError.
      destruct (images d !! cacheKey i); [|done].
      destruct (isLayerNotFoundMessage _); [|destruct (isPrivateImageMessage _)];
        cbn; destruct (Step _); cbn; by rewrite lookup_insert_ne.
Qed.

Lemma imageNodesTracked_invariant_witness :
  imageNodesTracked
    (handleDeltas Samples.objectKey
       [(EventAdd, ObjPod Samples.runningPod); (EventDelete, ObjPod Samples.runningPod)]
       (NewDeltaState Samples.unownedSeed)).
Proof.
  apply (proj1 (proj2 (imageNodesTracked_invariant Samples.objectKey))).
  apply (proj1 (imageNodesTracked_invariant Samples.objectKey)).
Defined.

(** ** Placement ([findBestNodeAndMode], [filterWindowsNodes]) *)

Lemma filterWindowsNodes_Some s names filtered :
  filterWindowsNodes s names = Some filtered ->
  forall nm, nm ∈ filtered ->
    nm ∈ names /\ exists n, d_nodes (delta s) !! nm = Some n /\ os n = "linux".
Proof.
  revert filtered. induction names as [|x rest IH]; intros filtered; simpl.
  - intros [= <-] nm Hin. by apply elem_of_nil in Hin.
  - destruct (d_nodes (delta s) !! x) as [n|] eqn:Hn; [|done].
    destruct (filterWindowsNodes s rest) as [out|]; [|done].
    destruct (negb (String.eqb (os n) "linux")) eqn:Hos; intros [= <-] nm Hin.
    + destruct (IH out eq_refl nm Hin) as [? ?]. split; [by right|done].
    + apply elem_of_cons in Hin as [->|Hin].
      * split; [left|]. exists n. split; [done|].
        apply negb_false_iff in Hos. by apply String.eqb_eq.
      * destruct (IH out eq_refl nm Hin) as [? ?]. split; [by right|done].
Qed.

Lemma findBestNode_Ok_candidate sortSlice d nodeNames requiredMemory requiredCPU resolved :
  SliceSorterSpec sortSlice ->
  findBestNode sortSlice d nodeNames requiredMemory requiredCPU = Ok resolved ->
  exists key n,
    key ∈ nodeNames /\ d_nodes d !! key = Some n /\ node_name n = resolved
    /\ fits requiredMemory requiredCPU n = true.
Proof.
  intros Hspec. unfold findBestNode.
  destruct (Nat.eqb (size (d_nodes d)) 0); [done|].
  destruct (Nat.eqb (length _) 0); [done|].
  destruct (sortSlice node bestNodeLess _) as [|n sorted] eqn:Hsort; [done|].
  intros [= <-].
  assert (n ∈ findCandidates d nodeNames requiredMemory requiredCPU) as Hin.
  { rewrite <- (sort_perm _ Hspec node bestNodeLess), Hsort. left. }
  apply findCandidates_elem_of in Hin as (key & ? & ? & ?). by exists key, n.
Qed.

Lemma findBestNode_Err_only sortSlice d nodeNames requiredMemory requiredCPU e :
  findBestNode sortSlice d nodeNames requiredMemory requiredCPU = Err e ->
  e = errNoCandidates.
Proof.
  unfold findBestNode.
  destruct (Nat.eqb (size (d_nodes d)) 0); [by intros [= <-]|].
  destruct (Nat.eqb (length _) 0); [by intros [= <-]|].
  destruct (sortSlice node bestNodeLess _); [by intros [= <-]|done].
Qed.

Section Placement.
Context (sortSlice : SliceSorter).
Context (filterCastAIManagedNodes : deltaState -> list string -> list string).
Context (s : Controller) (img : image).

(** [findBestNodeAndMode], by the candidates it chooses. *)
Lemma findBestNodeAndMode_unfold :
  findBestNodeAndMode sortSlice filterCastAIManagedNodes s img =
  if String.eqb (startMode s img) ModeHostFS then
    if Nat.eqb (length (map_to_list (nodes img)).*1) 0
    then Some (Err (errorNew "image with empty nodes"))
    else if Nat.eqb (length (filterCastAIManagedNodes (delta s)
                               (map_to_list (nodes img)).*1)) 0
         then placeOn sortSlice s ModeRemote (map_to_list (d_nodes (delta s))).*1
         else placeOn sortSlice s (startMode s img)
                (filterCastAIManagedNodes (delta s) (map_to_list (nodes img)).*1)
  else placeOn sortSlice s (startMode s img) (map_to_list (d_nodes (delta s))).*1.
Proof.
  unfold findBestNodeAndMode, placeOn. cbv zeta. fold (startMode s img).
  destruct (String.eqb (startMode s img) ModeHostFS) eqn:Hm;
    [|cbv beta iota; by rewrite Hm].
  destruct (Nat.eqb (length (map_to_list (nodes img)).*1) 0); [reflexivity|].
  destruct (Nat.eqb (length (filterCastAIManagedNodes _ _)) 0);
    cbv beta iota; by rewrite ?Hm.
Qed.

Lemma placeOn_Some mode nodeNames :
  Forall (fun nm => is_Some (d_nodes (delta s) !! nm)) nodeNames ->
  is_Some (placeOn sortSlice s mode nodeNames).
Proof.
  intros Htracked. unfold placeOn.
  destruct (filterWindowsNodes_tracked s nodeNames Htracked) as [names ->].
  destruct (findBestNode _ _ names _ _); [by eexists|].
  destruct (_ && _); [|by eexists].
  destruct (findBestNode _ _ _ _ _); by eexists.
Qed.

Lemma placeOn_Err mode nodeNames e :
  placeOn sortSlice s mode nodeNames = Some (Err e) -> e = errNoCandidates.
Proof.
  unfold placeOn. destruct (filterWindowsNodes s nodeNames) as [names|]; [|done].
  destruct (findBestNode _ _ names _ _) as [|err] eqn:Hfirst; [done|].
  apply findBestNode_Err_only in Hfirst as ->.
  destruct (_ && _); [|by intros [= <-]].
  destruct (findBestNode sortSlice (delta s) (map_to_list (d_nodes (delta s))).*1 _ _)
    as [|err] eqn:Hretry; [done|].
  apply findBestNode_Err_only in Hretry as ->. by intros [= <-].
Qed.

Lemma placeOn_Ok mode nodeNames resolved m :
  SliceSorterSpec sortSlice ->
  placeOn sortSlice s mode nodeNames = Some (Ok (resolved, m)) ->
  (m = mode
   /\ exists key n,
        key ∈ nodeNames /\ d_nodes (delta s) !! key = Some n /\ os n = "linux"
        /\ node_name n = resolved
        /\ fits (MemoryRequest (cfg s)) (CPURequest (cfg s)) n = true)
  \/ (m = ModeRemote /\ mode = ModeHostFS
      /\ exists key n,
           d_nodes (delta s) !! key = Some n /\ node_name n = resolved
           /\ fits (MemoryRequest (cfg s)) (CPURequest (cfg s)) n = true).
Proof.
  intros Hspec. unfold placeOn.
  destruct (filterWindowsNodes s nodeNames) as [names|] eqn:Hnames; [|done].
  destruct (findBestNode _ _ names _ _) as [nm|err] eqn:Hfirst.
  - intros [= <- <-]. left. split; [done|].
    apply findBestNode_Ok_candidate in Hfirst as (key & n & Hin & Hn & Hname & Hfits);
      [|done].
    destruct (filterWindowsNodes_Some s nodeNames names Hnames key Hin)
      as (Hkey & n' & Hn' & Hos).
    exists key, n. repeat split; try done. congruence.
  - destruct (errors_Is (Some err) errNoCandidates) eqn:Herr; [|done].
    destruct (String.eqb mode ModeHostFS) eqn:Hmode; [|done]. cbn [andb].
    destruct (findBestNode sortSlice (delta s) (map_to_list (d_nodes (delta s))).*1 _ _)
      as [nm|err'] eqn:Hretry; [|done].
    intros [= <- <-]. right. apply String.eqb_eq in Hmode.
    split; [done|]. split; [done|].
    apply findBestNode_Ok_candidate in Hretry as (key & n & _ & Hn & Hname & Hfits);
      [|done].
    by exists key, n.
Qed.

End Placement.

Lemma startMode_cases s img :
  (errors_Is (lastScanErr img) errImageScanLayerNotFound = true
   /\ startMode s img = ModeRemote)
  \/ (errors_Is (lastScanErr img) errImageScanLayerNotFound = false
      /\ startMode s img = Mode (cfg s)).
Proof.
  unfold startMode. destruct (errors_Is _ _); [by left|by right].
Qed.

(** X8. On a state in which the nodes of images are tracked nodes,
    [findBestNodeAndMode] does not panic for an image of the state, as long
    as [filterCastAIManagedNodes] only returns names it was given. *)
Theorem findBestNodeAndMode_no_panic sortSlice filterCastAIManagedNodes s k img :
  imageNodesTracked (delta s) ->
  images (delta s) !! k = Some img ->
  (forall d names nm, nm ∈ filterCastAIManagedNodes d names -> nm ∈ names) ->
  is_Some (findBestNodeAndMode sortSlice filterCastAIManagedNodes s img).
Proof.
  intros Htracked Himg Hsub. rewrite findBestNodeAndMode_unfold.
  destruct (String.eqb (startMode s img) ModeHostFS);
    [|apply placeOn_Some, keys_tracked].
  destruct (Nat.eqb (length _) 0); [by eexists|].
  destruct (Nat.eqb (length _) 0); [apply placeOn_Some, keys_tracked|].
  apply placeOn_Some, Forall_forall. intros nm Hnm%Hsub.
  apply (Htracked k img nm Himg).
  apply list_elem_of_fmap in Hnm as ([nm' imgNode] & -> & Hin).
  apply elem_of_map_to_list in Hin. by eexists.
Qed.

Lemma findBestNodeAndMode_no_panic_witness :
  is_Some (findBestNodeAndMode insertionSort Samples.allManaged Samples.placingX
             Samples.imageX).
Proof.
  apply (findBestNodeAndMode_no_panic insertionSort Samples.allManaged Samples.placingX
           (cacheKey Samples.imageX) Samples.imageX).
  - intros k img nm Hk Hnm.
    cbn [Samples.placingX delta images] in Hk.
    apply lookup_singleton_Some in Hk as [_ <-].
    destruct (decide (nm = "a")) as [->|Hne]; [by eexists|].
    cbn in Hnm. rewrite lookup_singleton_ne in Hnm by done. by destruct Hnm.
  - vm_compute. reflexivity.
  - by intros d names nm.
Defined.

(** X9. A placement [findBestNodeAndMode] returns names a tracked node with
    enough memory and CPU left for the configured requests, in remote mode
    or in the configured mode. A placement in host-filesystem mode is on a
    Linux node among those [filterCastAIManagedNodes] kept of the nodes the
    image runs on; and unless host-filesystem mode is configured the node
    is a Linux node. *)
Theorem findBestNodeAndMode_placement sortSlice filterCastAIManagedNodes s img
    resolved mode :
  SliceSorterSpec sortSlice ->
  findBestNodeAndMode sortSlice filterCastAIManagedNodes s img
  = Some (Ok (resolved, mode)) ->
  (exists key n,
     d_nodes (delta s) !! key = Some n /\ node_name n = resolved
     /\ fits (MemoryRequest (cfg s)) (CPURequest (cfg s)) n = true)
  /\ (mode = ModeRemote \/ mode = Mode (cfg s))
  /\ (mode = ModeHostFS ->
      exists key n,
        key ∈ filterCastAIManagedNodes (delta s) (map_to_list (nodes img)).*1
        /\ d_nodes (delta s) !! key = Some n /\ node_name n = resolved
        /\ os n = "linux")
  /\ (Mode (cfg s) <> ModeHostFS ->
      exists key n,
        d_nodes (delta s) !! key = Some n /\ node_name n = resolved /\ os n = "linux").
Proof.
  intros Hspec. rewrite findBestNodeAndMode_unfold.
  assert (ModeRemote <> ModeHostFS) as Hdistinct by done.
  assert (forall m names,
            placeOn sortSlice s m names = Some (Ok (resolved, mode)) ->
            (exists key n,
               d_nodes (delta s) !! key = Some n /\ node_name n = resolved
               /\ fits (MemoryRequest (cfg s)) (CPURequest (cfg s)) n = true)
            /\ (mode = ModeRemote \/ mode = m)
            /\ (mode = ModeHostFS \/ m <> ModeHostFS ->
                mode = m
                /\ exists key n,
                     key ∈ names /\ d_nodes (delta s) !! key = Some n
                     /\ node_name n = resolved /\ os n = "linux")) as Hplace.
  { intros m names Hok.
    apply placeOn_Ok in Hok as [(-> & key & n & Hin & Hn & Hos & Hname & Hfits)
                               |(-> & -> & key & n & Hn & Hname & Hfits)]; [| |done].
    - split; [by exists key, n|]. split; [by right|]. intros _. split; [done|].
      by exists key, n.
    - split; [by exists key, n|]. split; [by left|]. by intros [?|?]. }
  destruct (startMode_cases s img) as [[Hlayer Hstart]|[Hlayer Hstart]]; rewrite Hstart.
  - change (String.eqb ModeRemote ModeHostFS) with false. cbn iota.
    intros (Hnode & Hmode & Hlinux)%Hplace. split; [done|]. split; [tauto|].
    split.
    + intros ->. by destruct (Hlinux (or_intror Hdistinct)) as [? _].
    + intros _. destruct (Hlinux (or_intror Hdistinct)) as (_ & key & n & _ & ? & ? & ?).
      by exists key, n.
  - destruct (String.eqb (Mode (cfg s)) ModeHostFS) eqn:Hcfg.
    + apply String.eqb_eq in Hcfg.
      destruct (Nat.eqb (length _) 0); [done|].
      destruct (Nat.eqb (length _) 0).
      * intros (Hnode & Hmode & Hlinux)%Hplace. split; [done|]. split; [tauto|].
        split; [|done].
        intros ->. by destruct (Hlinux (or_intror Hdistinct)) as [? _].
      * intros (Hnode & Hmode & Hlinux)%Hplace. split; [done|]. split; [tauto|].
        split; [|done].
        intros ->. destruct (Hlinux (or_introl eq_refl)) as (_ & key & n & ? & ? & ? & ?).
        by exists key, n.
    + apply String.eqb_neq in Hcfg.
      intros (Hnode & Hmode & Hlinux)%Hplace. split; [done|]. split; [tauto|].
      destruct (Hlinux (or_intror Hcfg)) as (Heq & key & n & _ & ? & ? & ?).
      split; [intros ->; congruence|]. intros _. by exists key, n.
Qed.

Lemma findBestNodeAndMode_placement_witness :
  exists key n,
    d_nodes (delta Samples.placingX) !! key = Some n /\ node_name n = "a"
    /\ fits (Dec.of_Z 1) (Dec.of_Z 1) n = true.
Proof.
  refine (proj1 (findBestNodeAndMode_placement insertionSort Samples.allManaged
                   Samples.placingX Samples.imageX "a" ModeHostFS insertionSort_spec _)).
  vm_compute. reflexivity.
Defined.

(** X10. The only errors [findBestNodeAndMode] returns are the
    no-candidates error and "image with empty nodes". When host-filesystem
    mode is configured and the last scan did not fail on a missing layer,
    an image that runs on no node gets the latter, with no attempt in
    remote mode. *)
Theorem findBestNodeAndMode_errors sortSlice filterCastAIManagedNodes s img :
  (forall e,
     findBestNodeAndMode sortSlice filterCastAIManagedNodes s img = Some (Err e) ->
     e = errNoCandidates
     \/ (e = errorNew "image with empty nodes"
         /\ Mode (cfg s) = ModeHostFS /\ nodes img = ∅))
  /\ (Mode (cfg s) = ModeHostFS ->
      errors_Is (lastScanErr img) errImageScanLayerNotFound = false ->
      nodes img = ∅ ->
      findBestNodeAndMode sortSlice filterCastAIManagedNodes s img
      = Some (Err (errorNew "image with empty nodes"))).
Proof.
  rewrite findBestNodeAndMode_unfold. split.
  - intros e.
    destruct (String.eqb (startMode s img) ModeHostFS) eqn:Hstart;
      [|intros ?%placeOn_Err; by left].
    destruct (Nat.eqb (length (map_to_list (nodes img)).*1) 0) eqn:Hnone.
    + intros [= <-]. right. split; [done|].
      apply String.eqb_eq in Hstart.
      destruct (startMode_cases s img) as [[_ Hs]|[_ Hs]];
        [rewrite Hs in Hstart; discriminate Hstart|].
      split; [congruence|].
      apply Nat.eqb_eq in Hnone. rewrite length_fmap in Hnone.
      by apply length_zero_iff_nil, map_to_list_empty_iff in Hnone.
    + destruct (Nat.eqb (length (filterCastAIManagedNodes _ _)) 0);
        intros ?%placeOn_Err; by left.
  - intros Hcfg Hlayer Hnodes. unfold startMode. rewrite Hlayer, Hcfg, Hnodes.
    by rewrite map_to_list_empty.
Qed.

Lemma findBestNodeAndMode_errors_witness :
  findBestNodeAndMode insertionSort Samples.allManaged Samples.placingX
    Samples.imageNowhere
  = Some (Err (errorNew "image with empty nodes")).
Proof.
  exact (proj2 (findBestNodeAndMode_errors insertionSort Samples.allManaged
                  Samples.placingX Samples.imageNowhere) eq_refl eq_refl eq_refl).
Defined.

(** ** What a status report commits ([updateImageStatuses]) *)

Lemma imagesToReport_elem_of s k img :
  (k, img) ∈ imagesToReport s <->
  images (delta s) !! k = Some img
  /\ (fullSnapshotSent s = false
      \/ After (ownerChangedAt img) (resourcesUpdatedAt img) = true).
Proof.
  unfold imagesToReport. cbv zeta. destruct (fullSnapshotSent s).
  - rewrite list_elem_of_In, List.filter_In, <- list_elem_of_In, elem_of_map_to_list.
    cbn [snd]. split.
    + intros [? ?]. split; [done|by right].
    + intros [? [?|?]]; [done|]. by split.
  - rewrite elem_of_map_to_list. split; [auto|by intros [? _]].
Qed.

Lemma fold_alter_lookup (f : image -> image) (l : list (string * image)) :
  (forall img, f (f img) = f img) ->
  forall (m : gmap string image) k,
    fold_left (fun m item => alter f item.1 m) l m !! k
    = if decide (k ∈ l.*1) then f <$> m !! k else m !! k.
Proof.
  intros Hidem. induction l as [|[k0 img0] l IH]; intros m k; cbn [fold_left].
  - destruct (decide (k ∈ ([] : list (string * image)).*1)) as [Hin|];
      [by apply elem_of_nil in Hin|done].
  - rewrite IH, fmap_cons. cbn [fst].
    destruct (decide (k ∈ l.*1)) as [Hin|Hnotin].
    + rewrite decide_True by (apply elem_of_cons; by right).
      destruct (decide (k0 = k)) as [->|Hne].
      * rewrite lookup_alter_eq. destruct (m !! k); simpl; [by rewrite Hidem|done].
      * by rewrite lookup_alter_ne.
    + destruct (decide (k0 = k)) as [->|Hne].
      * rewrite lookup_alter_eq. rewrite decide_True by (apply elem_of_cons; by left). done.
      * rewrite lookup_alter_ne by done. rewrite decide_False; [done|].
        intros [?|?]%elem_of_cons; done.
Qed.

(** The controller after a report the client took. *)
Lemma updateImageStatuses_stamps UpdateImageStatus now s report :
  let r := updateImageStatuses UpdateImageStatus now s in
  su_report r = Some report -> su_err r = None ->
  fullSnapshotSent (su_controller r) = true
  /\ cfg (su_controller r) = cfg s
  /\ delta (su_controller r) = set_images (images (delta (su_controller r))) (delta s)
  /\ forall k,
       images (delta (su_controller r)) !! k
       = if decide (k ∈ (imagesToReport s).*1)
         then set_resourcesUpdatedAt now <$> images (delta s) !! k
         else images (delta s) !! k.
Proof.
  intros r. unfold r, updateImageStatuses.
  destruct (Nat.eqb (length (imagesToReport s)) 0); [done|].
  destruct (UpdateImageStatus _); [done|]. cbn. intros _ _.
  split; [done|]. split; [done|]. split; [done|].
  intros k. by rewrite fold_alter_lookup.
Qed.

(** X11. [updateImageStatuses] changes the controller only when a report
    was sent and the client took it. Then the flag [fullSnapshotSent] is
    set, every reported image carries the time of the call as
    [resourcesUpdatedAt], and every other image, every other field of the
    images and the rest of the delta state are as before. *)
Theorem updateImageStatuses_commit UpdateImageStatus now s :
  let r := updateImageStatuses UpdateImageStatus now s in
  (su_err r <> None \/ su_report r = None -> su_controller r = s)
  /\ (forall report, su_report r = Some report -> su_err r = None ->
        fullSnapshotSent (su_controller r) = true
        /\ cfg (su_controller r) = cfg s
        /\ delta (su_controller r)
           = set_images (images (delta (su_controller r))) (delta s)
        /\ forall k,
             images (delta (su_controller r)) !! k
             = if decide (k ∈ (imagesToReport s).*1)
               then set_resourcesUpdatedAt now <$> images (delta s) !! k
               else images (delta s) !! k).
Proof.
  intros r. split; [apply updateImageStatuses_unsent|].
  intros report. apply updateImageStatuses_stamps.
Qed.

Lemma updateImageStatuses_commit_witness :
  fullSnapshotSent
    (su_controller
       (updateImageStatuses Samples.clientOk 100
          (mkController Samples.trackingXY Samples.scanConfig false))) = true.
Proof.
  destruct (proj2 (updateImageStatuses_commit Samples.clientOk 100
                     (mkController Samples.trackingXY Samples.scanConfig false))
              (mkUpdateImagesStatusRequest false
                 (List.map (fun item => imageChange 100 item.2)
                    (imagesToReport
                       (mkController Samples.trackingXY Samples.scanConfig false)))))
    as (Hflag & _).
  - vm_compute. reflexivity.
  - vm_compute. reflexivity.
  - exact Hflag.
Defined.

(** X12. After a report the client took at time [now], the images a
    following call has to report are exactly the images of that report
    whose [ownerChangedAt] stamp is later than [now], each with
    [resourcesUpdatedAt] set to [now]: what was reported is not reported
    again unless its stamp is later than the report, and what was left out
    stays out. So when no tracked image carries a stamp later than [now],
    a second call sends nothing and changes nothing. *)
Theorem updateImageStatuses_not_repeated UpdateImageStatus now s report :
  let r := updateImageStatuses UpdateImageStatus now s in
  su_report r = Some report -> su_err r = None ->
  (forall k img',
     (k, img') ∈ imagesToReport (su_controller r)
     <-> exists img,
           (k, img) ∈ imagesToReport s
           /\ now < ownerChangedAt img
           /\ img' = set_resourcesUpdatedAt now img)
  /\ ((forall k img, images (delta s) !! k = Some img -> ownerChangedAt img <= now) ->
      forall UpdateImageStatus' now',
        updateImageStatuses UpdateImageStatus' now' (su_controller r)
        = mkStatusUpdate (su_controller r) None None).
Proof.
  intros r Hreport Herr.
  destruct (updateImageStatuses_stamps UpdateImageStatus now s report Hreport Herr)
    as (Hflag & _ & _ & Himages). fold r in Hflag, Himages.
  assert (forall k img',
            (k, img') ∈ imagesToReport (su_controller r)
            <-> exists img,
                  (k, img) ∈ imagesToReport s
                  /\ now < ownerChangedAt img
                  /\ img' = set_resourcesUpdatedAt now img) as Hiff.
  { intros k img'. rewrite imagesToReport_elem_of, Hflag, Himages. split.
    - intros [Hk [?|Hafter]]; [done|].
      destruct (decide (k ∈ (imagesToReport s).*1)) as [Hwas|Hnot].
      + destruct (images (delta s) !! k) as [img|] eqn:Hold; [|done].
        injection Hk as <-. exists img.
        apply list_elem_of_fmap in Hwas as ([k0 img0] & -> & Hin).
        pose proof Hin as Hin'. apply imagesToReport_elem_of in Hin' as [Hk0 _].
        cbn [fst] in Hold. rewrite Hold in Hk0. injection Hk0 as <-.
        split; [done|]. split; [|done].
        unfold After in Hafter. cbn in Hafter. by apply Z.ltb_lt.
      + exfalso. apply Hnot, list_elem_of_fmap. exists (k, img'). split; [done|].
        apply imagesToReport_elem_of. split; [done|]. by right.
    - intros (img & Hin & Hlater & ->).
      assert (k ∈ (imagesToReport s).*1) as Hwas
        by (apply list_elem_of_fmap; by exists (k, img)).
      rewrite decide_True by done.
      apply imagesToReport_elem_of in Hin as [-> _]. split; [done|]. right.
      unfold After. cbn. by apply Z.ltb_lt. }
  split; [exact Hiff|].
  intros Hstamps UpdateImageStatus' now'.
  assert (imagesToReport (su_controller r) = []) as Hnone.
  { apply elem_of_nil_inv. intros [k img'] (img & Hin & Hlater & _)%Hiff.
    apply imagesToReport_elem_of in Hin as [Hk _].
    specialize (Hstamps k img Hk). lia. }
  unfold updateImageStatuses. by rewrite Hnone.
Qed.

(** Both images are reported at time 20; the owners of [imageX] are stamped
    as changed at time 50, so it is due again, stamped as reported at 20. *)
Lemma updateImageStatuses_not_repeated_witness :
  (cacheKey Samples.imageXChanged, set_resourcesUpdatedAt 20 Samples.imageXChanged)
  ∈ imagesToReport (su_controller (updateImageStatuses Samples.clientOk 20
                                     Samples.reportingXY)).
Proof.
  apply (proj1 (updateImageStatuses_not_repeated Samples.clientOk 20 Samples.reportingXY
                  (mkUpdateImagesStatusRequest false
                     (List.map (fun item => imageChange 20 item.2)
                        (imagesToReport Samples.reportingXY)))
                  ltac:(vm_compute; reflexivity) ltac:(vm_compute; reflexivity))).
  exists Samples.imageXChanged. split; [|split; [|reflexivity]].
  - apply imagesToReport_elem_of. split; [vm_compute; reflexivity|by left].
  - cbn. lia.
Defined.

(** ** The budget of one round of scans ([scheduleScans]) *)

Lemma getImages_elem_of d img :
  img ∈ getImages d <-> exists k, images d !! k = Some img.
Proof. apply values_elem_of. Qed.

(** X13. The cut [imagesForScan[:concurrentScans]] of [scheduleScans]
    panics exactly when the budget is negative, with or without pending
    images. Otherwise the images handed to [scanImages] are at most as many
    as the budget, at most one on a cluster of one node, and each of them
    is a tracked image that is pending. *)
Theorem imagesForScan_bounds sortSlice now s :
  SliceSorterSpec sortSlice ->
  (imagesForScan sortSlice now s = None <-> concurrentScansNumber s < 0)
  /\ (forall selected,
        imagesForScan sortSlice now s = Some selected ->
        Z.of_nat (length selected) <= concurrentScansNumber s
        /\ (size (d_nodes (delta s)) = 1%nat -> (length selected <= 1)%nat)
        /\ forall img, img ∈ selected ->
             isImagePending img now = true
             /\ exists k, images (delta s) !! k = Some img).
Proof.
  intros Hspec.
  pose proof (sort_perm _ Hspec image failuresLess
                (List.filter (fun v => isImagePending v now) (getImages (delta s))))
    as Hperm.
  unfold imagesForScan, findPendingImages.
  set (sorted := sortSlice image failuresLess _) in *.
  split.
  - destruct (concurrentScansNumber s <? Z.of_nat (length sorted)) eqn:Hlt;
      [destruct (concurrentScansNumber s <? 0) eqn:Hneg|].
    + apply Z.ltb_lt in Hneg. done.
    + apply Z.ltb_ge in Hneg. split; [done|lia].
    + apply Z.ltb_ge in Hlt. split; [done|lia].
  - intros selected Hsel.
    assert (Z.of_nat (length selected) <= concurrentScansNumber s
            /\ forall img, img ∈ selected -> img ∈ sorted) as [Hlen Hsub].
    { destruct (concurrentScansNumber s <? Z.of_nat (length sorted)) eqn:Hlt.
      - destruct (concurrentScansNumber s <? 0) eqn:Hneg; [done|].
        apply Z.ltb_ge in Hneg. injection Hsel as <-. split.
        + rewrite length_take. lia.
        + intros img Hin. by apply (subseteq_take (Z.to_nat (concurrentScansNumber s))).
      - apply Z.ltb_ge in Hlt. injection Hsel as <-. done. }
    split; [done|]. split.
    + intros Hone. unfold concurrentScansNumber, nodeCount in Hlen.
      rewrite Hone in Hlen. change (Z.of_nat 1 =? 1) with true in Hlen.
      cbv iota in Hlen. lia.
    + intros img Hin. apply Hsub in Hin. rewrite Hperm in Hin.
      apply list_elem_of_In, List.filter_In in Hin as [Hin Hpending].
      split; [done|]. by apply getImages_elem_of, list_elem_of_In.
Qed.

Lemma imagesForScan_bounds_witness :
  Z.of_nat (length (take 3 (findPendingImages insertionSort 100 Samples.controllerAB)))
  <= concurrentScansNumber Samples.controllerAB.
Proof.
  refine (proj1 (proj2 (imagesForScan_bounds insertionSort 100 Samples.controllerAB
                          insertionSort_spec) _ _)).
  vm_compute. reflexivity.
Defined.

(** ** What the delete of a pod leaves behind ([handlePodDelete]) *)

Lemma handlePodDelete_image_Some pod ownerResourceID img img' :
  handlePodDelete_image pod ownerResourceID img = Some img' ->
  nodes img'
  = match nodes img !! NodeName (Spec pod) with
    | Some n =>
        <[NodeName (Spec pod) := mkImageNode (node_podIDs n ∖ {[UID (pod_Meta pod)]})]>
          (nodes img)
    | None => nodes img
    end
  /\ owners img'
     = match owners img !! ownerResourceID with
       | Some owner =>
           if Nat.eqb (size (owner_podIDs owner ∖ {[UID (pod_Meta pod)]})) 0
           then delete ownerResourceID (owners img)
           else <[ownerResourceID :=
                    mkImageOwner (owner_podIDs owner ∖ {[UID (pod_Meta pod)]})]> (owners img)
       | None => owners img
       end.
Proof.
  unfold handlePodDelete_image. cbv zeta.
  destruct (Nat.eqb _ 0 && Nat.eqb _ 0); [done|]. intros [= <-].
  destruct (nodes img !! NodeName (Spec pod)); cbn [owners set_nodes];
    destruct (owners img !! ownerResourceID) as [owner|]; try done;
    destruct (Nat.eqb (size (owner_podIDs owner ∖ {[UID (pod_Meta pod)]})) 0);
    try done;
    match goal with
    | |- context [if scanned ?x then _ else _] => destruct (scanned x)
    end; done.
Qed.

Lemma handlePodDelete_image_nodes pod ownerResourceID img :
  nodes img <> ∅ -> is_Some (handlePodDelete_image pod ownerResourceID img).
Proof.
  intros Hne. unfold handlePodDelete_image. cbv zeta.
  match goal with
  | |- is_Some (if Nat.eqb (size (nodes ?i)) 0 && _ then _ else _) =>
      assert (nodes i <> ∅) as Hkept
  end.
  { destruct (nodes img !! NodeName (Spec pod)) as [n|] eqn:Hn; cbn [owners set_nodes];
      destruct (owners img !! ownerResourceID) as [owner|];
      try destruct (Nat.eqb (size (owner_podIDs owner ∖ {[UID (pod_Meta pod)]})) 0);
      try match goal with
          | |- context [if scanned ?x then _ else _] => destruct (scanned x)
          end;
      cbn [nodes set_nodes set_owners set_ownerChanges]; try done;
      apply insert_non_empty. }
  apply map_size_non_empty_iff, Nat.eqb_neq in Hkept. by rewrite Hkept.
Qed.

(** X14. After the delete of a pod no image lists the pod any more, on the
    pod's node or behind the pod's owner, and an owner left without pods is
    taken off the image; the other owners and nodes of the images are as
    before. The reservation of the pod on its node is gone, and no node is
    added or dropped. An image recorded on some node is never dropped by
    the delete of a pod: its node entries stay, even with no pod left. *)
Theorem handlePodDelete_forgets_pod (pod : Pod) (d : deltaState) :
  let d' := handlePodDelete pod d in
  let ownerResourceID := getPodOwnerID pod (rs d) (jobs d) in
  let podID := UID (pod_Meta pod) in
  (forall k img',
     images d' !! k = Some img' ->
     (forall n, nodes img' !! NodeName (Spec pod) = Some n -> podID ∉ node_podIDs n)
     /\ (forall owner, owners img' !! ownerResourceID = Some owner ->
                       (podID ∉ owner_podIDs owner) /\ owner_podIDs owner <> ∅)
     /\ exists img,
          images d !! k = Some img
          /\ (forall nm, nm <> NodeName (Spec pod) -> nodes img' !! nm = nodes img !! nm)
          /\ (forall o, o <> ownerResourceID -> owners img' !! o = owners img !! o))
  /\ (forall n', d_nodes d' !! NodeName (Spec pod) = Some n' -> pods n' !! podID = None)
  /\ (forall nm, is_Some (d_nodes d' !! nm) <-> is_Some (d_nodes d !! nm))
  /\ (forall k img,
        images d !! k = Some img -> nodes img <> ∅ ->
        exists img', images d' !! k = Some img' /\ dom (nodes img') = dom (nodes img)).
Proof.
  intros d' ownerResourceID podID. split; [|split; [|split]].
  - intros k img' Hk. unfold d' in Hk. rewrite handlePodDelete_images in Hk.
    apply lookup_omap_Some in Hk as (img & Himg & Hk).
    apply handlePodDelete_image_Some in Himg as [Hnodes Howners].
    fold ownerResourceID podID in Howners. fold podID in Hnodes.
    split; [|split].
    + intros n. rewrite Hnodes.
      destruct (nodes img !! NodeName (Spec pod)) as [n0|] eqn:Hn0.
      * rewrite lookup_insert_eq. intros [= <-]. cbn. set_solver.
      * by rewrite Hn0.
    + intros owner. rewrite Howners.
      destruct (owners img !! ownerResourceID) as [o|] eqn:Ho.
      * destruct (Nat.eqb (size (owner_podIDs o ∖ {[podID]})) 0) eqn:Hsize.
        -- by rewrite lookup_delete_eq.
        -- rewrite lookup_insert_eq. intros [= <-]. cbn. split; [set_solver|].
           apply Nat.eqb_neq in Hsize. intros Hempty. apply Hsize.
           rewrite Hempty. apply size_empty.
      * by rewrite Ho.
    + exists img. split; [done|]. split.
      * intros nm Hnm. rewrite Hnodes.
        destruct (nodes img !! NodeName (Spec pod)); [|done].
        by rewrite lookup_insert_ne.
      * intros o Ho. rewrite Howners.
        destruct (owners img !! ownerResourceID); [|done].
        destruct (Nat.eqb _ 0); [by rewrite lookup_delete_ne|by rewrite lookup_insert_ne].
  - intros n'. unfold d', handlePodDelete. cbv zeta. cbn [d_nodes set_images].
    destruct (d_nodes d !! NodeName (Spec pod)) as [n|] eqn:Hn.
    + cbn [d_nodes set_d_nodes]. rewrite lookup_insert_eq. intros [= <-].
      cbn. apply lookup_delete_eq.
    + cbn [d_nodes set_images]. by rewrite Hn.
  - intros nm. unfold d', handlePodDelete. cbv zeta. cbn [d_nodes set_images].
    destruct (d_nodes d !! NodeName (Spec pod)) as [n|] eqn:Hn; [|done].
    cbn [d_nodes set_d_nodes].
    destruct (decide (NodeName (Spec pod) = nm)) as [Heq|Hne].
    + rewrite <- Heq, lookup_insert_eq, Hn. done.
    + by rewrite lookup_insert_ne.
  - intros k img Hk Hne. unfold d'. rewrite handlePodDelete_images.
    destruct (handlePodDelete_image_nodes pod ownerResourceID img Hne) as [img' Himg].
    exists img'. split.
    + apply lookup_omap_Some. by exists img.
    + apply handlePodDelete_image_Some in Himg as [-> _].
      destruct (nodes img !! NodeName (Spec pod)) as [n|] eqn:Hn; [|done].
      rewrite dom_insert_L. apply elem_of_dom_2 in Hn. set_solver.
Qed.

Lemma handlePodDelete_forgets_pod_witness :
  exists img',
    images (handlePodDelete Samples.runningPod Samples.trackingX)
      !! cacheKey Samples.imageX = Some img'
    /\ dom (nodes img') = dom (nodes Samples.imageX).
Proof.
  apply (handlePodDelete_forgets_pod Samples.runningPod Samples.trackingX).
  - vm_compute. reflexivity.
  - vm_compute. discriminate.
Defined.

(** ** What the delete of a node leaves behind ([handleNodeDelete]) *)

(** X15. After the delete of a node the node is not tracked and no image
    lists it; the other nodes, and the images apart from that entry, are as
    before. An image is dropped exactly when it has no owner and was on no
    other node. The reservations on the node are forgotten with it: when
    the node comes back it has no pods, so all of its allocatable CPU and
    memory is available, whatever still runs on it. *)
Theorem handleNodeDelete_forgets_node (v : Node) (d : deltaState) :
  let nm := Name (node_Meta v) in
  let d' := handleNodeDelete v d in
  d_nodes d' !! nm = None
  /\ (forall other, other <> nm -> d_nodes d' !! other = d_nodes d !! other)
  /\ (forall k img',
        images d' !! k = Some img' ->
        nodes img' !! nm = None
        /\ exists img, images d !! k = Some img
                       /\ img' = set_nodes (delete nm (nodes img)) img)
  /\ (forall k img,
        images d !! k = Some img ->
        images d' !! k = None
        <-> owners img = ∅ /\ forall other, other <> nm -> nodes img !! other = None)
  /\ (exists n',
        d_nodes (updateNodeUsage v d') !! nm = Some n'
        /\ pods n' = ∅
        /\ availableCPU n' = Dec.Add Dec.zero (Allocatable_Cpu v)
        /\ availableMemory n' = Dec.Add Dec.zero (Allocatable_Memory v)).
Proof.
  intros nm d'. split; [|split; [|split; [|split]]].
  - unfold d', handleNodeDelete. cbv zeta. cbn [d_nodes set_images set_d_nodes].
    apply lookup_delete_eq.
  - intros other Hne. unfold d', handleNodeDelete. cbv zeta.
    cbn [d_nodes set_images set_d_nodes]. by apply lookup_delete_ne.
  - intros k img'. unfold d', handleNodeDelete. cbv zeta. cbn [images set_images].
    intros (img & Himg & Hk)%lookup_omap_Some.
    change (images d !! k = Some img) in Hk.
    unfold handleNodeDelete_image in Himg. cbv zeta in Himg.
    destruct (isUnused _) in Himg; [done|]. injection Himg as <-.
    split; [apply lookup_delete_eq|]. by exists img.
  - intros k img Hk. unfold d', handleNodeDelete. cbv zeta. cbn [images set_images].
    rewrite lookup_omap. cbn [images set_d_nodes]. rewrite Hk.
    cbn [mbind option_bind]. fold nm.
    unfold handleNodeDelete_image, isUnused. cbv zeta.
    cbn [nodes owners set_nodes].
    destruct (Nat.eqb (size (delete nm (nodes img))) 0) eqn:Hn;
      destruct (Nat.eqb (size (owners img)) 0) eqn:Ho; cbn [andb].
    + apply Nat.eqb_eq, map_size_empty_iff in Hn, Ho. split; [intros _|done].
      split; [done|]. intros other Hne.
      rewrite <- (lookup_delete_ne (nodes img) nm other) by done.
      by rewrite Hn.
    + apply Nat.eqb_neq in Ho. split; [done|]. intros [Hnone _]. exfalso.
      apply Ho, map_size_empty_iff, Hnone.
    + apply Nat.eqb_neq in Hn. split; [done|]. intros [_ Hnone]. exfalso.
      apply Hn, map_size_empty_iff, map_eq. intros other.
      rewrite lookup_empty. destruct (decide (nm = other)) as [<-|Hne].
      * apply lookup_delete_eq.
      * rewrite lookup_delete_ne by done. by apply Hnone.
    + apply Nat.eqb_neq in Ho. split; [done|]. intros [Hnone _]. exfalso.
      apply Ho, map_size_empty_iff, Hnone.
  - unfold updateNodeUsage. cbv zeta. fold nm.
    assert (d_nodes d' !! nm = None) as ->.
    { unfold d', handleNodeDelete. cbv zeta. cbn [d_nodes set_images set_d_nodes].
      apply lookup_delete_eq. }
    cbn [d_nodes set_d_nodes]. rewrite lookup_insert_eq. eexists. split; [done|].
    cbn [pods]. split; [done|].
    unfold availableCPU, availableMemory. cbn [pods allocatableCPU allocatableMem].
    by rewrite !map_fold_empty.
Qed.

Lemma handleNodeDelete_forgets_node_witness :
  images (handleNodeDelete Samples.nodeObjA Samples.trackingX)
    !! cacheKey Samples.imageX = None
  <-> owners Samples.imageX = ∅
      /\ forall other, other <> "a" -> nodes Samples.imageX !! other = None.
Proof.
  apply (handleNodeDelete_forgets_node Samples.nodeObjA Samples.trackingX).
  vm_compute. reflexivity.
Defined.

(** ** A failed scan waits for its retry ([setImageScanError]) *)

Lemma Step_delay (b : Backoff) : (Step b).1 = Duration b.
Proof.
  unfold Step. destruct (Steps b <? 1); [done|].
  destruct (Factor b =? 0); [done|]. by destruct (_ && _).
Qed.

(** X16. [setImageScanError] looks the image up by the cache key of the
    image it is given and does nothing when that key is not tracked; it
    leaves every other image, the nodes, the ReplicaSets and the Jobs as
    they are. For a tracked image, a call after the zero time with a
    backoff that is not negative sets the next scan to the time of the call
    plus the current backoff, and until then the image is not pending,
    whatever the error was. *)
Theorem setImageScanError_defers i err now d :
  let d' := setImageScanError i err now d in
  (images d !! cacheKey i = None -> d' = d)
  /\ (forall k, k <> cacheKey i -> images d' !! k = images d !! k)
  /\ (d_nodes d' = d_nodes d /\ rs d' = rs d /\ jobs d' = jobs d)
  /\ (forall img,
        images d !! cacheKey i = Some img ->
        0 < now -> 0 <= Duration (retryBackoff img) ->
        exists img',
          images d' !! cacheKey i = Some img'
          /\ nextScan img' = now + Duration (retryBackoff img)
          /\ forall t, t <= nextScan img' -> isImagePending img' t = false).
Proof.
  intros d'. split; [|split; [|split]].
  - intros Hnone. unfold d', setImageScanError. by rewrite Hnone.
  - intros k Hne. unfold d', setImageScanError.
    destruct (images d !! cacheKey i) as [img|]; [|done].
    destruct (isLayerNotFoundMessage (Error err));
      [|destruct (isPrivateImageMessage (Error err))];
      cbv beta iota; destruct (Step _) as [delay b];
      cbn [images set_images set_hostFSDisabled]; by rewrite lookup_insert_ne.
  - unfold d', setImageScanError.
    destruct (images d !! cacheKey i) as [img|]; [|done].
    destruct (isLayerNotFoundMessage (Error err));
      [|destruct (isPrivateImageMessage (Error err))];
      cbv beta iota; destruct (Step _) as [delay b]; done.
  - intros img Himg Hnow Hdur.
    destruct (setImageScanError_lookup d i err now img Himg)
      as (img' & Hl & _ & Hn & _).
    rewrite Step_delay in Hn. exists img'. split; [done|]. split; [done|].
    intros t Ht. unfold isImagePending, IsZero, Before.
    replace (nextScan img' =? 0) with false by (symmetry; apply Z.eqb_neq; lia).
    replace (nextScan img' <? t) with false by (symmetry; apply Z.ltb_ge; lia).
    by rewrite andb_false_r.
Qed.

Lemma setImageScanError_defers_witness :
  exists img',
    images (setImageScanError Samples.imageX (errorNew "timeout") 100 Samples.trackingX)
      !! cacheKey Samples.imageX = Some img'
    /\ nextScan img' = 100 + Duration (retryBackoff Samples.imageX)
    /\ forall t, t <= nextScan img' -> isImagePending img' t = false.
Proof.
  apply (setImageScanError_defers Samples.imageX (errorNew "timeout") 100 Samples.trackingX).
  - vm_compute. reflexivity.
  - lia.
  - vm_compute. discriminate.
Defined.

(** ** Owners of the other kinds ([kube.GetPodOwnerID]) *)

(** X17. For a pod whose first owner reference is a DaemonSet or a
    StatefulSet, [GetPodOwnerID] returns the UID of the reference. For a
    Job: the first CronJob among the owner references of the cached Job,
    else the UID of the cached Job, and the UID of the pod when the Job is
    not cached. For a reference of any other kind it returns the UID of the
    pod, where [getPodOwnerID] of delta.go returns the UID of the
    reference. *)
Theorem GetPodOwnerID_other_kinds c pod ref refs :
  OwnerReferences (pod_Meta pod) = ref :: refs ->
  let owner := kube.GetPodOwnerID c pod in
  let isCronJob := fun r : OwnerReference => String.eqb (Kind r) "CronJob" in
  (Kind ref = "DaemonSet" \/ Kind ref = "StatefulSet" -> owner = ref_UID ref)
  /\ (Kind ref = "Job" ->
      (kube.jobs c !! ref_UID ref = None -> owner = UID (pod_Meta pod))
      /\ forall job,
           kube.jobs c !! ref_UID ref = Some job ->
           (forall cronJob,
              List.find isCronJob (OwnerReferences (job_Meta job)) = Some cronJob ->
              owner = ref_UID cronJob)
           /\ (List.find isCronJob (OwnerReferences (job_Meta job)) = None ->
               owner = UID (job_Meta job)))
  /\ (Kind ref <> "DaemonSet" -> Kind ref <> "StatefulSet" ->
      Kind ref <> "ReplicaSet" -> Kind ref <> "Job" ->
      owner = UID (pod_Meta pod)
      /\ forall rsMap jobsMap, getPodOwnerID pod rsMap jobsMap = ref_UID ref).
Proof.
  intros Hrefs owner isCronJob. split; [|split].
  - intros Hkind. unfold owner, kube.GetPodOwnerID. rewrite Hrefs.
    destruct Hkind as [-> | ->]; done.
  - intros Hkind.
    assert (owner = match kube.jobs c !! ref_UID ref with
                    | Some job =>
                        let next := kube.findNextOwnerID (job_Meta job) "CronJob" in
                        if next.2 then next.1 else UID (job_Meta job)
                    | None => UID (pod_Meta pod)
                    end) as Howner.
    { unfold owner, kube.GetPodOwnerID. rewrite Hrefs, Hkind. reflexivity. }
    split.
    + intros Hnone. by rewrite Howner, Hnone.
    + intros job Hjob. rewrite Howner, Hjob. cbv zeta. unfold kube.findNextOwnerID.
      fold isCronJob.
      destruct (OwnerReferences (job_Meta job)) as [|r rest] eqn:Hr.
      * split; [done|]. done.
      * split.
        -- intros cronJob Hfind. by rewrite Hfind.
        -- intros Hfind. by rewrite Hfind.
  - intros Hds Hss Hrs Hjob.
    apply String.eqb_neq in Hds, Hss, Hrs, Hjob. split.
    + unfold owner, kube.GetPodOwnerID. by rewrite Hrefs, Hds, Hss, Hrs, Hjob.
    + intros rsMap jobsMap. unfold getPodOwnerID. by rewrite Hrefs, Hrs, Hjob.
Qed.

Lemma GetPodOwnerID_other_kinds_witness :
  kube.GetPodOwnerID Samples.jobCache Samples.podOfJob = "cron-1".
Proof.
  refine (proj1 (proj2 (proj1 (proj2 (GetPodOwnerID_other_kinds Samples.jobCache
                                        Samples.podOfJob
                                        (mkOwnerReference "Job" "job-1") [] eq_refl))
                          eq_refl)
                   Samples.nightlyJob _)
            (mkOwnerReference "CronJob" "cron-1") _).
  - vm_compute. reflexivity.
  - vm_compute. reflexivity.
Defined.

(** ** The caches of the kube controller *)

Lemma handleEvent_keyedByUID c item : keyedByUID c -> keyedByUID (handleEvent c item).
Proof.
  intros (Hrs & Hdep & Hjob). destruct item as [ev [v|v|v|m]];
    destruct ev; unfold handleEvent, keyedByUID;
    cbn [fst snd handleDeltaUpsert handleDeltaDelete
         kube.replicaSets kube.deployments kube.jobs];
    try done; (split; [|split]); try done; intros k v';
    try (intros [[<- <-]|[_ Hk]]%lookup_insert_Some; [done|eauto]);
    intros [_ Hk]%lookup_delete_Some; eauto.
Qed.

(** X18. The caches of the kube controller hold every ReplicaSet,
    Deployment and Job under its own UID, from the empty caches on and
    through every add, update and delete. So after the delete of an object
    no cached object of its kind has its UID, and a pod of a cached
    ReplicaSet without owner references is owned by the UID its reference
    names. An event for an object of another kind leaves the caches as
    they are. *)
Theorem caches_keyed_by_UID :
  keyedByUID (kube.mkController ∅ ∅ ∅)
  /\ (forall items c, keyedByUID c -> keyedByUID (fold_left handleEvent items c))
  /\ (forall c, keyedByUID c ->
        (forall v k rs,
           kube.replicaSets (handleDeltaDelete (KubeReplicaSet v) c) !! k = Some rs ->
           UID (rs_Meta rs) <> UID (rs_Meta v))
        /\ (forall v k dep,
              kube.deployments (handleDeltaDelete (KubeDeployment v) c) !! k = Some dep ->
              UID (dep_Meta dep) <> UID (dep_Meta v))
        /\ (forall v k job,
              kube.jobs (handleDeltaDelete (KubeJob v) c) !! k = Some job ->
              UID (job_Meta job) <> UID (job_Meta v))
        /\ (forall pod ref refs rs,
              OwnerReferences (pod_Meta pod) = ref :: refs ->
              Kind ref = "ReplicaSet" ->
              kube.replicaSets c !! ref_UID ref = Some rs ->
              OwnerReferences (rs_Meta rs) = [] ->
              kube.GetPodOwnerID c pod = ref_UID ref))
  /\ (forall ev m c, handleEvent c (ev, KubeOther m) = c).
Proof.
  split; [|split; [|split]].
  - unfold keyedByUID. cbn. by setoid_rewrite lookup_empty.
  - induction items as [|item items IH]; intros c Hc; [done|].
    cbn [fold_left]. by apply IH, handleEvent_keyedByUID.
  - intros c (Hrs & Hdep & Hjob). split; [|split; [|split]].
    + intros v k rs. cbn [handleDeltaDelete kube.replicaSets].
      intros [Hne Hk]%lookup_delete_Some. apply Hrs in Hk. congruence.
    + intros v k dep. cbn [handleDeltaDelete kube.deployments].
      intros [Hne Hk]%lookup_delete_Some. apply Hdep in Hk. congruence.
    + intros v k job. cbn [handleDeltaDelete kube.jobs].
      intros [Hne Hk]%lookup_delete_Some. apply Hjob in Hk. congruence.
    + intros pod ref refs rs Hrefs Hkind Hcached Hbare.
      unfold kube.GetPodOwnerID. rewrite Hrefs, Hkind.
      change (String.eqb "ReplicaSet" "DaemonSet") with false.
      change (String.eqb "ReplicaSet" "StatefulSet") with false.
      change (String.eqb "ReplicaSet" "ReplicaSet") with true.
      cbv beta iota zeta. cbn [orb]. rewrite Hcached.
      unfold kube.findNextOwnerID. rewrite Hbare. cbn [fst snd].
      by apply Hrs.
  - by intros [] m c.
Qed.

Lemma caches_keyed_by_UID_witness :
  kube.GetPodOwnerID
    (fold_left handleEvent
       [(EventAdd, KubeDeployment Samples.webDeployment);
        (EventAdd, KubeReplicaSet Samples.bareRS)]
       (kube.mkController ∅ ∅ ∅))
    Samples.podOfRS
  = "rs-1".
Proof.
  refine (proj2 (proj2 (proj2 (proj1 (proj2 (proj2 caches_keyed_by_UID))
                                 _ _)))
            Samples.podOfRS (mkOwnerReference "ReplicaSet" "rs-1") [] Samples.bareRS
            eq_refl eq_refl _ eq_refl).
  - apply (proj1 (proj2 caches_keyed_by_UID)). apply (proj1 caches_keyed_by_UID).
  - vm_compute. reflexivity.
Defined.

(** ** The runtime of a container ([getContainerRuntime]) *)

Lemma prefix_empty (s : string) : String.prefix "" s = true.
Proof. by destruct s. Qed.

Lemma split_go_nonempty sep s : forall skip cur, split_go sep s skip cur <> [].
Proof.
  induction s as [|c s IH]; intros skip cur; cbn [split_go]; [done|].
  destruct skip; [|apply IH]. destruct (String.prefix sep (String c s)); [done|apply IH].
Qed.

(** Without a separator in it, the rest of the string is one piece. *)
Lemma split_go_one c0 sep s : forall cur b,
  split_go (String c0 sep) s 0 cur = [b] <->
  b = string_of_list_ascii (rev cur ++ list_ascii_of_string s)
  /\ strings_Contains s (String c0 sep) = false.
Proof.
  induction s as [|c s IH]; intros cur b; cbn [split_go strings_Contains list_ascii_of_string].
  - rewrite app_nil_r. cbn [String.prefix orb]. split; [by intros [= <-]|by intros [-> _]].
  - destruct (String.prefix (String c0 sep) (String c s)) eqn:Hp; cbn [orb].
    + split; [|by intros [_ ?]].
      intros [= _ Hrest]. by apply split_go_nonempty in Hrest.
    + rewrite IH. cbn [rev]. by rewrite <- app_assoc.
Qed.

(** The characters of a separator that was found are dropped. *)
Lemma split_go_skip sep x post : forall cur,
  split_go sep (x +:+ post) (String.length x) cur = split_go sep post 0 cur.
Proof.
  induction x as [|c x IH]; intros cur; [done|].
  rewrite append_cons. cbn [String.length split_go]. apply IH.
Qed.

(** Two pieces: the string is the first piece, the separator and the
    second piece, which holds no separator. *)
Lemma split_go_two c0 sep s : forall cur a b,
  split_go (String c0 sep) s 0 cur = [a; b] ->
  exists pre,
    s = pre +:+ String c0 sep +:+ b
    /\ a = string_of_list_ascii (rev cur ++ list_ascii_of_string pre)
    /\ strings_Contains b (String c0 sep) = false.
Proof.
  induction s as [|c s IH]; intros cur a b; cbn [split_go]; [done|].
  destruct (String.prefix (String c0 sep) (String c s)) eqn:Hp.
  - apply prefix_app in Hp as [post Hp]. rewrite append_cons in Hp.
    injection Hp as -> ->. cbn [String.length Nat.pred].
    rewrite split_go_skip. intros [= <- Hrest].
    apply split_go_one in Hrest as [-> Hno]. cbn [rev app] in *.
    rewrite string_of_list_ascii_of_string.
    exists "". rewrite append_nil, append_cons, app_nil_r. done.
  - intros (pre & -> & -> & Hno)%IH. exists (String c pre).
    rewrite append_cons. split; [done|]. split; [|done].
    cbn [rev list_ascii_of_string]. by rewrite <- app_assoc.
Qed.

(** X19. [getContainerRuntime] returns [docker] exactly for the container
    IDs [docker://] followed by an ID without [://] in it, [containerd]
    exactly for [containerd://] followed by such an ID, and the empty
    runtime for every other container ID: one without [://], with more
    than one [://], or with another runtime before it. *)
Theorem getContainerRuntime_spec (containerID : string) :
  (getContainerRuntime containerID = RuntimeDocker
   <-> exists id, containerID = "docker://" +:+ id /\ ~ Substring "://" id)
  /\ (getContainerRuntime containerID = RuntimeContainerd
      <-> exists id, containerID = "containerd://" +:+ id /\ ~ Substring "://" id)
  /\ (getContainerRuntime containerID <> RuntimeDocker ->
      getContainerRuntime containerID <> RuntimeContainerd ->
      getContainerRuntime containerID = "").
Proof.
  assert (forall id, strings_Contains id "://" = false <-> ~ Substring "://" id) as Hsub.
  { intros id. unfold Substring. rewrite <- strings_Contains_spec.
    by destruct (strings_Contains id "://"). }
  assert (forall cr,
            (cr = "docker" \/ cr = "containerd") ->
            getContainerRuntime containerID = cr ->
            exists id, containerID = cr +:+ "://" +:+ id /\ ~ Substring "://" id) as Hback.
  { intros cr Hcr. unfold getContainerRuntime.
    destruct (strings_Split containerID "://") as [|a [|b [|? ?]]] eqn:Hsplit;
      try (destruct Hcr as [-> | ->]; done).
    apply split_go_two in Hsplit as (pre & -> & -> & Hno).
    cbn [rev app]. rewrite string_of_list_ascii_of_string.
    destruct (String.eqb pre "docker") eqn:Hd.
    - apply String.eqb_eq in Hd as ->. intros <-. exists b. by rewrite <- Hsub.
    - destruct (String.eqb pre "containerd") eqn:Hc.
      + apply String.eqb_eq in Hc as ->. intros <-. exists b. by rewrite <- Hsub.
      + destruct Hcr as [-> | ->]; done. }
  assert (forall id, ~ Substring "://" id ->
            getContainerRuntime ("docker://" +:+ id) = RuntimeDocker
            /\ getContainerRuntime ("containerd://" +:+ id) = RuntimeContainerd) as Hforth.
  { intros id Hno%Hsub.
    assert (split_go "://" id 0 [] = [id]) as Hid.
    { apply split_go_one. cbn [rev app]. by rewrite string_of_list_ascii_of_string. }
    unfold getContainerRuntime, strings_Split.
    rewrite !append_cons, !append_nil. cbn. rewrite Hid, !prefix_empty. done. }
  split; [|split].
  - split; [intros H; by apply (Hback "docker"); [left|]|].
    intros (id & -> & Hno). by apply Hforth.
  - split; [intros H; by apply (Hback "containerd"); [right|]|].
    intros (id & -> & Hno). by apply Hforth.
  - unfold getContainerRuntime.
    destruct (strings_Split containerID "://") as [|a [|b [|? ?]]]; try done.
    destruct (String.eqb a "docker"); [done|].
    by destruct (String.eqb a "containerd").
Qed.

Lemma getContainerRuntime_spec_witness :
  getContainerRuntime "cri-o://c1" = "".
Proof.
  apply (getContainerRuntime_spec "cri-o://c1"); vm_compute; discriminate.
Defined.

(** ** From a pod event to a pending image *)

Lemma isImagePending_scanState img old now :
  scanState img = scanState old -> owners img <> ∅ ->
  isImagePending img now
  = negb (scanned old) && negb (isImagePrivate old)
    && (IsZero (nextScan old) || Before (nextScan old) now).
Proof.
  unfold scanState. intros [= Hs He _ _ Hn] Howners.
  unfold isImagePending, isImagePrivate. rewrite Hs, He, Hn.
  apply map_size_non_empty_iff in Howners.
  replace (0 <? Z.of_nat (size (owners img))) with true
    by (symmetry; apply Z.ltb_lt; lia).
  by rewrite andb_true_r.
Qed.

(** X20. An add or an update of a running pod leaves the image of each of
    its containers (one with a status, an image ID and an image name)
    tracked with an owner. If the image was not tracked before it is
    pending from then on, at any time; if it was tracked, it is pending
    exactly when its earlier scan state allows: not scanned, not private,
    and no retry time ahead. *)
Theorem pod_event_makes_image_pending ObjectKey ev pod d cont cs :
  ev <> EventDelete ->
  Phase (Status pod) = PodRunning ->
  cont ∈ (Containers (Spec pod) ++ InitContainers (Spec pod))%list ->
  List.find (fun v => String.eqb (cs_Name v) (cont_Name cont))
    (ContainerStatuses (Status pod) ++ InitContainerStatuses (Status pod))%list
  = Some cs ->
  ImageID cs <> "" -> Image cont <> "" ->
  let key := ImageID cs +:+ podArch d pod in
  exists img,
    images (handleDelta ObjectKey d (ev, ObjPod pod)) !! key = Some img
    /\ owners img <> ∅
    /\ (images d !! key = None -> forall now, isImagePending img now = true)
    /\ (forall old, images d !! key = Some old ->
          forall now,
            isImagePending img now
            = negb (scanned old) && negb (isImagePrivate old)
              && (IsZero (nextScan old) || Before (nextScan old) now)).
Proof.
  intros Hev Hrunning Hin Hfind Hid Himage key.
  assert (handleDelta ObjectKey d (ev, ObjPod pod) = handlePodUpdate pod d) as ->
    by by destruct ev.
  unfold handlePodUpdate. rewrite updateNodesUsageFromPod_images.
  unfold upsertImages. rewrite Hrunning.
  change (String.eqb PodRunning PodRunning) with true. cbn [negb]. cbv zeta.
  destruct (fold_upsertImage_tracks pod _ (getPodOwnerID pod (rs d) (jobs d)) _
              cont cs d Hin Hfind Hid Himage)
    as (img & owner & imgNode & Hk & Howner & _).
  fold key in Hk. exists img. split; [done|].
  assert (owners img <> ∅) as Hne.
  { intros Hempty. by rewrite Hempty, lookup_empty in Howner. }
  split; [done|].
  apply fold_upsertImage_scanState in Hk. split.
  - intros Hnone now. rewrite Hnone in Hk.
    by rewrite (isImagePending_scanState img (newImage "" "") now Hk Hne).
  - intros old Hold now. rewrite Hold in Hk.
    by apply isImagePending_scanState.
Qed.

Lemma pod_event_makes_image_pending_witness :
  exists img,
    images (handleDelta Samples.objectKey Samples.clusterAB
              (EventAdd, ObjPod Samples.runningPod)) !! "sha256:xamd64" = Some img
    /\ owners img <> ∅
    /\ (images Samples.clusterAB !! "sha256:xamd64" = None ->
        forall now, isImagePending img now = true)
    /\ (forall old, images Samples.clusterAB !! "sha256:xamd64" = Some old ->
          forall now,
            isImagePending img now
            = negb (scanned old) && negb (isImagePrivate old)
              && (IsZero (nextScan old) || Before (nextScan old) now)).
Proof.
  refine (pod_event_makes_image_pending Samples.objectKey EventAdd Samples.runningPod
            Samples.clusterAB
            (mkContainer "web" "nginx:1.25" (Dec.of_Z 1) (Dec.of_Z 1))
            (mkContainerStatus "web" "sha256:x" "containerd://c1") _ eq_refl _ eq_refl _ _).
  - discriminate.
  - left.
  - discriminate.
  - discriminate.
Defined.

(** ** The floor of [findBestNode] in numbers *)

Section Floor.
Context (s : Z) (Hs : 0 <= s).
Context (requiredMemory requiredCPU : Dec.t).
Context (HreqM : Dec.scale requiredMemory <= s) (HreqC : Dec.scale requiredCPU <= s).

Lemma fits_hasRoom (n : node) :
  withinScale s n ->
  fits requiredMemory requiredCPU n = true <-> hasRoom s requiredMemory requiredCPU n.
Proof.
  intros (Hcpu & Hmem & Hpods). unfold fits, hasRoom.
  destruct (availableCPU_value s Hs n Hcpu) as [HsC HvC].
  { eapply map_Forall_impl; [exact Hpods|]. by intros k p [? ?]. }
  destruct (availableMemory_value s Hs n Hmem) as [HsM HvM].
  { eapply map_Forall_impl; [exact Hpods|]. by intros k p [? ?]. }
  rewrite andb_true_iff, !Z.leb_le.
  rewrite (Cmp_nonneg _ _ s HsM HreqM), (Cmp_nonneg _ _ s HsC HreqC).
  by rewrite HvM, HvC.
Qed.

(** X21. The node [findBestNode] returns is one of the listed, tracked
    nodes, and what it has left (its allocatable amount minus the requests
    of its pods, in exact arithmetic) is at least the memory and the CPU
    asked for. The call fails, with the no-candidates error only, exactly
    when no node is tracked or no listed node has that much left. *)
Theorem findBestNode_floor sortSlice (d : deltaState) (nodeNames : list string) :
  SliceSorterSpec sortSlice ->
  map_Forall (fun _ n => withinScale s n) (d_nodes d) ->
  (forall resolved,
     findBestNode sortSlice d nodeNames requiredMemory requiredCPU = Ok resolved ->
     exists key n,
       key ∈ nodeNames /\ d_nodes d !! key = Some n /\ node_name n = resolved
       /\ hasRoom s requiredMemory requiredCPU n)
  /\ (forall e,
        findBestNode sortSlice d nodeNames requiredMemory requiredCPU = Err e <->
        e = errNoCandidates
        /\ (d_nodes d = ∅
            \/ forall key n, key ∈ nodeNames -> d_nodes d !! key = Some n ->
                             ~ hasRoom s requiredMemory requiredCPU n)).
Proof.
  intros Hspec Hscale. split.
  - intros resolved Hok.
    apply findBestNode_Ok_candidate in Hok as (key & n & Hin & Hn & Hname & Hfit); [|done].
    exists key, n. split; [done|]. split; [done|]. split; [done|].
    apply fits_hasRoom; [|done]. by apply (Hscale key).
  - intros e. rewrite (findBestNode_Err_iff sortSlice Hspec).
    split; (intros [-> [Hnone|Hnone]]; (split; [done|]); [by left|]).
    + right. intros key n Hin Hn Hroom.
      apply fits_hasRoom in Hroom; [|by apply (Hscale key)].
      by rewrite (Hnone key n) in Hroom.
    + right. intros key n Hin Hn.
      destruct (fits requiredMemory requiredCPU n) eqn:Hfit; [|done].
      exfalso. apply (Hnone key n Hin Hn). apply fits_hasRoom; [|done].
      by apply (Hscale key).
Qed.

End Floor.

Lemma findBestNode_floor_witness :
  exists key n,
    key ∈ ["b"; "a"] /\ d_nodes Samples.clusterAB !! key = Some n /\ node_name n = "b"
    /\ hasRoom 0 (Dec.of_Z 1) (Dec.of_Z 1) n.
Proof.
  refine (proj1 (findBestNode_floor 0 _ (Dec.of_Z 1) (Dec.of_Z 1) _ _ insertionSort
                   Samples.clusterAB ["b"; "a"] insertionSort_spec _) "b" _).
  - lia.
  - cbn. lia.
  - cbn. lia.
  - apply map_Forall_insert_2; [|apply map_Forall_insert_2; [|apply map_Forall_empty]].
    + split; [cbn; lia|]. split; [cbn; lia|]. apply map_Forall_empty.
    + split; [cbn; lia|]. split; [cbn; lia|]. apply map_Forall_singleton.
      cbn. split; lia.
  - vm_compute. reflexivity.
Defined.

(** ** Static pods ([isStaticPod]) *)

Lemma length_append (a b : string) :
  String.length (a +:+ b) = (String.length a + String.length b)%nat.
Proof. induction a as [|c a IH]; [done|]. rewrite append_cons. cbn. by rewrite IH. Qed.

Lemma sliceFrom_append (a b : string) : sliceFrom (String.length a) (a +:+ b) = b.
Proof. induction a as [|c a IH]; [done|]. rewrite append_cons. cbn. apply IH. Qed.

Lemma sliceFrom_split (n : nat) : forall s,
  (n <= String.length s)%nat -> exists pre, s = pre +:+ sliceFrom n s.
Proof.
  induction n as [|n IH]; intros s Hn; [by exists ""|].
  destruct s as [|c s]; cbn in Hn; [lia|].
  destruct (IH s) as [pre Hpre]; [lia|].
  exists (String c pre). rewrite append_cons. cbn. by rewrite <- Hpre.
Qed.

Lemma strings_HasSuffix_spec (s suffix : string) :
  strings_HasSuffix s suffix = true <-> exists pre, s = pre +:+ suffix.
Proof.
  unfold strings_HasSuffix. rewrite andb_true_iff, Nat.leb_le, String.eqb_eq. split.
  - intros [Hlen Heq].
    destruct (sliceFrom_split (String.length s - String.length suffix) s) as [pre Hpre];
      [lia|].
    exists pre. by rewrite <- Heq.
  - intros [pre ->]. rewrite length_append. split; [lia|].
    replace (String.length pre + String.length suffix - String.length suffix)%nat
      with (String.length pre) by lia.
    apply sliceFrom_append.
Qed.

(** X22. A pod counts as static exactly when it is bound to a node and its
    name ends in the name of that node; a pod that has no node yet is not
    static, whatever its name. *)
Theorem isStaticPod_iff (pod : Pod) :
  isStaticPod pod = true <->
  NodeName (Spec pod) <> ""
  /\ exists pre, Name (pod_Meta pod) = pre +:+ NodeName (Spec pod).
Proof.
  unfold isStaticPod.
  destruct (String.eqb (NodeName (Spec pod)) "") eqn:Hnode.
  - apply String.eqb_eq in Hnode. split; [done|]. by intros [? _].
  - apply String.eqb_neq in Hnode. rewrite strings_HasSuffix_spec. split; [done|].
    by intros [_ ?].
Qed.

Lemma isStaticPod_iff_witness : isStaticPod Samples.staticPod = true.
Proof.
  apply (isStaticPod_iff Samples.staticPod). split; [discriminate|].
  by exists "kube-apiserver-".
Defined.

(** ** Host-filesystem scans are switched off for good *)

Lemma handleDelta_hostFSDisabled ObjectKey d item :
  hostFSDisabled (handleDelta ObjectKey d item) = hostFSDisabled d.
Proof.
  destruct item as [ev o]. unfold handleDelta. cbn [fst snd].
  assert (hostFSDisabled (upsert ObjectKey o d) = hostFSDisabled d) as Hup.
  { destruct o as [v|v|v|v|m]; cbn [upsert]; try done.
    unfold handlePodUpdate.
    destruct (upsertImages_frame v d) as (_ & _ & _ & <-).
    unfold updateNodesUsageFromPod. destruct (_ || _); [done|].
    by destruct (d_nodes _ !! _). }
  destruct ev; try done.
  destruct o as [v|v|v|v|m]; cbn [delete_]; try done.
  unfold handlePodDelete. cbv zeta. by destruct (d_nodes _ !! _).
Qed.

(** X23. A new delta state scans from the host filesystem. No event, no
    rebuild from the remote side and no [updateImage] changes the flag
    [hostFSDisabled]; [setImageScanError] never clears it, and sets it
    exactly when the image is tracked and the error message names a
    missing file or layer. *)
Theorem hostFSDisabled_sticky ObjectKey :
  (forall seed, isHostFsDisabled (NewDeltaState seed) = false)
  /\ (forall items d,
        isHostFsDisabled (handleDeltas ObjectKey items d) = isHostFsDisabled d)
  /\ (forall d, isHostFsDisabled (receiveRemoteImagesUpdate d) = isHostFsDisabled d)
  /\ (forall i change d, isHostFsDisabled (updateImage i change d) = isHostFsDisabled d)
  /\ (forall i err now d,
        isHostFsDisabled d = true ->
        isHostFsDisabled (setImageScanError i err now d) = true)
  /\ (forall i err now d,
        isHostFsDisabled d = false ->
        isHostFsDisabled (setImageScanError i err now d) = true
        <-> is_Some (images d !! cacheKey i) /\ LayerNotFoundMessage (Error err)).
Proof.
  unfold isHostFsDisabled. split; [done|]. split; [|split; [|split; [|split]]].
  - unfold handleDeltas. induction items as [|item items IH]; intros d; [done|].
    cbn [fold_left]. by rewrite IH, handleDelta_hostFSDisabled.
  - intros d. unfold receiveRemoteImagesUpdate. by destruct (remoteImagesUpdate d).
  - intros i change d. unfold updateImage. by destruct (images d !! cacheKey i).
  - intros i err now d Hd.
    destruct (images d !! cacheKey i) as [img|] eqn:Himg.
    + destruct (setImageScanError_lookup d i err now img Himg)
        as (img' & _ & _ & _ & _ & _ & -> & _).
      rewrite Hd. apply orb_true_r.
    + unfold setImageScanError. by rewrite Himg.
  - intros i err now d Hd. rewrite <- is_layer_message.
    destruct (images d !! cacheKey i) as [img|] eqn:Himg.
    + destruct (setImageScanError_lookup d i err now img Himg)
        as (img' & _ & _ & _ & _ & _ & -> & _).
      rewrite Hd, orb_false_r. split; [by split|by intros [_ ?]].
    + unfold setImageScanError. rewrite Himg, Hd.
      split; [done|]. by intros [[? ?] _].
Qed.

Lemma hostFSDisabled_sticky_witness :
  isHostFsDisabled
    (setImageScanError Samples.imageX (errorNew "failed to get the layer") 100
       Samples.trackingX) = true.
Proof.
  apply (hostFSDisabled_sticky Samples.objectKey).
  - vm_compute. reflexivity.
  - split; [by eexists|]. right. by exists "", "".
Defined.

(** ** Pod events wait for the tick ([eventsHandler]) *)

Lemma filter_all {A} (f : A -> bool) (l : list A) :
  Forall (fun x => f x = true) l ->
  List.filter f l = l /\ List.filter (fun x => negb (f x)) l = [].
Proof.
  induction 1 as [|x l Hx _ [IH1 IH2]]; [done|].
  cbn. rewrite Hx. cbn. by rewrite IH1, IH2.
Qed.

Lemma deliver_conserves rounds : forall st,
  Forall (fun ev => isPodEvent ev = true) (podsEventsBuff st) ->
  let st' := deliver rounds st in
  (List.filter isPodEvent (handled st') ++ podsEventsBuff st'
   = List.filter isPodEvent (handled st) ++ podsEventsBuff st
     ++ List.filter isPodEvent (received rounds))%list
  /\ List.filter (fun ev => negb (isPodEvent ev)) (handled st')
     = (List.filter (fun ev => negb (isPodEvent ev)) (handled st)
        ++ List.filter (fun ev => negb (isPodEvent ev)) (received rounds))%list
  /\ Forall (fun ev => isPodEvent ev = true) (podsEventsBuff st').
Proof.
  induction rounds as [|[ev| |] rest IH]; intros st Hbuff; cbn [deliver received].
  - cbn. by rewrite !app_nil_r.
  - destruct (isPodEvent ev) eqn:Hev.
    + destruct (IH (mkSubscription (podsEventsBuff st ++ [ev]) (handled st)))
        as (Hpods & Hothers & Hall).
      { cbn. apply Forall_app. split; [done|]. by constructor. }
      cbn [podsEventsBuff handled] in *. cbn [List.filter]. rewrite Hev. cbn [negb].
      split; [|done]. by rewrite Hpods, <- !app_assoc.
    + destruct (IH (mkSubscription (podsEventsBuff st) (handled st ++ [ev])))
        as (Hpods & Hothers & Hall); [done|].
      cbn [podsEventsBuff handled] in *. cbn [List.filter]. rewrite Hev. cbn [negb].
      rewrite !List.filter_app in *. cbn [List.filter] in *. rewrite Hev in *.
      cbn [negb] in *. rewrite app_nil_r in Hpods.
      split; [done|]. split; [|done]. by rewrite Hothers, <- !app_assoc.
  - destruct (IH (mkSubscription [] (handled st ++ podsEventsBuff st)))
      as (Hpods & Hothers & Hall); [done|].
    cbn [podsEventsBuff handled] in *.
    destruct (filter_all isPodEvent _ Hbuff) as [Hkeep Hdrop].
    rewrite !List.filter_app, ?Hkeep, ?Hdrop, ?app_nil_r in *.
    split; [|done]. by rewrite Hpods, <- !app_assoc.
  - cbn. by rewrite !app_nil_r.
Qed.

Lemma deliver_events evs : forall st,
  deliver (List.map selEvent evs) st
  = mkSubscription
      (podsEventsBuff st ++ List.filter isPodEvent evs)
      (handled st ++ List.filter (fun ev => negb (isPodEvent ev)) evs).
Proof.
  induction evs as [|ev evs IH]; intros st; cbn [List.map deliver List.filter].
  - rewrite !app_nil_r. by destruct st.
  - destruct (isPodEvent ev); rewrite IH; cbn [podsEventsBuff handled negb];
      by rewrite <- !app_assoc.
Qed.

(** X24. The goroutine that feeds a subscriber hands over events of other
    kinds at once and holds pod events back until the next tick: of the
    events received between two ticks, first the others are handled, in
    the order received, and at the tick the pod events, in the order
    received. Over any run, from an empty buffer, no event is lost,
    repeated or reordered within its group: the pod events handled or
    still buffered are the pod events received, the other events handled
    are the other events received. When the context ends the goroutine
    returns with the buffered pod events not handled. *)
Theorem pod_events_wait_for_tick :
  (forall evs rest before,
     deliver (List.map selEvent evs ++ selTick :: rest) (mkSubscription [] before)
     = deliver rest
         (mkSubscription []
            (before ++ List.filter (fun ev => negb (isPodEvent ev)) evs
               ++ List.filter isPodEvent evs)))
  /\ (forall rounds,
        let st := deliver rounds (mkSubscription [] []) in
        (List.filter isPodEvent (handled st) ++ podsEventsBuff st
         = List.filter isPodEvent (received rounds))%list
        /\ List.filter (fun ev => negb (isPodEvent ev)) (handled st)
           = List.filter (fun ev => negb (isPodEvent ev)) (received rounds)
        /\ Forall (fun ev => isPodEvent ev = true) (podsEventsBuff st))
  /\ (forall evs rest before,
        deliver (List.map selEvent evs ++ selDone :: rest) (mkSubscription [] before)
        = mkSubscription (List.filter isPodEvent evs)
            (before ++ List.filter (fun ev => negb (isPodEvent ev)) evs)).
Proof.
  assert (forall evs tail st,
            deliver (List.map selEvent evs ++ tail) st
            = deliver tail (deliver (List.map selEvent evs) st)) as Hsplit.
  { induction evs as [|ev evs IH]; intros tail st; [done|].
    cbn [List.map app deliver]. by destruct (isPodEvent ev); rewrite IH. }
  split; [|split].
  - intros evs rest before. rewrite Hsplit, deliver_events.
    cbn [deliver podsEventsBuff handled app]. by rewrite <- app_assoc.
  - intros rounds. by apply (deliver_conserves rounds (mkSubscription [] [])).
  - intros evs rest before. rewrite Hsplit, deliver_events. done.
Qed.

Lemma pod_events_wait_for_tick_witness :
  handled
    (deliver [selEvent (EventAdd, ObjPod Samples.podOfRS);
              selEvent (EventAdd, ObjReplicaSet Samples.bareRS);
              selTick]
       (mkSubscription [] []))
  = [(EventAdd, ObjReplicaSet Samples.bareRS); (EventAdd, ObjPod Samples.podOfRS)].
Proof.
  exact (f_equal handled
           (proj1 pod_events_wait_for_tick
              [(EventAdd, ObjPod Samples.podOfRS);
               (EventAdd, ObjReplicaSet Samples.bareRS)] [] [])).
Defined.
